(** * Reconciliation engine of the 5G UPF operator

    A shallow embedding of the two source files of the operator:

    - [kubernetes_multus.py]: the attachment repository and the attachment
      reconciler ([Module Multus]);
    - [charm.py]: the configuration reconciler, the bootstrap runner and the
      status aggregator ([Module Charm]).

    Python methods become functions of an effect monad: a computation takes
    the observed world, and yields an outcome (a value or a raised
    exception), the world it leaves behind and the calls it issued against
    the cluster API or the workload container, in the order issued. *)

From Stdlib Require Import ZArith Ascii String List Lia Bool.
From stdpp Require Import base option gmap strings list fin_maps pretty.

Set Warnings "-register-all".
Local Open Scope string_scope.
Local Open Scope list_scope.

(** ** Python exceptions raised or handled by the two files *)

Inductive Exception : Type :=
| ExecError
| PathError
| TimeoutError (message : string)
| KubernetesMultusError (message : string)
| ApiError (reason : string)
| HTTPStatusError (status_code : nat)
| JSONDecodeError
| AttributeError
| TypeError
| IndexError
| ModelError.

(** ** Outcomes and the effect monad *)

Inductive Outcome (A : Type) : Type :=
| Ok (a : A)
| Raise (e : Exception)
| OutOfFuel.

Arguments Ok {A} a.
Arguments Raise {A} e.
Arguments OutOfFuel {A}.

Section Effects.
Context {W E : Type}.

(** A run: outcome, final world, calls issued (oldest first). *)
Definition M (A : Type) : Type := W -> Outcome A * W * list E.

Definition ret {A} (a : A) : M A := fun w => (Ok a, w, []).

Definition raise {A} (e : Exception) : M A := fun w => (Raise e, w, []).

Definition bind {A B} (m : M A) (k : A -> M B) : M B :=
  fun w =>
    match m w with
    | (Ok a, w1, t1) =>
        match k a w1 with
        | (r, w2, t2) => (r, w2, t1 ++ t2)
        end
    | (Raise e, w1, t1) => (Raise e, w1, t1)
    | (OutOfFuel, w1, t1) => (OutOfFuel, w1, t1)
    end.

(** [try: m except <exceptions selected by handler>: ...]; an exception the
    handler does not select propagates. *)
Definition try_except {A} (m : M A) (handler : Exception -> option (M A)) : M A :=
  fun w =>
    match m w with
    | (Raise e, w1, t1) =>
        match handler e with
        | Some h =>
            match h w1 with
            | (r, w2, t2) => (r, w2, t1 ++ t2)
            end
        | None => (Raise e, w1, t1)
        end
    | run => run
    end.

(** Reading the world, changing it, and recording a call. *)
Definition gets {A} (f : W -> A) : M A := fun w => (Ok (f w), w, []).
Definition modify (f : W -> W) : M unit := fun w => (Ok tt, f w, []).
Definition emit (c : E) : M unit := fun w => (Ok tt, w, [c]).

(** [if b: m] *)
Definition when (b : bool) (m : M unit) : M unit := if b then m else ret tt.

(** [for x in xs: body x] *)
Fixpoint for_each {A} (xs : list A) (body : A -> M unit) : M unit :=
  match xs with
  | [] => ret tt
  | x :: rest => bind (body x) (fun _ => for_each rest body)
  end.

Definition outcome {A} (run : Outcome A * W * list E) : Outcome A := fst (fst run).
Definition final {A} (run : Outcome A * W * list E) : W := snd (fst run).
Definition calls {A} (run : Outcome A * W * list E) : list E := snd run.
End Effects.

Arguments M : clear implicits.

Declare Scope effect_scope.
Delimit Scope effect_scope with eff.
Notation "x <- m ;; k" := (bind m (fun x => k))
  (at level 100, m at next level, right associativity) : effect_scope.
Notation "m ;;; k" := (bind m (fun _ => k))
  (at level 100, right associativity) : effect_scope.

(** ** JSON values as [json.loads] produces them *)

Inductive JSON : Type :=
| JNull
| JBool (b : bool)
| JInt (n : Z)
| JStr (s : string)
| JArr (items : list JSON)
| JObj (members : list (string * JSON)).

(** [d.get(key)]: the value bound to [key], [None] when there is none. *)
Fixpoint dict_get (key : string) (members : list (string * JSON)) : JSON :=
  match members with
  | [] => JNull
  | (k, v) :: rest => if String.eqb k key then v else dict_get key rest
  end.

Fixpoint dict_lookup (key : string) (members : list (string * JSON)) : option JSON :=
  match members with
  | [] => None
  | (k, v) :: rest => if String.eqb k key then Some v else dict_lookup key rest
  end.

(** Python's [==] on decoded JSON: [bool] is a subclass of [int], so
    [True == 1] and [False == 0]; lists compare element-wise and dicts
    key-wise, whatever the order of the keys.  Numbers with a fraction are
    outside the model. *)
Fixpoint py_eq (a b : JSON) {struct a} : bool :=
  match a with
  | JNull => match b with JNull => true | _ => false end
  | JBool x =>
      match b with
      | JBool y => Bool.eqb x y
      | JInt n => Z.eqb (Z.b2z x) n
      | _ => false
      end
  | JInt m =>
      match b with
      | JInt n => Z.eqb m n
      | JBool y => Z.eqb m (Z.b2z y)
      | _ => false
      end
  | JStr s => match b with JStr t => String.eqb s t | _ => false end
  | JArr xs =>
      match b with
      | JArr ys =>
          (fix all2 (xs ys : list JSON) {struct xs} : bool :=
             match xs, ys with
             | [], [] => true
             | x :: xs', y :: ys' => py_eq x y && all2 xs' ys'
             | _, _ => false
             end) xs ys
      | _ => false
      end
  | JObj kvs =>
      match b with
      | JObj kvs' =>
          Nat.eqb (length kvs) (length kvs') &&
          (fix every (kvs : list (string * JSON)) {struct kvs} : bool :=
             match kvs with
             | [] => true
             | (k, v) :: rest =>
                 match dict_lookup k kvs' with
                 | Some v' => py_eq v v'
                 | None => false
                 end && every rest
             end) kvs
      | _ => false
      end
  end.

(** [a != b] *)
Definition py_ne (a b : JSON) : bool := negb (py_eq a b).

(** ** Strings *)

(** A string is a sequence of code points below 256.  [str.isspace] holds
    of the blank, of the controls 9 to 13 and 28 to 31, of the next-line
    control 133 and of the no-break space 160. *)
Definition is_space (c : ascii) : bool :=
  match c with
  | " "%char => true
  | "009"%char | "010"%char | "011"%char | "012"%char | "013"%char => true
  | "028"%char | "029"%char | "030"%char | "031"%char => true
  | "133"%char | "160"%char => true
  | _ => false
  end.

(** [s.split()]: the maximal runs of characters that are not white space. *)
Fixpoint split_from (word : string) (s : string) : list string :=
  match s with
  | EmptyString => if String.eqb word "" then [] else [word]
  | String c rest =>
      if is_space c
      then (if String.eqb word "" then split_from "" rest
            else word :: split_from "" rest)
      else split_from (word ++ String c "") rest
  end.

Definition split (s : string) : list string := split_from "" s.

(** [separator.join(items)] *)
Fixpoint join (separator : string) (items : list string) : string :=
  match items with
  | [] => ""
  | [x] => x
  | x :: rest => x ++ separator ++ join separator rest
  end.

(** [needle in s] on strings. *)
Fixpoint contains (needle s : string) : bool :=
  String.prefix needle s ||
  match s with
  | EmptyString => false
  | String _ rest => contains needle rest
  end.

(** [s.split("\n")] *)
Fixpoint lines_from (line : string) (s : string) : list string :=
  match s with
  | EmptyString => [line]
  | String c rest =>
      if Ascii.eqb c "010" then line :: lines_from "" rest
      else lines_from (line ++ String c "") rest
  end.

Definition lines (s : string) : list string := lines_from "" s.

(** [s.split("/")[0]]: what comes before the first slash. *)
Fixpoint before_slash (s : string) : string :=
  match s with
  | EmptyString => ""
  | String c rest => if Ascii.eqb c "/" then "" else String c (before_slash rest)
  end.

(** ["-".join(s.rsplit("/", 1))]: the last slash, if any, becomes a dash. *)
Fixpoint replace_last_slash (s : string) : string :=
  match s with
  | EmptyString => ""
  | String c rest =>
      if Ascii.eqb c "/" && negb (contains "/" rest) then String "-" rest
      else String c (replace_last_slash rest)
  end.

(** * Writes that follow a read *)

Section Order.
Context {W E : Type}.
Context (is_write : E -> bool).
(** The writes that are let through without a reason. *)
Context (exempt : E -> bool).
(** [tells_difference c seen]: the earlier call [seen] tells a difference
    that the write [c] removes. *)
Context (tells_difference : E -> E -> bool).

(** A call is in order after the calls [earlier] when it writes nothing,
    is exempt, or some earlier call tells the difference it removes. *)
Definition justified (earlier : list E) (c : E) : bool :=
  negb (is_write c) || exempt c || existsb (tells_difference c) earlier.

(** [earlier] holds the calls already made, the latest first. *)
Fixpoint guarded_from (earlier : list E) (t : list E) : bool :=
  match t with
  | [] => true
  | c :: rest => justified earlier c && guarded_from (c :: earlier) rest
  end.

(** A computation whose calls are all in order, whatever the world. *)
Definition respects {A} (earlier : list E) (m : M W E A) : Prop :=
  forall w, guarded_from earlier (calls (m w)) = true.

End Order.

(** ** A printer and a table reader of JSON documents *)

(** The double quote. *)
Definition quote_mark : string := String "034" EmptyString.

Definition quoted (s : string) : string := quote_mark ++ s ++ quote_mark.

(** A printer of JSON documents, for the concrete surroundings below. *)
Fixpoint print_json (j : JSON) : string :=
  match j with
  | JNull => "null"
  | JBool b => if b then "true" else "false"
  | JInt n => pretty n
  | JStr s => quoted s
  | JArr items => "[" ++ join ", " (map print_json items) ++ "]"
  | JObj members =>
      "{" ++ join ", " (map (fun kv => match kv with
                                      | (k, v) => (quoted k ++ ": " ++ print_json v)%string
                                      end) members) ++ "}"
  end.

(** A reader that knows the documents of a table. *)
Definition read_json (table : list JSON) (text : string) : option JSON :=
  List.find (fun j => String.eqb (print_json j) text) table.

(** * kubernetes_multus.py *)

Module Multus.

Local Open Scope effect_scope.

(** ** Data model *)

(** A [NetworkAttachmentDefinition] resource: [metadata.name] and the
    [spec] (a document the library never inspects). *)
Record NetworkAttachmentDefinition : Type := {
  metadata_name : string;
  spec : JSON;
}.

(** The dataclass [NetworkAnnotation]. *)
Record NetworkAnnotation : Type := {
  name : string;
  interface : string;
  ips : option (list string);
}.

(** [NetworkAnnotation.dict], that is [dataclasses.asdict]. *)
Definition NetworkAnnotation_dict (a : NetworkAnnotation) : JSON :=
  JObj [("name", JStr (name a));
        ("interface", JStr (interface a));
        ("ips", match ips a with
                | None => JNull
                | Some l => JArr (map JStr l)
                end)].

(** [lightkube.models.core_v1.Capabilities] *)
Record Capabilities : Type := {
  add : option (list string);
  drop : option (list string);
}.

(** A container's [securityContext]; [security_rest] stands for its other
    fields. *)
Record SecurityContext : Type := {
  capabilities : option Capabilities;
  security_rest : JSON;
}.

(** A container of the pod template; [container_rest] stands for its other
    fields. *)
Record Container : Type := {
  container_name : string;
  securityContext : option SecurityContext;
  container_rest : JSON;
}.

(** The workload descriptor: [annotations] is
    [spec.template.metadata.annotations], [containers] is
    [spec.template.spec.containers], [statefulset_rest] every other field. *)
Record StatefulSet : Type := {
  annotations : option (gmap string string);
  containers : list Container;
  statefulset_rest : JSON;
}.

Inductive Resource : Type :=
| res_NetworkAttachmentDefinition
| res_StatefulSet.

(** What the cluster API client raises when a request fails for a reason
    other than the state of the object asked for. *)
Inductive ClientFailure : Type :=
| api_error (reason : string)
| http_status_error (status_code : nat).

Definition exception_of (f : ClientFailure) : Exception :=
  match f with
  | api_error reason => ApiError reason
  | http_status_error status_code => HTTPStatusError status_code
  end.

(** The cluster as observed through the client, within the namespace of the
    model. *)
Record Cluster : Type := {
  nads : gmap string NetworkAttachmentDefinition;
  statefulsets : gmap string StatefulSet;
}.

(** Calls against the cluster API; a [Get] is recorded with its answer,
    whether the object was returned. *)
Inductive Call : Type :=
| Get (res : Resource) (name : string) (found : bool)
| Create (obj : NetworkAttachmentDefinition)
| Delete (name : string)
| Patch (name : string) (obj : StatefulSet).

Definition is_write (c : Call) : bool :=
  match c with
  | Get _ _ _ => false
  | Create _ | Delete _ | Patch _ _ => true
  end.

Definition writes (cs : list Call) : list Call := List.filter is_write cs.

(** What the file takes from its libraries: the [json] module, and the
    availability of the API server for each object. *)
Record Env : Type := {
  json_dumps : JSON -> string;
  json_loads : string -> option JSON;
  api_fault : Resource -> string -> option ClientFailure;
}.

(** The attributes of a [KubernetesMultusCharmLib] instance;
    [app_name] is [self.model.app.name]. *)
Record KubernetesMultusCharmLib : Type := {
  network_attachment_definitions : list NetworkAttachmentDefinition;
  network_annotations : list NetworkAnnotation;
  containers_requiring_net_admin_capability : list string;
  app_name : string;
}.

Definition networks_key : string := "k8s.v1.cni.cncf.io/networks".

(** [[network_annotation.dict() for network_annotation in network_annotations]] *)
Definition annotation_dicts (network_annotations : list NetworkAnnotation) : JSON :=
  JArr (map NetworkAnnotation_dict network_annotations).

(** The first index [i] with [containers[i].name == container_name]. *)
Fixpoint index_of_container (container_name0 : string) (cs : list Container) : option nat :=
  match cs with
  | [] => None
  | c :: rest =>
      if String.eqb (container_name c) container_name0 then Some 0
      else option_map S (index_of_container container_name0 rest)
  end.

(** A merge patch built from a whole object: map entries of the patch are
    merged into the stored map, lists and the remaining fields are taken
    from the patch. *)
Definition merge_patch (stored obj : StatefulSet) : StatefulSet :=
  {| annotations :=
       match annotations obj with
       | Some a => Some (a ∪ default ∅ (annotations stored))
       | None => annotations stored
       end;
     containers := containers obj;
     statefulset_rest := statefulset_rest obj |}.

Section Library.
Context (env : Env).

Local Abbreviation Eff := (M Cluster Call).

(** *** The lightkube client *)

Definition client_get_nad (name0 : string) : Eff NetworkAttachmentDefinition :=
  fun w =>
    match api_fault env res_NetworkAttachmentDefinition name0 with
    | Some f =>
        (Raise (exception_of f), w, [Get res_NetworkAttachmentDefinition name0 false])
    | None =>
        match nads w !! name0 with
        | Some o => (Ok o, w, [Get res_NetworkAttachmentDefinition name0 true])
        | None =>
            (Raise (ApiError "NotFound"), w,
             [Get res_NetworkAttachmentDefinition name0 false])
        end
    end.

Definition client_get_statefulset (name0 : string) : Eff StatefulSet :=
  fun w =>
    match api_fault env res_StatefulSet name0 with
    | Some f => (Raise (exception_of f), w, [Get res_StatefulSet name0 false])
    | None =>
        match statefulsets w !! name0 with
        | Some o => (Ok o, w, [Get res_StatefulSet name0 true])
        | None => (Raise (ApiError "NotFound"), w, [Get res_StatefulSet name0 false])
        end
    end.

Definition client_create (obj : NetworkAttachmentDefinition) : Eff unit :=
  fun w =>
    match api_fault env res_NetworkAttachmentDefinition (metadata_name obj) with
    | Some f => (Raise (exception_of f), w, [Create obj])
    | None =>
        match nads w !! metadata_name obj with
        | Some _ => (Raise (ApiError "AlreadyExists"), w, [Create obj])
        | None =>
            (Ok tt,
             {| nads := <[metadata_name obj := obj]> (nads w);
                statefulsets := statefulsets w |},
             [Create obj])
        end
    end.

Definition client_delete (name0 : string) : Eff unit :=
  fun w =>
    match api_fault env res_NetworkAttachmentDefinition name0 with
    | Some f => (Raise (exception_of f), w, [Delete name0])
    | None =>
        match nads w !! name0 with
        | Some _ =>
            (Ok tt,
             {| nads := delete name0 (nads w); statefulsets := statefulsets w |},
             [Delete name0])
        | None => (Raise (ApiError "NotFound"), w, [Delete name0])
        end
    end.

Definition client_patch (name0 : string) (obj : StatefulSet) : Eff unit :=
  fun w =>
    match api_fault env res_StatefulSet name0 with
    | Some f => (Raise (exception_of f), w, [Patch name0 obj])
    | None =>
        match statefulsets w !! name0 with
        | Some stored =>
            (Ok tt,
             {| nads := nads w;
                statefulsets := <[name0 := merge_patch stored obj]> (statefulsets w) |},
             [Patch name0 obj])
        | None => (Raise (ApiError "NotFound"), w, [Patch name0 obj])
        end
    end.

(** *** class KubernetesMultus *)

Definition get_container_index_from_name
    (statefulset_name container_name0 : string) : Eff nat :=
  statefulset <- client_get_statefulset statefulset_name ;;
  match index_of_container container_name0 (containers statefulset) with
  | Some i => ret i
  | None =>
      raise (KubernetesMultusError
               ("No container named " ++ container_name0 ++ " in statefulset"))
  end.

Definition unexpected_outcome (name0 : string) : Exception :=
  KubernetesMultusError
    ("Unexpected outcome when retrieving network attachment definition " ++ name0).

Definition network_attachment_definition_is_created (name0 : string) : Eff bool :=
  try_except
    (_ <- client_get_nad name0 ;; ret true)
    (fun e =>
       match e with
       | ApiError reason =>
           Some (if String.eqb reason "NotFound" then ret false
                 else raise (unexpected_outcome name0))
       | HTTPStatusError status_code =>
           Some (if Nat.eqb status_code 404
                 then raise (KubernetesMultusError
                               ("NetworkAttachmentDefinition resource not found. "
                                ++ "You may need to install Multus CNI."))
                 else raise (unexpected_outcome name0))
       | _ => None
       end).

Definition create_network_attachment_definition
    (network_attachment_definition : NetworkAttachmentDefinition) : Eff unit :=
  client_create network_attachment_definition.

Definition delete_network_attachment_definition (name0 : string) : Eff unit :=
  client_delete name0.

(** [statefulset...annotations[key] = value] on the local object. *)
Definition set_annotation (key value : string) (statefulset : StatefulSet)
    : Eff StatefulSet :=
  match annotations statefulset with
  | None => raise TypeError
  | Some a =>
      ret {| annotations := Some (<[key := value]> a);
             containers := containers statefulset;
             statefulset_rest := statefulset_rest statefulset |}
  end.

(** [statefulset...containers[i].securityContext.capabilities = caps] on the
    local object. *)
Definition set_capabilities (i : nat) (caps : Capabilities) (statefulset : StatefulSet)
    : Eff StatefulSet :=
  match containers statefulset !! i with
  | None => raise IndexError
  | Some c =>
      match securityContext c with
      | None => raise AttributeError
      | Some sc =>
          ret {| annotations := annotations statefulset;
                 containers :=
                   <[i := {| container_name := container_name c;
                             securityContext :=
                               Some {| capabilities := Some caps;
                                       security_rest := security_rest sc |};
                             container_rest := container_rest c |}]>
                     (containers statefulset);
                 statefulset_rest := statefulset_rest statefulset |}
      end
  end.

Definition net_admin : Capabilities := {| add := Some ["NET_ADMIN"]; drop := None |}.

(** The loop of [patch_statefulset] over the containers that require the
    capability. *)
Fixpoint grant_net_admin (name0 : string) (container_names : list string)
    (statefulset : StatefulSet) : Eff StatefulSet :=
  match container_names with
  | [] => ret statefulset
  | container_name0 :: rest =>
      container_index <- get_container_index_from_name name0 container_name0 ;;
      statefulset' <- set_capabilities container_index net_admin statefulset ;;
      grant_net_admin name0 rest statefulset'
  end.

Definition patch_statefulset (name0 : string)
    (network_annotations0 : list NetworkAnnotation)
    (containers_requiring : list string) : Eff unit :=
  match network_annotations0 with
  | [] => ret tt
  | _ :: _ =>
      statefulset <- client_get_statefulset name0 ;;
      statefulset1 <- set_annotation networks_key
                        (json_dumps env (annotation_dicts network_annotations0))
                        statefulset ;;
      statefulset2 <- grant_net_admin name0 containers_requiring statefulset1 ;;
      client_patch name0 statefulset2
  end.

(** The loop of [statefulset_is_patched] over the containers that require
    the capability; [false] as soon as one lacks it. *)
Fixpoint has_net_admin (name0 : string) (container_names : list string)
    (statefulset : StatefulSet) : Eff bool :=
  match container_names with
  | [] => ret true
  | container_name0 :: rest =>
      container_index <- get_container_index_from_name name0 container_name0 ;;
      match containers statefulset !! container_index with
      | None => raise IndexError
      | Some c =>
          match securityContext c with
          | None => raise AttributeError
          | Some sc =>
              match capabilities sc with
              | None => raise AttributeError
              | Some caps =>
                  match add caps with
                  | None => raise TypeError
                  | Some l =>
                      if negb (bool_decide ("NET_ADMIN" ∈ l)) then ret false
                      else has_net_admin name0 rest statefulset
                  end
              end
          end
      end
  end.

Definition statefulset_is_patched (name0 : string)
    (network_annotations0 : list NetworkAnnotation)
    (containers_requiring : list string) : Eff bool :=
  statefulset <- client_get_statefulset name0 ;;
  match annotations statefulset with
  | None => raise TypeError
  | Some a =>
      match a !! networks_key with
      | None => ret false
      | Some value =>
          match json_loads env value with
          | None => raise JSONDecodeError
          | Some existing =>
              if py_ne existing (annotation_dicts network_annotations0)
              then ret false
              else has_net_admin name0 containers_requiring statefulset
          end
      end
  end.

(** *** class KubernetesMultusCharmLib *)

(** The body of the loop of [_patch] over the attachment definitions. *)
Definition create_if_missing (network_attachment_definition : NetworkAttachmentDefinition)
    : Eff unit :=
  created <- network_attachment_definition_is_created
               (metadata_name network_attachment_definition) ;;
  when (negb created)
    (create_network_attachment_definition network_attachment_definition).

Definition _patch (self : KubernetesMultusCharmLib) : Eff unit :=
  for_each (network_attachment_definitions self) create_if_missing ;;;
  patched <- statefulset_is_patched (app_name self) (network_annotations self)
               (containers_requiring_net_admin_capability self) ;;
  when (negb patched)
    (patch_statefulset (app_name self) (network_annotations self)
       (containers_requiring_net_admin_capability self)).

(** The body of the loop of [_on_remove]. *)
Definition delete_if_created (network_attachment_definition : NetworkAttachmentDefinition)
    : Eff unit :=
  created <- network_attachment_definition_is_created
               (metadata_name network_attachment_definition) ;;
  when created
    (delete_network_attachment_definition
       (metadata_name network_attachment_definition)).

Definition _on_remove (self : KubernetesMultusCharmLib) : Eff unit :=
  for_each (network_attachment_definitions self) delete_if_created.

End Library.

(** ** Notions of the statements *)

Section Notions.
Context (env : Env).

Definition stable {A} (m : M Cluster Call A) : Prop :=
  forall w, final (m w) = w /\ writes (calls (m w)) = [] /\
    forall w', statefulsets w = statefulsets w' ->
      outcome (m w') = outcome (m w) /\ calls (m w') = calls (m w).

Definition present (n : string) (w : Cluster) : Prop :=
  api_fault env res_NetworkAttachmentDefinition n = None /\ is_Some (nads w !! n).

Definition granted (sc : SecurityContext) : SecurityContext :=
  {| capabilities := Some net_admin; security_rest := security_rest sc |}.

Definition touched (cs : list string) (stored : list Container) (i : nat) : Prop :=
  exists n, In n cs /\ index_of_container n stored = Some i.

Definition container_patched (cs : list string) (stored : list Container) (i : nat)
    (c c' : Container) : Prop :=
  container_name c' = container_name c /\
  container_rest c' = container_rest c /\
  (touched cs stored i ->
     exists sc, securityContext c = Some sc /\ securityContext c' = Some (granted sc)) /\
  (~ touched cs stored i -> c' = c).

Definition reachable (n : string) (stored : StatefulSet) (w : Cluster) : Prop :=
  api_fault env res_StatefulSet n = None /\ statefulsets w !! n = Some stored.

End Notions.

(** ** Writes and the reads before them *)

(** A failed lookup of the attachment for a creation, a lookup that found
    it for a deletion, the statefulset read for its patch (the read alone
    does not say that a patch is needed: what [statefulset_is_patched]
    makes of it is stated apart). *)
Definition tells_difference (c seen : Call) : bool :=
  match c with
  | Create obj =>
      match seen with
      | Get res_NetworkAttachmentDefinition n false => String.eqb n (metadata_name obj)
      | _ => false
      end
  | Delete n =>
      match seen with
      | Get res_NetworkAttachmentDefinition n' true => String.eqb n n'
      | _ => false
      end
  | Patch n _ =>
      match seen with
      | Get res_StatefulSet n' true => String.eqb n n'
      | _ => false
      end
  | Get _ _ _ => false
  end.

Definition guarded (t : list Call) : bool :=
  guarded_from is_write (fun _ => false) tells_difference [] t.

(** ** A concrete library instance and cluster *)



(** The objects of the patches among some calls. *)
Definition patches (t : list Call) : list StatefulSet :=
  flat_map (fun c => match c with Patch _ obj => [obj] | _ => [] end) t.

Definition demo_annotations : list NetworkAnnotation :=
  [{| name := "access-net"; interface := "access"; ips := None |};
   {| name := "core-net"; interface := "core"; ips := None |}].

Definition demo_definition (n : string) : NetworkAttachmentDefinition :=
  {| metadata_name := n; spec := JObj [("config", JStr "macvlan")] |}.

Definition demo_env : Env :=
  {| json_dumps := print_json;
     json_loads := read_json [annotation_dicts demo_annotations];
     api_fault := fun _ _ => None |}.

Definition demo_lib : KubernetesMultusCharmLib :=
  {| network_attachment_definitions := [demo_definition "access-net"; demo_definition "core-net"];
     network_annotations := demo_annotations;
     containers_requiring_net_admin_capability := ["bessd"];
     app_name := "upf" |}.

Definition demo_container (n : string) (caps : option Capabilities) : Container :=
  {| container_name := n;
     securityContext := Some {| capabilities := caps; security_rest := JObj [("privileged", JBool false)] |};
     container_rest := JObj [("image", JStr n)] |}.

Definition time_capabilities : Capabilities :=
  {| add := Some ["SYS_TIME"]; drop := Some ["ALL"] |}.

Definition demo_statefulset : StatefulSet :=
  {| annotations := Some {[ "juju.is/version" := "3.1" ]};
     containers := [demo_container "charm" None;
                    demo_container "bessd" (Some time_capabilities);
                    demo_container "pfcp-agent" None];
     statefulset_rest := JObj [("serviceName", JStr "upf-endpoints")] |}.

(** A cluster with the workload and no attachment. *)
Definition demo_cluster : Cluster :=
  {| nads := ∅; statefulsets := {[ "upf" := demo_statefulset ]} |}.

Definition patched_cluster : Cluster := final (_patch demo_env demo_lib demo_cluster).

(** The object of the patch that [_patch] issues on it. *)
Definition demo_patch : StatefulSet :=
  hd demo_statefulset (patches (calls (_patch demo_env demo_lib demo_cluster))).

(** ** More notions of the statements *)

(** What [_patch] may do to a cluster: the attachments that exist stay as
    they are, an attachment that appears is a desired one under its own
    name, and no statefulset but the application's changes. *)
Definition grows (self : KubernetesMultusCharmLib) (w w' : Cluster) : Prop :=
  (forall n o, nads w !! n = Some o -> nads w' !! n = Some o) /\
  (forall n o, nads w' !! n = Some o ->
     nads w !! n = Some o \/
     (In o (network_attachment_definitions self) /\ metadata_name o = n)) /\
  (forall n, n <> app_name self -> statefulsets w' !! n = statefulsets w !! n).

(** A cluster in which the attachments of the library exist already, the
    first with another document. *)
Definition other_definition : NetworkAttachmentDefinition :=
  {| metadata_name := "access-net"; spec := JObj [("config", JStr "bridge")] |}.

Definition stocked_cluster : Cluster :=
  {| nads := {[ "access-net" := other_definition;
                "core-net" := demo_definition "core-net" ]};
     statefulsets := {[ "upf" := demo_statefulset ]} |}.

(** A statefulset that carries the annotation already, with a container
    whose security context names no capabilities. *)
Definition annotated_statefulset : StatefulSet :=
  {| annotations :=
       Some {[ networks_key := print_json (annotation_dicts demo_annotations) ]};
     containers := [demo_container "bessd" None];
     statefulset_rest := JNull |}.

Definition annotated_cluster : Cluster :=
  {| nads := ∅; statefulsets := {[ "upf" := annotated_statefulset ]} |}.

(** A library instance with no attachment of its own. *)
Definition bare_lib : KubernetesMultusCharmLib :=
  {| network_attachment_definitions := [];
     network_annotations := demo_annotations;
     containers_requiring_net_admin_capability := ["bessd"];
     app_name := "upf" |}.

End Multus.

(** * charm.py *)

Module Charm.

Local Open Scope effect_scope.

(** ** Constants *)

Definition BESSD_CONTAINER_CONFIG_PATH : string := "/etc/bess/conf".
Definition PFCP_AGENT_CONTAINER_CONFIG_PATH : string := "/tmp/conf".
Definition POD_SHARE_PATH : string := "/pod-share".
Definition ACCESS_INTERFACE_NAME : string := "access".
Definition CORE_INTERFACE_NAME : string := "core".
Definition CONFIG_FILE_NAME : string := "upf.json".
Definition BESSCTL_CONFIGURE_EXECUTED_FILE_NAME : string := "bessctl_configure_executed".
Definition BESSD_PORT : N := 10514.
Definition REQUIRED_CPU_EXTENSIONS : list string := ["avx2"; "rdrand"].
Definition REQUIRED_CPU_EXTENSIONS_HUGEPAGES : list string := ["pdpe1gb"].

Definition config_file_path : string :=
  BESSD_CONTAINER_CONFIG_PATH ++ "/" ++ CONFIG_FILE_NAME.
Definition marker_path : string := "/" ++ BESSCTL_CONFIGURE_EXECUTED_FILE_NAME.

(** ** Data model *)

(** [charm_config.py] is not among the sources.  The charm tells
    [UpfMode.dpdk] from every other mode; the specification calls that other
    mode normal. *)
Inductive UpfMode : Type :=
| normal
| dpdk.

(** The fields of [CharmConfig] read by the functions below; addresses are
    kept as the strings [str] gives. *)
Record CharmConfig : Type := {
  upf_mode : UpfMode;
  dnn : string;
  enable_hw_checksum : bool;
  gnb_subnet : string;
  access_ip : string;
  core_ip : string;
  access_gateway_ip : string;
  core_gateway_ip : string;
}.

(** What [CharmConfig.from_charm] gives: a configuration, or
    [CharmConfigInvalidError] with its message. *)
Inductive ConfigLoad : Type :=
| config_valid (config : CharmConfig)
| config_invalid (msg : string).

(** The keyword arguments [render_bessd_config_file] hands to the template. *)
Record TemplateArgs : Type := {
  arg_upf_hostname : string;
  arg_mode : UpfMode;
  arg_access_interface_name : string;
  arg_core_interface_name : string;
  arg_core_ip_address : string;
  arg_dnn : string;
  arg_pod_share_path : string;
  arg_hwcksum : string;
}.

(** A Pebble service, a check and a layer. *)
Record Service : Type := {
  override : string;
  startup : string;
  command : string;
  environment : gmap string string;
}.

Record Check : Type := {
  check_override : string;
  level : string;
  tcp_port : N;
}.

Record Layer : Type := {
  summary : string;
  description : string;
  services : gmap string Service;
  checks : gmap string Check;
}.

#[global] Instance Service_eq_dec : EqDecision Service.
Proof. solve_decision. Defined.

(** A workload container as Pebble shows it: the files and directories, the
    services of the plan, which services run, and (for bessd) the routes and
    the firewall rules of its network namespace. *)
Record Container : Type := {
  can_connect : bool;
  files : gmap string string;
  directories : gset string;
  plan_services : gmap string Service;
  running : gmap string bool;
  routes : gset (list string);
  iptables : list (list string);
}.

Inductive ContainerName : Type :=
| bessd_container
| pfcp_agent_container.

Inductive Status : Type :=
| ActiveStatus
| BlockedStatus (message : string)
| WaitingStatus (message : string)
| MaintenanceStatus (message : string)
| UnknownStatus.

(** The observed world of one hook execution.  [lscpu] is what the command
    of that name prints, taken to be the same each time it is run;
    [nodes_allocatable] holds, for each node of the cluster, its
    [status.allocatable], [None] for a node that has no status or no
    allocatable resources. *)
Record World : Type := {
  bessd : Container;
  pfcp_agent : Container;
  clock : nat;
  unit_status : Status;
  from_charm : ConfigLoad;
  is_leader : bool;
  lscpu : string;
  nodes_allocatable : list (option (gmap string string));
  multus_is_ready : bool;
}.

(** Calls against the workload containers and the cluster; a call that
    reads is recorded with its answer ([None] for a listing of the nodes
    that failed). *)
Inductive Call : Type :=
| CanConnect (c : ContainerName) (answer : bool)
| GetService (c : ContainerName) (service_name : string) (is_running : option bool)
| Exists (c : ContainerName) (path : string) (answer : bool)
| Pull (c : ContainerName) (path : string) (content : option string)
| Push (c : ContainerName) (path : string) (source : string)
| Exec (argv : list string) (succeeded : bool)
| GetPlan (c : ContainerName) (plan : gmap string Service)
| AddLayer (c : ContainerName) (label : string) (layer : Layer)
| Restart (c : ContainerName) (service_name : string)
| DeletePod (pod_name : string)
| ListNodes (allocatable : option (list (option (gmap string string)))).

(** A command that only probes: [iptables-legacy --check ...]. *)
Definition is_probe (argv : list string) : bool :=
  match argv with
  | _ :: flag :: _ => String.eqb flag "--check"
  | _ => false
  end.

Definition is_write (c : Call) : bool :=
  match c with
  | CanConnect _ _ | GetService _ _ _ | Exists _ _ _ | Pull _ _ _ | GetPlan _ _ => false
  | ListNodes _ => false
  | Exec argv _ => negb (is_probe argv)
  | Push _ _ _ | AddLayer _ _ _ | Restart _ _ | DeletePod _ => true
  end.

Definition writes (cs : list Call) : list Call := List.filter is_write cs.

(** What the file takes from its surroundings: the [json] module, the
    template [src/templates/upf.json.j2] (not among the sources), the names
    Juju gives, how commands in the workload fail and how long they
    take (by command line and starting time), and the exception with which
    the cluster API fails to list the nodes, if it does. *)
Record Env : Type := {
  json_loads : string -> option JSON;
  template_render : TemplateArgs -> string;
  app_name : string;
  model_name : string;
  unit_name : string;
  exec_fault : list string -> nat -> bool;
  exec_duration : list string -> nat -> nat;
  list_fault : option Exception;
}.

(** ** World updates *)

Definition container_of (c : ContainerName) (w : World) : Container :=
  match c with
  | bessd_container => bessd w
  | pfcp_agent_container => pfcp_agent w
  end.

Definition set_container (c : ContainerName) (k : Container) (w : World) : World :=
  {| bessd := match c with bessd_container => k | _ => bessd w end;
     pfcp_agent := match c with pfcp_agent_container => k | _ => pfcp_agent w end;
     clock := clock w;
     unit_status := unit_status w;
     from_charm := from_charm w;
     is_leader := is_leader w;
     lscpu := lscpu w;
     nodes_allocatable := nodes_allocatable w;
     multus_is_ready := multus_is_ready w |}.

Definition advance (n : nat) (w : World) : World :=
  {| bessd := bessd w;
     pfcp_agent := pfcp_agent w;
     clock := clock w + n;
     unit_status := unit_status w;
     from_charm := from_charm w;
     is_leader := is_leader w;
     lscpu := lscpu w;
     nodes_allocatable := nodes_allocatable w;
     multus_is_ready := multus_is_ready w |}.

Definition with_status (s : Status) (w : World) : World :=
  {| bessd := bessd w;
     pfcp_agent := pfcp_agent w;
     clock := clock w;
     unit_status := s;
     from_charm := from_charm w;
     is_leader := is_leader w;
     lscpu := lscpu w;
     nodes_allocatable := nodes_allocatable w;
     multus_is_ready := multus_is_ready w |}.

Definition with_files (f : gmap string string) (k : Container) : Container :=
  {| can_connect := can_connect k;
     files := f;
     directories := directories k;
     plan_services := plan_services k;
     running := running k;
     routes := routes k;
     iptables := iptables k |}.

Definition with_plan_services (p : gmap string Service) (k : Container) : Container :=
  {| can_connect := can_connect k;
     files := files k;
     directories := directories k;
     plan_services := p;
     running := running k;
     routes := routes k;
     iptables := iptables k |}.

Definition with_routes (r : gset (list string)) (k : Container) : Container :=
  {| can_connect := can_connect k;
     files := files k;
     directories := directories k;
     plan_services := plan_services k;
     running := running k;
     routes := r;
     iptables := iptables k |}.

Definition with_iptables (t : list (list string)) (k : Container) : Container :=
  {| can_connect := can_connect k;
     files := files k;
     directories := directories k;
     plan_services := plan_services k;
     running := running k;
     routes := routes k;
     iptables := t |}.

(** [container.exists(path)]: a file or a directory is there. *)
Definition path_exists (path : string) (k : Container) : bool :=
  bool_decide (is_Some (files k !! path)) || bool_decide (path ∈ directories k).

(** ** Commands run inside the bessd container *)

Fixpoint strip_prefix (prefix argv : list string) : option (list string) :=
  match prefix, argv with
  | [], rest => Some rest
  | p :: ps, a :: rest => if String.eqb p a then strip_prefix ps rest else None
  | _ :: _, [] => None
  end.

(** What a command that is not cut short does to the container, [None] when
    it exits with a failure: [ip route replace] installs the route it is
    given ([routes] collects the routes installed; the route of the same
    destination and metric that the command replaces is not taken out),
    [iptables-legacy --check] succeeds when the rule is present,
    [iptables-legacy -I] inserts the rule at the head; any other command
    leaves the modelled state alone. *)
Definition command_effect (argv : list string) (k : Container) : option Container :=
  match strip_prefix ["ip"; "route"; "replace"] argv with
  | Some route => Some (with_routes ({[route]} ∪ routes k) k)
  | None =>
      match strip_prefix ["iptables-legacy"; "--check"] argv with
      | Some rule => if bool_decide (rule ∈ iptables k) then Some k else None
      | None =>
          match strip_prefix ["iptables-legacy"; "-I"] argv with
          | Some rule => Some (with_iptables (rule :: iptables k) k)
          | None => Some k
          end
      end
  end.

Section Operator.
Context (env : Env).

Local Abbreviation Eff := (M World Call).

(** ** Pebble, the cluster client and the clock *)

(** The Pebble of a container answers every call made to it here:
    [ops.pebble.ConnectionError] and [ChangeError] are not modelled, and
    [can_connect] is only what [container.can_connect()] answers. *)

Definition container_can_connect (c : ContainerName) : Eff bool :=
  fun w =>
    (Ok (can_connect (container_of c w)), w,
     [CanConnect c (can_connect (container_of c w))]).

(** [container.get_service(name).is_running()]; [ModelError] when the
    service is unknown. *)
Definition container_get_service (c : ContainerName) (service_name : string) : Eff bool :=
  fun w =>
    match running (container_of c w) !! service_name with
    | Some r => (Ok r, w, [GetService c service_name (Some r)])
    | None => (Raise ModelError, w, [GetService c service_name None])
    end.

Definition container_exists (c : ContainerName) (path : string) : Eff bool :=
  fun w => (Ok (path_exists path (container_of c w)), w,
            [Exists c path (path_exists path (container_of c w))]).

(** [container.pull(path).read()] *)
Definition container_pull (c : ContainerName) (path : string) : Eff string :=
  fun w =>
    match files (container_of c w) !! path with
    | Some content => (Ok content, w, [Pull c path (Some content)])
    | None => (Raise PathError, w, [Pull c path None])
    end.

(** [container.push(path, source)]; the directory of [path] is taken to
    exist. *)
Definition container_push (c : ContainerName) (path source : string) : Eff unit :=
  fun w =>
    (Ok tt,
     set_container c (with_files (<[path := source]> (files (container_of c w)))
                        (container_of c w)) w,
     [Push c path source]).

(** [container.get_plan().services] *)
Definition container_get_plan (c : ContainerName) : Eff (gmap string Service) :=
  fun w =>
    (Ok (plan_services (container_of c w)), w,
     [GetPlan c (plan_services (container_of c w))]).

(** [container.add_layer(label, layer, combine=True)]: every service of the
    layer overrides the service of that name in the plan. *)
Definition container_add_layer (c : ContainerName) (label : string) (layer : Layer)
    : Eff unit :=
  fun w =>
    (Ok tt,
     set_container c (with_plan_services (services layer ∪ plan_services (container_of c w))
                        (container_of c w)) w,
     [AddLayer c label layer]).

(** [container.restart(service_name)].  Whether the service runs afterwards
    is for the next liveness query to tell. *)
Definition container_restart (c : ContainerName) (service_name : string) : Eff unit :=
  emit (Restart c service_name).

(** [container.exec(argv).wait_output()] in the bessd container. *)
Definition container_exec (argv : list string) : Eff unit :=
  fun w =>
    let w1 := advance (exec_duration env argv (clock w)) w in
    if exec_fault env argv (clock w) then (Raise ExecError, w1, [Exec argv false])
    else
      match command_effect argv (bessd w1) with
      | Some k => (Ok tt, set_container bessd_container k w1, [Exec argv true])
      | None => (Raise ExecError, w1, [Exec argv false])
      end.

Definition time_time : Eff nat := gets clock.
Definition time_sleep (n : nat) : Eff unit := modify (advance n).

Definition set_unit_status (s : Status) : Eff unit := modify (with_status s).

(** ** class UPFOperatorCharm *)

Definition _bessd_service_name : string := "bessd".
Definition _routectl_service_name : string := "routectl".
Definition _pfcp_agent_service_name : string := "pfcp-agent".

Definition _pod_name : string := replace_last_slash (unit_name env).

Definition delete_pod : Eff unit := emit (DeletePod _pod_name).

Definition _upf_hostname : string :=
  app_name env ++ "-external." ++ model_name env ++ ".svc.cluster.local".

Definition _hugepages_is_enabled (config : CharmConfig) : bool :=
  match upf_mode config with dpdk => true | normal => false end.

Definition _get_network_ip_config (config : CharmConfig) (interface_name : string)
    : option string :=
  if String.eqb interface_name ACCESS_INTERFACE_NAME then Some (access_ip config)
  else if String.eqb interface_name CORE_INTERFACE_NAME then Some (core_ip config)
  else None.

(** The result is only ever formatted into a command line, where [None]
    reads "None". *)
Definition _get_network_gateway_ip_config (config : CharmConfig) (interface_name : string)
    : string :=
  if String.eqb interface_name ACCESS_INTERFACE_NAME then access_gateway_ip config
  else if String.eqb interface_name CORE_INTERFACE_NAME then core_gateway_ip config
  else "None".

Definition _write_bessd_config_file (content : string) : Eff unit :=
  container_push bessd_container config_file_path content.

Definition _bessd_config_file_is_written : Eff bool :=
  container_exists bessd_container config_file_path.

Definition _bessd_config_file_content_matches (content : string) : Eff bool :=
  existing_content <- container_pull bessd_container config_file_path ;;
  if negb (String.eqb existing_content content) then ret false else ret true.

(** The result is [True] when the stored [hwcksum] differs from the
    configured flag. *)
Definition _hwcksum_config_matches_pod_config (config : CharmConfig) : Eff bool :=
  existing_content <-
    try_except
      (text <- container_pull bessd_container config_file_path ;;
       match json_loads env text with
       | Some v => ret v
       | None => raise JSONDecodeError
       end)
      (fun e => match e with PathError => Some (ret (JObj [])) | _ => None end) ;;
  match existing_content with
  | JObj members =>
      ret (py_ne (dict_get "hwcksum" members) (JBool (enable_hw_checksum config)))
  | _ => raise AttributeError
  end.

Definition _exec_command_in_bessd_workload (command0 : string) : Eff unit :=
  container_exec (split command0).

Definition default_route_command (config : CharmConfig) : string :=
  "ip route replace default via "
  ++ _get_network_gateway_ip_config config CORE_INTERFACE_NAME ++ " metric 110".

Definition ran_route_command (config : CharmConfig) : string :=
  "ip route replace " ++ gnb_subnet config ++ " via "
  ++ _get_network_gateway_ip_config config ACCESS_INTERFACE_NAME.

Definition _create_default_route (config : CharmConfig) : Eff unit :=
  _exec_command_in_bessd_workload (default_route_command config).

Definition _create_ran_route (config : CharmConfig) : Eff unit :=
  _exec_command_in_bessd_workload (ran_route_command config).

Definition iptables_check_command : string :=
  "iptables-legacy --check OUTPUT -p icmp --icmp-type port-unreachable -j DROP".

Definition iptables_insert_command : string :=
  "iptables-legacy -I OUTPUT -p icmp --icmp-type port-unreachable -j DROP".

Definition _ip_tables_rule_exists : Eff bool :=
  try_except
    (_exec_command_in_bessd_workload iptables_check_command ;;; ret true)
    (fun e => match e with ExecError => Some (ret false) | _ => None end).

Definition _create_ip_tables_rule : Eff unit :=
  _exec_command_in_bessd_workload iptables_insert_command.

Definition _bessd_environment_variables : gmap string string :=
  {[ "CONF_FILE" := config_file_path; "PYTHONPATH" := "/opt/bess" ]}.

Definition _routectl_environment_variables : gmap string string :=
  {[ "PYTHONPATH" := "/opt/bess"; "PYTHONUNBUFFERED" := "1" ]}.

Definition _generate_bessd_startup_command (config : CharmConfig) : string :=
  let hugepages_cmd := if negb (_hugepages_is_enabled config) then "-m 0" else "" in
  "/bin/bessd -f -grpc-url=0.0.0.0:" ++ pretty BESSD_PORT ++ " " ++ hugepages_cmd.

Definition _bessd_pebble_layer (config : CharmConfig) : Layer :=
  {| summary := "bessd layer";
     description := "pebble config layer for bessd";
     services :=
       {[ _routectl_service_name :=
            {| override := "replace";
               startup := "enabled";
               command := "/opt/bess/bessctl/conf/route_control.py -i "
                          ++ ACCESS_INTERFACE_NAME ++ " " ++ CORE_INTERFACE_NAME;
               environment := _routectl_environment_variables |};
          _bessd_service_name :=
            {| override := "replace";
               startup := "enabled";
               command := _generate_bessd_startup_command config;
               environment := _bessd_environment_variables |} ]};
     checks :=
       {[ "online" := {| check_override := "replace";
                         level := "ready";
                         tcp_port := BESSD_PORT |} ]} |}.

Definition _pfcp_agent_pebble_layer : Layer :=
  {| summary := "pfcp agent layer";
     description := "pebble config layer for pfcp agent";
     services :=
       {[ _pfcp_agent_service_name :=
            {| override := "replace";
               startup := "enabled";
               command := "pfcpiface -config " ++ PFCP_AGENT_CONTAINER_CONFIG_PATH
                          ++ "/" ++ CONFIG_FILE_NAME;
               environment := ∅ |} ]};
     checks := ∅ |}.

(** [render_bessd_config_file]: [hwcksum] is [str(enable_hw_checksum).lower()]. *)
Definition render_bessd_config_file (upf_hostname : string) (mode : UpfMode)
    (access_interface_name core_interface_name core_ip_address dnn0 pod_share_path : string)
    (enable_hw_checksum0 : bool) : string :=
  template_render env
    {| arg_upf_hostname := upf_hostname;
       arg_mode := mode;
       arg_access_interface_name := access_interface_name;
       arg_core_interface_name := core_interface_name;
       arg_core_ip_address := core_ip_address;
       arg_dnn := dnn0;
       arg_pod_share_path := pod_share_path;
       arg_hwcksum := if enable_hw_checksum0 then "true" else "false" |}.

(** The document [_configure_bessd_workload] renders for a configuration. *)
Definition rendered_config (config : CharmConfig) : string :=
  let core_ip_address := _get_network_ip_config config CORE_INTERFACE_NAME in
  render_bessd_config_file _upf_hostname (upf_mode config)
    ACCESS_INTERFACE_NAME CORE_INTERFACE_NAME
    (match core_ip_address with
     | Some a => if String.eqb a "" then "" else before_slash a
     | None => ""
     end)
    (dnn config) POD_SHARE_PATH (enable_hw_checksum config).

(** *** The bootstrap runner *)

Definition _is_bessctl_executed : Eff bool :=
  container_exists bessd_container marker_path.

Definition _create_bessctl_executed_validation_file (content : string) : Eff unit :=
  container_push bessd_container marker_path content.

Definition bessctl_command : string :=
  "/opt/bess/bessctl/bessctl run /opt/bess/bessctl/conf/up4".

Definition timeout : nat := 300.

(** The body of the [try] of [_run_bess_configuration]. *)
Definition configure_bess_once : Eff unit :=
  executed <- _is_bessctl_executed ;;
  if negb executed then
    _exec_command_in_bessd_workload bessctl_command ;;;
    _create_bessctl_executed_validation_file "Service `bessd` configured"
  else ret tt.

Definition timed_out : Exception :=
  TimeoutError "Timed out trying to run configuration for bess".

(** The [while] loop of [_run_bess_configuration]; [fuel] bounds the number
    of times its condition is evaluated. *)
Fixpoint bess_configuration_loop (fuel : nat) (initial_time : nat) : Eff unit :=
  match fuel with
  | 0 => fun w => (OutOfFuel, w, [])
  | S fuel' =>
      now <- time_time ;;
      if Nat.leb (now - initial_time) timeout then
        try_except configure_bess_once
          (fun e =>
             match e with
             | ExecError =>
                 Some (time_sleep 2 ;;; bess_configuration_loop fuel' initial_time)
             | _ => None
             end)
      else raise timed_out
  end.

(** Every failed attempt is followed by a sleep of 2, so the condition is
    evaluated at most [timeout / 2 + 2] times. *)
Definition loop_fuel : nat := timeout / 2 + 2.

Definition _run_bess_configuration : Eff unit :=
  initial_time <- time_time ;;
  bess_configuration_loop loop_fuel initial_time.

(** *** The configuration reconciler *)

(** Lines 569-575 of [_configure_bessd_workload]: the configuration file.
    The result is the pair [(restart, recreate_pod)]. *)
Definition reconcile_config_file (config : CharmConfig) (content : string)
    : Eff (bool * bool) :=
  written <- _bessd_config_file_is_written ;;
  differs <- (if negb written then ret true
              else matches <- _bessd_config_file_content_matches content ;;
                   ret (negb matches)) ;;
  if differs then
    recreate_pod <- _hwcksum_config_matches_pod_config config ;;
    _write_bessd_config_file content ;;;
    ret (true, recreate_pod)
  else ret (false, false).

(** Lines 578-579: the firewall rule. *)
Definition reconcile_ip_tables_rule : Eff unit :=
  rule_exists <- _ip_tables_rule_exists ;;
  when (negb rule_exists) _create_ip_tables_rule.

(** Lines 580-584: the Pebble layer.  The result is the new [restart]. *)
Definition reconcile_pebble_layer (config : CharmConfig) (restart : bool) : Eff bool :=
  plan <- container_get_plan bessd_container ;;
  let layer := _bessd_pebble_layer config in
  if bool_decide (plan ≠ services layer) then
    container_add_layer bessd_container "bessd" (_bessd_pebble_layer config) ;;;
    ret true
  else ret restart.

(** Lines 556-584: everything that decides [restart] and [recreate_pod]. *)
Definition reconcile_bessd_state (config : CharmConfig) : Eff (bool * bool) :=
  let content := rendered_config config in
  flags <- reconcile_config_file config content ;;
  _create_default_route config ;;;
  _create_ran_route config ;;;
  reconcile_ip_tables_rule ;;;
  restart <- reconcile_pebble_layer config (fst flags) ;;
  ret (restart, snd flags).

(** Lines 585-592: replace the pod, or else restart the services. *)
Definition apply_restart_or_recreate (flags : bool * bool) : Eff unit :=
  let '(restart, recreate_pod) := flags in
  if recreate_pod then delete_pod
  else if restart then
    container_restart bessd_container _routectl_service_name ;;;
    container_restart bessd_container _bessd_service_name
  else ret tt.

Definition _configure_bessd_workload (config : CharmConfig) : Eff unit :=
  flags <- reconcile_bessd_state config ;;
  apply_restart_or_recreate flags ;;;
  _run_bess_configuration.

Definition _configure_pfcp_agent_workload : Eff unit :=
  plan <- container_get_plan pfcp_agent_container ;;
  let layer := _pfcp_agent_pebble_layer in
  if bool_decide (plan ≠ services layer) then
    container_add_layer pfcp_agent_container "pfcp" _pfcp_agent_pebble_layer ;;;
    container_restart pfcp_agent_container _pfcp_agent_service_name
  else ret tt.

(** *** The capability gate *)

(** [_get_cpu_extensions], on the output of [lscpu]. *)
Definition _get_cpu_extensions (lscpu_output : string) : list string :=
  fold_left
    (fun cpu_flags cpu_info_item =>
       if contains "Flags:" cpu_info_item then tail (split cpu_info_item)
       else cpu_flags)
    (lines lscpu_output) [].

Definition has_extensions (required : list string) (w : World) : bool :=
  forallb (fun required_extension =>
             bool_decide (required_extension ∈ _get_cpu_extensions (lscpu w)))
          required.

Definition _cpu_is_compatible_for_hugepages (w : World) : bool :=
  has_extensions REQUIRED_CPU_EXTENSIONS_HUGEPAGES w.

(** [client.list(Node)] gives a generator: nothing is asked of the cluster
    before it is iterated, and the object is true whatever it is going to
    yield. *)
Definition generator_truth : bool := true.

(** Iterating over [client.list(Node)]. *)
Definition client_list_nodes : Eff (list (option (gmap string string))) :=
  fun w =>
    match list_fault env with
    | Some e => (Raise e, w, [ListNodes None])
    | None => (Ok (nodes_allocatable w), w, [ListNodes (Some (nodes_allocatable w))])
    end.

(** [node.status.allocatable.get("hugepages-1Gi", "0") >= "2Gi"]: the
    comparison is the one of strings. *)
Definition node_has_hugepages (node : option (gmap string string)) : Eff bool :=
  match node with
  | Some allocatable =>
      ret (String.leb "2Gi" (default "0" (allocatable !! "hugepages-1Gi")))
  | None => raise AttributeError
  end.

(** [[f(x) for x in xs]] *)
Fixpoint list_comprehension {A B} (f : A -> Eff B) (xs : list A) : Eff (list B) :=
  match xs with
  | [] => ret []
  | x :: rest =>
      y <- f x ;;
      ys <- list_comprehension f rest ;;
      ret (y :: ys)
  end.

(** [_hugepages_are_available]: [if not nodes] tests the generator, so that
    branch is never taken, and [all] of no answer at all is [True]. *)
Definition _hugepages_are_available : Eff bool :=
  if negb generator_truth then ret false
  else
    nodes <- client_list_nodes ;;
    answers <- list_comprehension node_has_hugepages nodes ;;
    ret (forallb id answers).

Definition cpu_capabilities_message (required : list string) : string :=
  "Please use a CPU that has the following capabilities: " ++ join ", " required.

Definition _is_cpu_compatible (config : CharmConfig) : Eff bool :=
  w <- gets id ;;
  if negb (has_extensions REQUIRED_CPU_EXTENSIONS w) then
    set_unit_status (BlockedStatus (cpu_capabilities_message REQUIRED_CPU_EXTENSIONS)) ;;;
    ret false
  else if _hugepages_is_enabled config then
    if negb (_cpu_is_compatible_for_hugepages w) then
      set_unit_status
        (BlockedStatus (cpu_capabilities_message
                          (REQUIRED_CPU_EXTENSIONS ++ REQUIRED_CPU_EXTENSIONS_HUGEPAGES))) ;;;
      ret false
    else
      available <- _hugepages_are_available ;;
      if negb available then
        set_unit_status (BlockedStatus "Not enough HugePages available") ;;;
        ret false
      else ret true
  else ret true.

(** *** The status aggregator *)

Definition service_is_running_on_container (c : ContainerName) (service_name : string)
    : Eff bool :=
  connected <- container_can_connect c ;;
  if negb connected then ret false
  else
    try_except
      (container_get_service c service_name)
      (fun e => match e with ModelError => Some (ret false) | _ => None end).

Definition _set_unit_status : Eff unit :=
  bessd_runs <- service_is_running_on_container bessd_container _bessd_service_name ;;
  if negb bessd_runs then
    set_unit_status (WaitingStatus "Waiting for bessd service to run")
  else
    routectl_runs <-
      service_is_running_on_container bessd_container _routectl_service_name ;;
    if negb routectl_runs then
      set_unit_status (WaitingStatus "Waiting for routectl service to run")
    else
      pfcp_runs <-
        service_is_running_on_container pfcp_agent_container _pfcp_agent_service_name ;;
      if negb pfcp_runs then
        set_unit_status (WaitingStatus "Waiting for pfcp agent service to run")
      else set_unit_status ActiveStatus.

(** [multus.is_ready()] belongs to a version of the Multus library newer
    than the one among the sources; its answer is read off the world. *)
Definition _on_bessd_pebble_ready : Eff unit :=
  loaded <- gets from_charm ;;
  match loaded with
  | config_invalid msg => set_unit_status (BlockedStatus msg)
  | config_valid config =>
      leader <- gets is_leader ;;
      if negb leader then ret tt
      else
        compatible <- _is_cpu_compatible config ;;
        if negb compatible then ret tt
        else
          ready <- gets multus_is_ready ;;
          if negb ready then
            set_unit_status (WaitingStatus "Waiting for Multus to be ready")
          else
            attached <- container_exists bessd_container BESSD_CONTAINER_CONFIG_PATH ;;
            if negb attached then
              set_unit_status (WaitingStatus "Waiting for storage to be attached")
            else
              _configure_bessd_workload config ;;;
              _set_unit_status
  end.

End Operator.

(** ** Notions of the statements *)

Abbreviation bessctl_argv := (split bessctl_command).

Section Notions.
Context (env : Env).

Definition marker_message : string := "Service `bessd` configured".

Definition after_bootstrap (w : World) : World :=
  set_container bessd_container
    (with_files (<[marker_path := marker_message]> (files (bessd w))) (bessd w))
    (advance (exec_duration env bessctl_argv (clock w)) w).

Definition is_intervention (c : Call) : bool :=
  match c with
  | Restart _ _ | DeletePod _ => true
  | _ => false
  end.

Definition interventions (cs : list Call) : list Call := List.filter is_intervention cs.

Definition installed_route (command0 : string) : list string := drop 3 (split command0).

Definition icmp_rule : list string :=
  ["OUTPUT"; "-p"; "icmp"; "--icmp-type"; "port-unreachable"; "-j"; "DROP"].

Definition commands_succeed (env : Env) (config : CharmConfig) : Prop :=
  forall t,
    exec_fault env (split (default_route_command config)) t = false /\
    exec_fault env (split (ran_route_command config)) t = false /\
    exec_fault env (split iptables_check_command) t = false /\
    exec_fault env (split iptables_insert_command) t = false.

(** The world [w] with the clock at [c] and [k] for its bessd container. *)
Definition at_clock (c : nat) (k : Container) (w : World) : World :=
  {| bessd := k;
     pfcp_agent := pfcp_agent w;
     clock := c;
     unit_status := unit_status w;
     from_charm := from_charm w;
     is_leader := is_leader w;
     lscpu := lscpu w;
     nodes_allocatable := nodes_allocatable w;
     multus_is_ready := multus_is_ready w |}.

Definition with_rule (k : Container) : Container :=
  with_iptables
    (if bool_decide (icmp_rule ∈ iptables k) then iptables k else icmp_rule :: iptables k) k.

Definition with_layer (config : CharmConfig) (k : Container) : Container :=
  with_plan_services
    (if bool_decide (plan_services k ≠ services (_bessd_pebble_layer config))
     then services (_bessd_pebble_layer config) ∪ plan_services k
     else plan_services k) k.

Definition with_both_routes (config : CharmConfig) (k : Container) : Container :=
  with_routes
    ({[installed_route (ran_route_command config)]}
     ∪ ({[installed_route (default_route_command config)]} ∪ routes k)) k.

(** The bessd container once routes, firewall rule and layer are settled. *)
Definition settled (config : CharmConfig) (k : Container) : Container :=
  with_layer config (with_rule (with_both_routes config k)).

(** The calls of lines 576-584 on a container, when no command is cut short. *)
Definition settling_calls (config : CharmConfig) (k : Container) : list Call :=
  [Exec (split (default_route_command config)) true;
   Exec (split (ran_route_command config)) true;
   Exec (split iptables_check_command) (bool_decide (icmp_rule ∈ iptables k))]
  ++ (if bool_decide (icmp_rule ∈ iptables k) then []
      else [Exec (split iptables_insert_command) true])
  ++ GetPlan bessd_container (plan_services k)
  :: (if bool_decide (plan_services k ≠ services (_bessd_pebble_layer config))
      then [AddLayer bessd_container "bessd" (_bessd_pebble_layer config)]
      else []).

(** What [apply_restart_or_recreate] issues. *)
Definition action_calls (env : Env) (flags : bool * bool) : list Call :=
  if snd flags then [DeletePod (_pod_name env)]
  else if fst flags then
    [Restart bessd_container _routectl_service_name;
     Restart bessd_container _bessd_service_name]
  else [].

(** The bessd container once the configuration file is written. *)
Definition with_config (content : string) (k : Container) : Container :=
  with_files (<[config_file_path := content]> (files k)) k.

(** Every listed node offers at least ["2Gi"] of huge pages, as strings
    compare; it holds when no node is listed. *)
Definition hugepages_enough (w : World) : bool :=
  forallb (fun node =>
             match node with
             | Some allocatable =>
                 String.leb "2Gi" (default "0" (allocatable !! "hugepages-1Gi"))
             | None => false
             end)
          (nodes_allocatable w).

(** The capability gate gets as far as listing the nodes. *)
Definition asks_nodes (config : CharmConfig) (w : World) : bool :=
  has_extensions REQUIRED_CPU_EXTENSIONS w && _hugepages_is_enabled config
  && _cpu_is_compatible_for_hugepages w.

(** Listing the nodes answers, and every node shows what it can allocate. *)
Definition nodes_answer (env : Env) (w : World) : Prop :=
  list_fault env = None /\ Forall is_Some (nodes_allocatable w).

(** The calls of the capability gate when the nodes answer. *)
Definition gate_calls (config : CharmConfig) (w : World) : list Call :=
  if asks_nodes config w then [ListNodes (Some (nodes_allocatable w))] else [].

(** The capability gate as a verdict, when the nodes answer: the reason
    it blocks for, if any. *)
Definition capability_reason (config : CharmConfig) (w : World) : option string :=
  if negb (has_extensions REQUIRED_CPU_EXTENSIONS w) then
    Some (cpu_capabilities_message REQUIRED_CPU_EXTENSIONS)
  else if _hugepages_is_enabled config then
    if negb (_cpu_is_compatible_for_hugepages w) then
      Some (cpu_capabilities_message
              (REQUIRED_CPU_EXTENSIONS ++ REQUIRED_CPU_EXTENSIONS_HUGEPAGES))
    else if negb (hugepages_enough w) then Some "Not enough HugePages available"
    else None
  else None.

(** Whether a service of a container reports running. *)
Definition service_running (c : ContainerName) (service_name : string) (w : World) : bool :=
  can_connect (container_of c w)
  && default false (running (container_of c w) !! service_name).




Definition gates_pass (config : CharmConfig) (w : World) : Prop :=
  capability_reason config w = None /\
  multus_is_ready w = true /\
  path_exists BESSD_CONTAINER_CONFIG_PATH (bessd w) = true.

(** The calls of one liveness question. *)
Definition liveness_calls (c : ContainerName) (service_name : string) (w : World) : list Call :=
  CanConnect c (can_connect (container_of c w))
  :: (if can_connect (container_of c w)
      then [GetService c service_name (running (container_of c w) !! service_name)]
      else []).

(** The process part of the verdict. *)
Definition liveness_verdict (w : World) : Status :=
  if negb (service_running bessd_container "bessd" w) then
    WaitingStatus "Waiting for bessd service to run"
  else if negb (service_running bessd_container "routectl" w) then
    WaitingStatus "Waiting for routectl service to run"
  else if negb (service_running pfcp_agent_container "pfcp-agent" w) then
    WaitingStatus "Waiting for pfcp agent service to run"
  else ActiveStatus.

Definition aggregator_calls (w : World) : list Call :=
  liveness_calls bessd_container "bessd" w
  ++ (if service_running bessd_container "bessd" w then
        liveness_calls bessd_container "routectl" w
        ++ (if service_running bessd_container "routectl" w then
              liveness_calls pfcp_agent_container "pfcp-agent" w
            else [])
      else []).

End Notions.

(** ** Writes and the reads before them *)

Definition same_container (a b : ContainerName) : bool :=
  match a, b with
  | bessd_container, bessd_container => true
  | pfcp_agent_container, pfcp_agent_container => true
  | _, _ => false
  end.

(** [ip route replace ...] *)
Definition is_route_command (argv : list string) : bool :=
  match argv with
  | a :: b :: c :: _ => String.eqb a "ip" && String.eqb b "route" && String.eqb c "replace"
  | _ => false
  end.

Definition routes_let_through (routes_exempt : bool) (c : Call) : bool :=
  routes_exempt && match c with Exec argv _ => is_route_command argv | _ => false end.

(** A path that is missing or holds something else for a push, a plan
    other than the layer for a layer, a failed probe of the same rule for
    a firewall insertion, a missing marker for the bootstrap command, a
    write to the container for a restart, a write of the configuration
    file for the deletion of the pod. *)
Definition tells_difference (c seen : Call) : bool :=
  match c with
  | Push k path source =>
      match seen with
      | Exists k' path' false => same_container k k' && String.eqb path path'
      | Pull k' path' stored =>
          same_container k k' && String.eqb path path'
          && negb (bool_decide (stored = Some source))
      | _ => false
      end
  | AddLayer k _ layer =>
      match seen with
      | GetPlan k' plan => same_container k k' && bool_decide (plan ≠ services layer)
      | _ => false
      end
  | Exec argv _ =>
      match seen with
      | Exec probe false => is_probe probe && bool_decide (drop 2 argv = drop 2 probe)
      | Exists bessd_container path false =>
          bool_decide (argv = split bessctl_command) && String.eqb path marker_path
      | _ => false
      end
  | Restart k _ =>
      match seen with
      | Push k' _ _ | AddLayer k' _ _ => same_container k k'
      | _ => false
      end
  | DeletePod _ =>
      match seen with
      | Push bessd_container path _ => String.eqb path config_file_path
      | _ => false
      end
  | _ => false
  end.

(** The calls of a pass are guarded when each is in order after those
    before it; with [routes_exempt] the route commands are let through. *)
Definition guarded (routes_exempt : bool) (t : list Call) : bool :=
  guarded_from is_write (routes_let_through routes_exempt) tells_difference [] t.

(** ** Concrete surroundings and worlds *)

Definition demo_config : CharmConfig :=
  {| upf_mode := normal;
     dnn := "internet";
     enable_hw_checksum := false;
     gnb_subnet := "192.168.251.0/24";
     access_ip := "192.168.252.3/24";
     core_ip := "192.168.250.3/24";
     access_gateway_ip := "192.168.252.1";
     core_gateway_ip := "192.168.250.1" |}.

Definition with_checksum (b : bool) (config : CharmConfig) : CharmConfig :=
  {| upf_mode := upf_mode config;
     dnn := dnn config;
     enable_hw_checksum := b;
     gnb_subnet := gnb_subnet config;
     access_ip := access_ip config;
     core_ip := core_ip config;
     access_gateway_ip := access_gateway_ip config;
     core_gateway_ip := core_gateway_ip config |}.

Definition with_dnn (d : string) (config : CharmConfig) : CharmConfig :=
  {| upf_mode := upf_mode config;
     dnn := d;
     enable_hw_checksum := enable_hw_checksum config;
     gnb_subnet := gnb_subnet config;
     access_ip := access_ip config;
     core_ip := core_ip config;
     access_gateway_ip := access_gateway_ip config;
     core_gateway_ip := core_gateway_ip config |}.

(** The document of the template, as far as the functions read it. *)
Definition demo_document (a : TemplateArgs) : JSON :=
  JObj [("mode", JStr (match arg_mode a with normal => "af_packet" | dpdk => "dpdk" end));
        ("hostname", JStr (arg_upf_hostname a));
        ("access", JObj [("ifname", JStr (arg_access_interface_name a))]);
        ("core", JObj [("ifname", JStr (arg_core_interface_name a));
                       ("ip", JStr (arg_core_ip_address a))]);
        ("dnn", JStr (arg_dnn a));
        ("share", JStr (arg_pod_share_path a));
        ("hwcksum", JBool (String.eqb (arg_hwcksum a) "true"))].

Definition demo_args (config : CharmConfig) : TemplateArgs :=
  {| arg_upf_hostname := "upf-external.core.svc.cluster.local";
     arg_mode := upf_mode config;
     arg_access_interface_name := ACCESS_INTERFACE_NAME;
     arg_core_interface_name := CORE_INTERFACE_NAME;
     arg_core_ip_address := before_slash (core_ip config);
     arg_dnn := dnn config;
     arg_pod_share_path := POD_SHARE_PATH;
     arg_hwcksum := if enable_hw_checksum config then "true" else "false" |}.

(** The configurations of the examples. *)
Definition demo_configs : list CharmConfig :=
  [demo_config; with_checksum true demo_config; with_dnn "ims" demo_config].

(** Surroundings in which every command runs through, at once. *)
Definition demo_env : Env :=
  {| json_loads := read_json (map (fun c => demo_document (demo_args c)) demo_configs);
     template_render := fun a => print_json (demo_document a);
     app_name := "upf";
     model_name := "core";
     unit_name := "upf/0";
     exec_fault := fun _ _ => false;
     exec_duration := fun _ _ => 0;
     list_fault := None |}.

(** Surroundings in which every command is cut short, after a second. *)
Definition failing_env : Env :=
  {| json_loads := json_loads demo_env;
     template_render := template_render demo_env;
     app_name := "upf";
     model_name := "core";
     unit_name := "upf/0";
     exec_fault := fun _ _ => true;
     exec_duration := fun _ _ => 1;
     list_fault := None |}.

Definition fresh_container : Container :=
  {| can_connect := true;
     files := ∅;
     directories := {[BESSD_CONTAINER_CONFIG_PATH]};
     plan_services := ∅;
     running := {[ "bessd" := true; "routectl" := true; "pfcp-agent" := true ]};
     routes := ∅;
     iptables := [] |}.

(** A unit whose containers hold nothing yet; Pebble reports its services
    as running. *)
Definition fresh_world : World :=
  {| bessd := fresh_container;
     pfcp_agent := fresh_container;
     clock := 0;
     unit_status := MaintenanceStatus "";
     from_charm := config_valid demo_config;
     is_leader := true;
     lscpu := "Architecture: x86_64" ++ String "010" "Flags: fpu avx2 rdrand pdpe1gb";
     nodes_allocatable := [];
     multus_is_ready := true |}.

Definition after_pass (config : CharmConfig) (w : World) : World :=
  final (_configure_bessd_workload demo_env config w).

(** The world one pass leaves. *)
Definition settled_world : World := after_pass demo_config fresh_world.

(** ** The handler of the pfcp agent *)

(** [_on_pfcp_agent_pebble_ready] (lines 538-549), for the configuration
    [__init__] loaded.  The result tells whether the handler deferred its
    event. *)
Definition _on_pfcp_agent_pebble_ready (env : Env) (config : CharmConfig)
    : M World Call bool :=
  leader <- gets is_leader ;;
  if negb leader then ret false
  else
    compatible <- _is_cpu_compatible env config ;;
    if negb compatible then ret false
    else
      bessd_runs <- service_is_running_on_container bessd_container _bessd_service_name ;;
      if negb bessd_runs then
        set_unit_status (WaitingStatus "Waiting for bessd service to run") ;;;
        ret true
      else
        _configure_pfcp_agent_workload ;;;
        _set_unit_status ;;;
        ret false.

(** ** More notions of the statements *)

(** Every service of the plan [p] is a service of the layer [l]. *)
Definition within_layer (p l : gmap string Service) : Prop :=
  forall service_name, is_Some (p !! service_name) -> is_Some (l !! service_name).

(** The configuration with another mode. *)
Definition with_mode (m : UpfMode) (config : CharmConfig) : CharmConfig :=
  {| upf_mode := m;
     dnn := dnn config;
     enable_hw_checksum := enable_hw_checksum config;
     gnb_subnet := gnb_subnet config;
     access_ip := access_ip config;
     core_ip := core_ip config;
     access_gateway_ip := access_gateway_ip config;
     core_gateway_ip := core_gateway_ip config |}.

(** Surroundings in which the firewall probe is cut short, and nothing else. *)
Definition probe_failing_env : Env :=
  {| json_loads := json_loads demo_env;
     template_render := template_render demo_env;
     app_name := "upf";
     model_name := "core";
     unit_name := "upf/0";
     exec_fault := fun argv _ => is_probe argv;
     exec_duration := fun _ _ => 0;
     list_fault := None |}.

(** A pfcp agent container whose plan holds a service of another layer. *)
Definition crowded_world : World :=
  {| bessd := bessd settled_world;
     pfcp_agent :=
       with_plan_services
         {[ "metrics" := {| override := "replace"; startup := "enabled";
                            command := "exporter"; environment := ∅ |} ]}
         (pfcp_agent settled_world);
     clock := clock settled_world;
     unit_status := unit_status settled_world;
     from_charm := from_charm settled_world;
     is_leader := true;
     lscpu := lscpu settled_world;
     nodes_allocatable := nodes_allocatable settled_world;
     multus_is_ready := true |}.




(** A printable character other than the blank. *)
Definition is_graphic (c : ascii) : bool :=
  Nat.ltb 32 (nat_of_ascii c) && Nat.ltb (nat_of_ascii c) 127.

Fixpoint graphic (s : string) : bool :=
  match s with
  | EmptyString => true
  | String c rest => is_graphic c && graphic rest
  end.

(** A word that [str.split] keeps whole: not empty, made of printable
    characters other than the blank. *)
Definition is_token (s : string) : bool := negb (String.eqb s "") && graphic s.

(** ** Passes that are cut short *)

(** A computation that neither restarts a service nor deletes the pod, and
    that ends without the bound of a loop. *)
Definition plain {A} (m : M World Call A) : Prop :=
  forall w, interventions (calls (m w)) = [] /\ outcome (m w) <> OutOfFuel.

(** Surroundings in which a route command started at time 0 is cut short;
    every other command runs through, in a second. *)
Definition flaky_env : Env :=
  {| json_loads := json_loads demo_env;
     template_render := template_render demo_env;
     app_name := "upf";
     model_name := "core";
     unit_name := "upf/0";
     exec_fault := fun argv t => is_route_command argv && Nat.eqb t 0;
     exec_duration := fun _ _ => 1;
     list_fault := None |}.


(** The unit after its bessd container was started anew: the configuration
    file and the plan are those of the settled unit, the marker, the routes
    and the firewall rule are gone, the bessd service does not run, and the
    status is still the one of the last pass. *)
Definition restarted_world : World :=
  {| bessd :=
       {| can_connect := true;
          files := delete marker_path (files (bessd settled_world));
          directories := directories (bessd settled_world);
          plan_services := plan_services (bessd settled_world);
          running := {[ "bessd" := false; "routectl" := true; "pfcp-agent" := true ]};
          routes := ∅;
          iptables := [] |};
     pfcp_agent := pfcp_agent settled_world;
     clock := 0;
     unit_status := ActiveStatus;
     from_charm := config_valid demo_config;
     is_leader := true;
     lscpu := lscpu settled_world;
     nodes_allocatable := [];
     multus_is_ready := true |}.

End Charm.

Abbreviation orderly x :=
  (respects Charm.is_write (Charm.routes_let_through x) Charm.tells_difference).

Abbreviation follows :=
  (respects Multus.is_write (fun _ => false) Multus.tells_difference).

(** * Runs of the effect monad *)

Section RunAlgebra.
Context {W E : Type}.

Lemma run_eta {A} (r : Outcome A * W * list E) : r = (outcome r, final r, calls r).
Proof. destruct r as [[? ?] ?]. reflexivity. Qed.

Lemma bind_Ok {A B} (m : M W E A) (k : A -> M W E B) w a w1 t1 :
  m w = (Ok a, w1, t1) ->
  bind m k w = (outcome (k a w1), final (k a w1), t1 ++ calls (k a w1)).
Proof. intros H. unfold bind. rewrite H. destruct (k a w1) as [[? ?] ?]. reflexivity. Qed.

Lemma bind_Raise {A B} (m : M W E A) (k : A -> M W E B) w e w1 t1 :
  m w = (Raise e, w1, t1) -> bind m k w = (Raise e, w1, t1).
Proof. intros H. unfold bind. rewrite H. reflexivity. Qed.

(** Inversion of a bind that returned. *)
Lemma bind_inv_Ok {A B} (m : M W E A) (k : A -> M W E B) w b w2 t :
  bind m k w = (Ok b, w2, t) ->
  exists a w1 t1 t2, m w = (Ok a, w1, t1) /\ k a w1 = (Ok b, w2, t2) /\ t = t1 ++ t2.
Proof.
  unfold bind. destruct (m w) as [[[a| |] w1] t1]; try discriminate.
  destruct (k a w1) as [[r w2'] t2] eqn:Hk. intros [= -> -> <-].
  exists a, w1, t1, t2. auto.
Qed.
Lemma run_returned {A} (r : Outcome A * W * list E) a :
  outcome r = Ok a -> r = (Ok a, final r, calls r).
Proof. destruct r as [[o w] t]. cbn. intros ->. reflexivity. Qed.

End RunAlgebra.

(** * Calls in order *)

Section OrderFacts.
Context {W E : Type} {is_write exempt : E -> bool} {tells_difference : E -> E -> bool}.

Local Abbreviation in_order := (justified is_write exempt tells_difference).
Local Abbreviation guarded_after := (guarded_from is_write exempt tells_difference).
Local Abbreviation keeps := (respects (W := W) is_write exempt tells_difference).

Lemma justified_by earlier c seen :
  In seen earlier -> tells_difference c seen = true -> in_order earlier c = true.
Proof.
  intros Hin Ht. unfold justified. apply orb_true_iff. right.
  apply existsb_exists. eauto.
Qed.

Lemma justified_read earlier c : is_write c = false -> in_order earlier c = true.
Proof. intros H. unfold justified. rewrite H. reflexivity. Qed.

Lemma justified_exempt earlier c : exempt c = true -> in_order earlier c = true.
Proof. intros H. unfold justified. rewrite H, orb_true_r. reflexivity. Qed.

Lemma justified_mono earlier later c :
  incl earlier later -> in_order earlier c = true -> in_order later c = true.
Proof.
  unfold justified. intros Hincl H.
  apply orb_true_iff in H as [H|H]; [rewrite H; reflexivity|].
  apply orb_true_iff. right.
  apply existsb_exists in H as (s & Hs & Ht). apply existsb_exists. eauto.
Qed.

Lemma guarded_from_mono t : forall earlier later,
  incl earlier later -> guarded_after earlier t = true -> guarded_after later t = true.
Proof.
  induction t as [|c t IH]; intros earlier later Hincl H; [reflexivity|].
  cbn [guarded_from] in *. apply andb_true_iff in H as [Hc Ht].
  apply andb_true_iff. split; [eapply justified_mono; eassumption|].
  apply (IH (c :: earlier)); [|assumption].
  intros y [<-|Hy]; [left; reflexivity | right; auto].
Qed.

Lemma guarded_from_app t1 : forall earlier t2,
  guarded_after earlier (t1 ++ t2)
  = guarded_after earlier t1 && guarded_after (rev t1 ++ earlier) t2.
Proof.
  induction t1 as [|c t1 IH]; intros earlier t2; [reflexivity|].
  cbn [app guarded_from rev]. rewrite IH, <- app_assoc, andb_assoc. reflexivity.
Qed.

Lemma guarded_reads earlier t :
  List.filter is_write t = [] -> guarded_after earlier t = true.
Proof.
  revert earlier. induction t as [|c t IH]; intros earlier H; [reflexivity|].
  cbn [List.filter] in H.
  destruct (is_write c) eqn:Hc; [discriminate|].
  cbn [guarded_from]. rewrite (justified_read _ _ Hc). apply IH, H.
Qed.

Lemma respects_ret {A} earlier (a : A) : keeps earlier (ret a).
Proof. intros w. reflexivity. Qed.

Lemma respects_raise {A} earlier e : keeps earlier (@raise W E A e).
Proof. intros w. reflexivity. Qed.

Lemma respects_bind {A B} earlier (m : M W E A) (k : A -> M W E B) :
  keeps earlier m ->
  (forall a w w1 t, m w = (Ok a, w1, t) -> keeps (rev t ++ earlier) (k a)) ->
  keeps earlier (bind m k).
Proof.
  intros Hm Hk w. specialize (Hm w). unfold bind.
  destruct (m w) as [[[a| |] w1] t] eqn:Hrun; try exact Hm.
  specialize (Hk a w w1 t Hrun w1).
  destruct (k a w1) as [[r w2] t2].
  unfold calls in *. cbn [snd] in *.
  rewrite guarded_from_app, Hm, Hk. reflexivity.
Qed.

Lemma respects_try {A} earlier (m : M W E A) handler :
  keeps earlier m ->
  (forall e w w1 t h, m w = (Raise e, w1, t) -> handler e = Some h ->
     keeps (rev t ++ earlier) h) ->
  keeps earlier (try_except m handler).
Proof.
  intros Hm Hh w. specialize (Hm w). unfold try_except.
  destruct (m w) as [[[a|e|] w1] t] eqn:Hrun; try exact Hm.
  destruct (handler e) as [h|] eqn:He; [|exact Hm].
  specialize (Hh e w w1 t h Hrun He w1).
  destruct (h w1) as [[r w2] t2].
  unfold calls in *. cbn [snd] in *.
  rewrite guarded_from_app, Hm, Hh. reflexivity.
Qed.

Lemma respects_mono {A} earlier later (m : M W E A) :
  incl earlier later -> keeps earlier m -> keeps later m.
Proof. intros Hincl H w. eapply guarded_from_mono; [exact Hincl | apply H]. Qed.

(** A computation of one call. *)
Lemma respects_call {A} earlier (m : M W E A) :
  (forall w, exists c, calls (m w) = [c] /\ in_order earlier c = true) ->
  keeps earlier m.
Proof.
  intros Hm w. destruct (Hm w) as (c & -> & Hc).
  cbn [guarded_from]. rewrite Hc. reflexivity.
Qed.

Lemma respects_silent {A} earlier (m : M W E A) :
  (forall w, calls (m w) = []) -> keeps earlier m.
Proof. intros Hm w. rewrite Hm. reflexivity. Qed.

Lemma respects_reads {A} earlier (m : M W E A) :
  (forall w, List.filter is_write (calls (m w)) = []) -> keeps earlier m.
Proof. intros Hm w. apply guarded_reads, Hm. Qed.

End OrderFacts.

(** * kubernetes_multus.py: properties *)

Module MultusTheory.
Import Multus.

Section ReadOnly.
Context (env : Env).

Lemma writes_app t1 t2 : writes (t1 ++ t2) = writes t1 ++ writes t2.
Proof. unfold writes. induction t1 as [|c t1 IH]; cbn; [reflexivity|]. destruct (is_write c); cbn; rewrite IH; reflexivity. Qed.

Lemma stable_ret {A} (a : A) : stable (ret a).
Proof. intros w. repeat split. Qed.

Lemma stable_raise {A} e : stable (@raise Cluster Call A e).
Proof. intros w. repeat split. Qed.

Lemma stable_bind {A B} (m : M Cluster Call A) (k : A -> M Cluster Call B) :
  stable m -> (forall a, stable (k a)) -> stable (bind m k).
Proof.
  intros Hm Hk w. destruct (Hm w) as (Hf & Hw & Hext).
  assert (Hall : forall w', statefulsets w = statefulsets w' ->
     m w' = (outcome (m w), w', calls (m w))).
  { intros w' E. destruct (Hext w' E) as [Ho Hc]. destruct (Hm w') as (Hf' & _ & _).
    rewrite (run_eta (m w')). congruence. }
  unfold bind.
  destruct (m w) as [[r w1] t1] eqn:Hmw. unfold final, calls, outcome in Hf, Hw, Hall; cbn [fst snd] in Hf, Hw, Hall. subst w1.
  destruct r as [a| |].
  - destruct (Hk a w) as (Hkf & Hkw & Hke).
    destruct (k a w) as [[r2 w2] t2] eqn:Hkw'. unfold final, calls, outcome in Hkf, Hkw, Hke; cbn [fst snd] in Hkf, Hkw, Hke. subst w2.
    unfold final, calls, outcome; cbn [fst snd]. split; [reflexivity|]. split; [rewrite writes_app, Hw, Hkw; reflexivity|].
    intros w' E. rewrite (Hall w' E). destruct (Hke w' E) as [Ho Hc].
    rewrite (run_eta (k a w')). unfold final, calls, outcome in *; cbn [fst snd] in *. rewrite Ho, Hc. split; reflexivity.
  - split; [reflexivity|]. split; [assumption|].
    intros w' E. rewrite (Hall w' E). split; reflexivity.
  - split; [reflexivity|]. split; [assumption|].
    intros w' E. rewrite (Hall w' E). split; reflexivity.
Qed.

Lemma stable_get_statefulset n : stable (client_get_statefulset env n).
Proof.
  intros w. unfold client_get_statefulset.
  destruct (api_fault _ _ _).
  - repeat split.
  - split; [|split].
    + destruct (_ !! _); reflexivity.
    + destruct (_ !! _); reflexivity.
    + intros w' <-. destruct (_ !! _); split; reflexivity.
Qed.

Lemma stable_get_container_index n c : stable (get_container_index_from_name env n c).
Proof.
  unfold get_container_index_from_name. apply stable_bind; [apply stable_get_statefulset|].
  intros s. destruct (index_of_container _ _); [apply stable_ret|apply stable_raise].
Qed.

Lemma stable_has_net_admin n cs s : stable (has_net_admin env n cs s).
Proof.
  induction cs as [|c cs IH]; cbn [has_net_admin]; [apply stable_ret|].
  apply stable_bind; [apply stable_get_container_index|]. intros i.
  destruct (_ !! _) as [k|]; [|apply stable_raise].
  destruct (securityContext k) as [sc|]; [|apply stable_raise].
  destruct (capabilities sc) as [caps|]; [|apply stable_raise].
  destruct (add caps) as [l|]; [|apply stable_raise].
  destruct (negb _); [apply stable_ret|apply IH].
Qed.

Lemma stable_is_patched n a cs : stable (statefulset_is_patched env n a cs).
Proof.
  unfold statefulset_is_patched. apply stable_bind; [apply stable_get_statefulset|].
  intros s. destruct (annotations s) as [m|]; [|apply stable_raise].
  destruct (m !! _) as [v|]; [|apply stable_ret].
  destruct (json_loads env v); [|apply stable_raise].
  destruct (py_ne _ _); [apply stable_ret|apply stable_has_net_admin].
Qed.

End ReadOnly.

Section Attachments.
Context (env : Env).

Local Abbreviation present := (Multus.present env).

Local Abbreviation ensure := (create_if_missing env).

Lemma is_created_present n w :
  present n w ->
  network_attachment_definition_is_created env n w
  = (Ok true, w, [Get res_NetworkAttachmentDefinition n true]).
Proof.
  intros [Hf [o Ho]]. unfold network_attachment_definition_is_created, try_except, bind, client_get_nad.
  rewrite Hf, Ho. reflexivity.
Qed.

(** Whatever the existence check answers, it leaves the cluster alone. *)
Lemma is_created_cases n w :
  (present n w /\ network_attachment_definition_is_created env n w
                  = (Ok true, w, [Get res_NetworkAttachmentDefinition n true])) \/
  (~ present n w /\ exists r, network_attachment_definition_is_created env n w
                  = (r, w, [Get res_NetworkAttachmentDefinition n false]) /\ r <> Ok true).
Proof.
  unfold Multus.present, network_attachment_definition_is_created, try_except, bind, client_get_nad.
  destruct (api_fault _ _ _) as [f|] eqn:Hf.
  - right. split; [intros [? _]; discriminate|].
    destruct f as [reason|code]; cbn.
    + destruct (String.eqb reason "NotFound"); cbn; eexists; split; try reflexivity; discriminate.
    + destruct (Nat.eqb code 404); cbn; eexists; split; try reflexivity; discriminate.
  - destruct (nads w !! n) as [o|] eqn:Ho.
    + left. split; [split; eauto|reflexivity].
    + right. split; [intros [_ [? ?]]; discriminate|]. cbn. eexists; split; try reflexivity; discriminate.
Qed.

Lemma ensure_present nad w :
  present (metadata_name nad) w ->
  ensure nad w = (Ok tt, w, [Get res_NetworkAttachmentDefinition (metadata_name nad) true]).
Proof.
  intros H. unfold create_if_missing. erewrite bind_Ok by (apply is_created_present; assumption).
  reflexivity.
Qed.

Lemma ensure_Ok nad w w1 t :
  ensure nad w = (Ok tt, w1, t) ->
  statefulsets w1 = statefulsets w /\ present (metadata_name nad) w1 /\
  (forall n, present n w -> present n w1).
Proof.
  unfold create_if_missing. intros H. apply bind_inv_Ok in H as (created & w0 & t1 & t2 & H1 & H2 & ->).
  destruct (is_created_cases (metadata_name nad) w) as [[Hp Hr]|[Hnp (r & Hr & Hne)]].
  - rewrite Hr in H1. injection H1 as <- <- <-. cbn in H2. injection H2 as <- <-. auto.
  - rewrite Hr in H1. injection H1 as -> <- <-.
    destruct created; [congruence|]. cbn in H2.
    unfold create_network_attachment_definition, client_create in H2.
    destruct (api_fault _ _ _) eqn:Hf; [discriminate|].
    destruct (nads w !! _) eqn:Hn; [discriminate|].
    injection H2 as <- <-. unfold Multus.present. cbn. split; [reflexivity|]. split.
    + split; [assumption|]. rewrite lookup_insert_eq. eauto.
    + intros n [Hfn [o Ho]]. split; [assumption|]. cbn.
      destruct (decide (metadata_name nad = n)) as [->|Hne'].
      * rewrite lookup_insert_eq. eauto.
      * rewrite lookup_insert_ne by assumption. eauto.
Qed.

Lemma create_missing_Ok l : forall w w1 t,
  for_each l ensure w = (Ok tt, w1, t) ->
  statefulsets w1 = statefulsets w /\
  (forall nad, In nad l -> present (metadata_name nad) w1) /\
  (forall n, present n w -> present n w1).
Proof.
  induction l as [|nad l IH]; intros w w1 t H.
  - cbn in H. injection H as <- <-. split; [reflexivity|]. split; [intros ? []|auto].
  - cbn [for_each] in H. apply bind_inv_Ok in H as ([] & w0 & t1 & t2 & H1 & H2 & ->).
    apply ensure_Ok in H1 as (Hs & Hp & Hmono).
    apply IH in H2 as (Hs2 & Hall & Hmono2).
    split; [congruence|]. split.
    + intros nad' [<-|Hin]; [apply Hmono2, Hp|apply Hall, Hin].
    + intros n Hn. apply Hmono2, Hmono, Hn.
Qed.

Lemma create_missing_noop l w :
  (forall nad, In nad l -> present (metadata_name nad) w) ->
  exists t, for_each l ensure w = (Ok tt, w, t) /\ writes t = [].
Proof.
  induction l as [|nad l IH]; intros H.
  - exists []. split; reflexivity.
  - destruct IH as (t & Ht & Hw). { intros; apply H; right; assumption. }
    eexists. split.
    + cbn [for_each]. erewrite bind_Ok by (apply ensure_present, H; left; reflexivity).
      rewrite Ht. reflexivity.
    + cbn. assumption.
Qed.

End Attachments.

Section Capabilities.
Context (env : Env).

Local Abbreviation reachable := (Multus.reachable env).

Lemma get_statefulset_reachable n stored w :
  reachable n stored w ->
  client_get_statefulset env n w = (Ok stored, w, [Get res_StatefulSet n true]).
Proof. intros [Hf Hs]. unfold client_get_statefulset. rewrite Hf, Hs. reflexivity. Qed.

Lemma get_statefulset_inv n s w w' t :
  client_get_statefulset env n w = (Ok s, w', t) ->
  reachable n s w /\ w' = w /\ t = [Get res_StatefulSet n true].
Proof.
  unfold client_get_statefulset, Multus.reachable.
  destruct (api_fault _ _ _); [discriminate|].
  destruct (_ !! _); [|discriminate]. intros [= -> <- <-]. auto.
Qed.

Lemma index_of_container_names n (l l' : list Container) :
  map container_name l = map container_name l' ->
  index_of_container n l = index_of_container n l'.
Proof.
  revert l'. induction l as [|c l IH]; intros [|c' l'] H; try discriminate; [reflexivity|].
  cbn in H. injection H as Hc Hl. cbn. rewrite Hc, (IH _ Hl). reflexivity.
Qed.

Lemma index_of_container_lookup n (l : list Container) i :
  index_of_container n l = Some i -> exists c, l !! i = Some c /\ container_name c = n.
Proof.
  revert i. induction l as [|c l IH]; intros i H; [discriminate|].
  cbn in H. destruct (String.eqb (container_name c) n) eqn:E.
  - injection H as <-. exists c. split; [reflexivity|]. apply String.eqb_eq, E.
  - destruct (index_of_container n l) as [j|]; [|discriminate].
    injection H as <-. destruct (IH j eq_refl) as (c' & Hc & Hn). exists c'. auto.
Qed.

Lemma get_container_index_inv n stored c w i w' t :
  reachable n stored w ->
  get_container_index_from_name env n c w = (Ok i, w', t) ->
  index_of_container c (containers stored) = Some i /\ w' = w /\ writes t = [].
Proof.
  intros Hr H. unfold get_container_index_from_name in H.
  erewrite bind_Ok in H by (apply get_statefulset_reachable, Hr).
  destruct (index_of_container c (containers stored)) as [j|]; [|discriminate].
  cbn in H. injection H as <- <- <-. auto.
Qed.

Lemma set_capabilities_inv i s w s' w' t :
  set_capabilities i net_admin s w = (Ok s', w', t) ->
  w' = w /\ t = [] /\ annotations s' = annotations s /\
  statefulset_rest s' = statefulset_rest s /\
  exists c sc, containers s !! i = Some c /\ securityContext c = Some sc /\
    containers s' =
      <[i := {| container_name := container_name c;
                securityContext := Some (granted sc);
                container_rest := container_rest c |}]> (containers s).
Proof.
  unfold set_capabilities. destruct (containers s !! i) as [c|] eqn:Hc; [|discriminate].
  destruct (securityContext c) as [sc|] eqn:Hsc; [|discriminate].
  intros [= <- <- <-]. cbn. repeat split; eauto.
Qed.

Lemma touched_cons n cs stored i :
  touched (n :: cs) stored i <-> index_of_container n stored = Some i \/ touched cs stored i.
Proof.
  unfold touched. split.
  - intros (m & [<-|Hin] & Hm); [left; assumption|right; eauto].
  - intros [H|(m & Hin & Hm)]; [exists n; split; [left; reflexivity|assumption]|].
    exists m. split; [right; assumption|assumption].
Qed.

Lemma classic_touched cs stored i : touched cs stored i \/ ~ touched cs stored i.
Proof.
  induction cs as [|n cs IH].
  - right. intros (? & [] & _).
  - destruct (decide (index_of_container n stored = Some i)) as [H|H].
    + left. apply touched_cons. left. assumption.
    + destruct IH as [IH|IH].
      * left. apply touched_cons. right. assumption.
      * right. intros Ht. apply touched_cons in Ht as [?|?]; contradiction.
Qed.

Lemma grant_net_admin_Ok n stored cs : forall s w s' w' t,
  reachable n stored w ->
  map container_name (containers s) = map container_name (containers stored) ->
  grant_net_admin env n cs s w = (Ok s', w', t) ->
  w' = w /\ writes t = [] /\
  annotations s' = annotations s /\ statefulset_rest s' = statefulset_rest s /\
  (forall c, In c cs -> is_Some (index_of_container c (containers stored))) /\
  map container_name (containers s') = map container_name (containers stored) /\
  (forall i c, containers s !! i = Some c ->
     exists c', containers s' !! i = Some c' /\
                container_patched cs (containers stored) i c c').
Proof.
  induction cs as [|cn cs IH]; intros s w s' w' t Hr Hnames H.
  - cbn in H. injection H as <- <- <-. repeat split; try reflexivity; try assumption.
    + intros ? [].
    + intros i c Hc. exists c. split; [assumption|].
      repeat split; try reflexivity. intros (? & [] & _).
  - cbn [grant_net_admin] in H.
    apply bind_inv_Ok in H as (j & w0 & t1 & t2 & H1 & H2 & ->).
    apply (get_container_index_inv _ _ _ _ _ _ _ Hr) in H1 as (Hj & -> & Ht1).
    apply bind_inv_Ok in H2 as (s1 & w1 & t3 & t4 & H2 & H3 & ->).
    apply set_capabilities_inv in H2 as (-> & -> & Ha1 & Hrest1 & c0 & sc0 & Hc0 & Hsc0 & Hcs1).
    assert (Hnames1 : map container_name (containers s1) = map container_name (containers stored)).
    { rewrite Hcs1, <- Hnames. rewrite list_fmap_insert. cbn.
      apply list_insert_id. rewrite list_lookup_fmap, Hc0. reflexivity. }
    apply (IH _ _ _ _ _ Hr Hnames1) in H3 as (-> & Ht4 & Ha & Hre & Hidx & Hnm & Hall).
    split; [reflexivity|]. split; [cbn [app]; rewrite writes_app, Ht1, Ht4; reflexivity|].
    split; [congruence|]. split; [congruence|]. split.
    { intros c [<-|Hin]; [rewrite Hj; eauto|apply Hidx, Hin]. }
    split; [assumption|].
    intros i c Hc. destruct (decide (i = j)) as [->|Hne].
    + assert (c = c0) by congruence. subst c0.
      destruct (Hall j {| container_name := container_name c;
                          securityContext := Some (granted sc0);
                          container_rest := container_rest c |}) as (c' & Hc' & Hn & Hrt & Ht & Hnt).
      { rewrite Hcs1. apply list_lookup_insert_eq. eapply lookup_lt_Some, Hc. }
      exists c'. split; [assumption|]. cbn in *. split; [assumption|]. split; [assumption|].
      split.
      * intros _. exists sc0. split; [assumption|].
        destruct (classic_touched cs (containers stored) j) as [Htj|Hntj].
        -- destruct (Ht Htj) as (sc & Hsc & Hsc'). injection Hsc as <-. assumption.
        -- rewrite (Hnt Hntj). reflexivity.
      * intros Hcontra. exfalso. apply Hcontra, touched_cons. left. assumption.
    + destruct (Hall i c) as (c' & Hc' & Hn & Hrt & Ht & Hnt).
      { rewrite Hcs1, list_lookup_insert_ne by congruence. assumption. }
      exists c'. split; [assumption|]. split; [assumption|]. split; [assumption|]. split.
      * intros Htc. apply touched_cons in Htc as [Hij|Htc]; [congruence|apply Ht, Htc].
      * intros Hntc. apply Hnt. intros Htc. apply Hntc, touched_cons. right. assumption.
Qed.

End Capabilities.

Section Serialisation.
Context (env : Env).

Lemma stable_set_capabilities i caps s : stable (set_capabilities i caps s).
Proof.
  unfold set_capabilities. destruct (_ !! _) as [c|]; [|apply stable_raise].
  destruct (securityContext c); [apply stable_ret|apply stable_raise].
Qed.

Lemma stable_grant n cs : forall s, stable (grant_net_admin env n cs s).
Proof.
  induction cs as [|c cs IH]; intros s; cbn [grant_net_admin]; [apply stable_ret|].
  apply stable_bind; [apply stable_get_container_index|]. intros i.
  apply stable_bind; [apply stable_set_capabilities|]. intros s'. apply IH.
Qed.

Lemma py_eq_strings l : py_eq (JArr (map JStr l)) (JArr (map JStr l)) = true.
Proof.
  cbn. induction l as [|x l IH]; [reflexivity|]. cbn. rewrite String.eqb_refl. exact IH.
Qed.

Lemma py_eq_annotation a : py_eq (NetworkAnnotation_dict a) (NetworkAnnotation_dict a) = true.
Proof.
  unfold NetworkAnnotation_dict. cbn. rewrite !String.eqb_refl. cbn.
  destruct (ips a) as [l|]; [|reflexivity].
  rewrite andb_true_r. apply (py_eq_strings l).
Qed.

Lemma py_eq_annotation_dicts l : py_eq (annotation_dicts l) (annotation_dicts l) = true.
Proof.
  unfold annotation_dicts. cbn. induction l as [|a l IH]; [reflexivity|].
  cbn [map]. rewrite IH, andb_true_r. apply py_eq_annotation.
Qed.

End Serialisation.

Section PatchObject.
Context (env : Env).

Lemma patch_statefulset_inv n a0 anns cs w r w2 t obj :
  patch_statefulset env n (a0 :: anns) cs w = (r, w2, t) ->
  In (Patch n obj) t ->
  exists stored a,
    reachable env n stored w /\ annotations stored = Some a /\
    annotations obj =
      Some (<[networks_key := json_dumps env (annotation_dicts (a0 :: anns))]> a) /\
    statefulset_rest obj = statefulset_rest stored /\
    (forall c, In c cs -> is_Some (index_of_container c (containers stored))) /\
    map container_name (containers obj) = map container_name (containers stored) /\
    (forall i c, containers stored !! i = Some c ->
       exists c', containers obj !! i = Some c' /\
                  container_patched cs (containers stored) i c c') /\
    r = Ok tt /\ writes t = [Patch n obj] /\
    w2 = {| nads := nads w;
            statefulsets := <[n := merge_patch stored obj]> (statefulsets w) |}.
Proof.
  unfold patch_statefulset. intros H Hin.
  assert (Hno : forall t', writes t' = [] -> ~ In (Patch n obj) t').
  { intros t' Ht' Hin'. assert (Hin2 : In (Patch n obj) (writes t')).
    { unfold writes. apply filter_In. split; [assumption|reflexivity]. }
    rewrite Ht' in Hin2. destruct Hin2. }
  unfold bind at 1 in H.
  destruct (stable_get_statefulset env n w) as (_ & Hw0 & _).
  destruct (client_get_statefulset env n w) as [[[stored| |] w0] t0] eqn:Hget;
    unfold calls in Hw0; cbn [snd] in Hw0.
  2,3: injection H as <- <- <-; exfalso; exact (Hno _ Hw0 Hin).
  apply get_statefulset_inv in Hget as (Hr & -> & ->).
  unfold bind at 1 in H. unfold set_annotation in H.
  destruct (annotations stored) as [a|] eqn:Ha.
  2: { cbn in H. injection H as <- <- <-. exfalso; exact (Hno _ Hw0 Hin). }
  cbn [ret] in H.
  set (s1 := {| annotations := _; containers := containers stored; statefulset_rest := _ |}) in H.
  unfold bind in H.
  destruct (stable_grant env n cs s1 w) as (Hf & Hw & _).
  destruct (grant_net_admin env n cs s1 w) as [[r2 w1] t2] eqn:Hgrant.
  unfold final, calls in Hf, Hw; cbn [fst snd] in Hf, Hw. subst w1.
  destruct r2 as [s2| |].
  2,3: injection H as <- <- <-; cbn in Hin; destruct Hin as [?|Hin]; [discriminate|];
       exfalso; exact (Hno _ Hw Hin).
  apply (grant_net_admin_Ok env n stored cs s1 w s2 w t2 Hr eq_refl) in Hgrant
    as (_ & _ & Ha2 & Hrest & Hidx & Hnm & Hall).
  unfold client_patch in H. destruct Hr as [Hfault Hstored].
  rewrite Hfault, Hstored in H. injection H as <- <- <-.
  cbn in Hin. destruct Hin as [?|Hin]; [discriminate|].
  apply in_app_or in Hin as [Hin|Hin]; [exfalso; exact (Hno _ Hw Hin)|].
  destruct Hin as [Heq|[]]. injection Heq as <-.
  exists stored, a. split; [split; assumption|]. split; [exact Ha|].
  split; [exact Ha2|]. split; [exact Hrest|]. split; [exact Hidx|]. split; [exact Hnm|].
  split; [exact Hall|]. split; [reflexivity|]. split; [|reflexivity].
  cbn. rewrite writes_app, Hw. reflexivity.
Qed.

End PatchObject.

Section Idempotence.
Context (env : Env).

Lemma patch_statefulset_issues n a0 anns cs w w2 t :
  patch_statefulset env n (a0 :: anns) cs w = (Ok tt, w2, t) ->
  exists obj, In (Patch n obj) t.
Proof.
  unfold patch_statefulset. intros H.
  apply bind_inv_Ok in H as (s & w0 & t0 & t1 & _ & H & ->).
  apply bind_inv_Ok in H as (s1 & w1 & t2 & t3 & _ & H & ->).
  apply bind_inv_Ok in H as (s2 & w3 & t4 & t5 & _ & H & ->).
  exists s2. unfold client_patch in H.
  destruct (api_fault _ _ _); [discriminate|]. destruct (_ !! _); [|discriminate].
  injection H as <- <-. rewrite !in_app_iff. right. right. right. left. reflexivity.
Qed.

Lemma has_net_admin_granted n S w cs :
  reachable env n S w ->
  (forall c, In c cs ->
     exists j k sc, index_of_container c (containers S) = Some j /\
       containers S !! j = Some k /\ securityContext k = Some sc /\
       capabilities sc = Some net_admin) ->
  outcome (has_net_admin env n cs S w) = Ok true.
Proof.
  intros Hr. induction cs as [|c cs IH]; intros H; [reflexivity|].
  cbn [has_net_admin].
  destruct (H c (or_introl eq_refl)) as (j & k & sc & Hj & Hk & Hsc & Hcaps).
  unfold get_container_index_from_name.
  erewrite bind_Ok; cycle 1.
  { erewrite bind_Ok by (apply get_statefulset_reachable, Hr). rewrite Hj. reflexivity. }
  cbn [outcome final calls fst snd ret]. rewrite Hk, Hsc, Hcaps. cbn [add net_admin].
  replace (negb (bool_decide ("NET_ADMIN" ∈ ["NET_ADMIN"]))) with false by reflexivity.
  unfold outcome. cbn [fst]. apply IH. intros c' Hc'. apply H. right. assumption.
Qed.

Lemma is_patched_after_patch n a0 anns cs w w2 t :
  json_loads env (json_dumps env (annotation_dicts (a0 :: anns)))
  = Some (annotation_dicts (a0 :: anns)) ->
  patch_statefulset env n (a0 :: anns) cs w = (Ok tt, w2, t) ->
  outcome (statefulset_is_patched env n (a0 :: anns) cs w2) = Ok true /\ nads w2 = nads w.
Proof.
  intros Hround H.
  destruct (patch_statefulset_issues _ _ _ _ _ _ _ H) as [obj Hin].
  destruct (patch_statefulset_inv env _ _ _ _ _ _ _ _ obj H Hin)
    as (stored & a & [Hfault Hstored] & Ha & Hobj & Hrest & Hidx & Hnm & Hall & _ & _ & ->).
  split; [|reflexivity].
  set (S := merge_patch stored obj).
  set (w2 := {| nads := nads w; statefulsets := <[n:=S]> (statefulsets w) |}).
  assert (Hr : reachable env n S w2).
  { split; [assumption|]. apply lookup_insert_eq. }
  unfold statefulset_is_patched.
  erewrite bind_Ok by (apply get_statefulset_reachable, Hr).
  unfold outcome at 1. cbn [fst].
  assert (HS : annotations S = Some (<[networks_key := json_dumps env (annotation_dicts (a0 :: anns))]> a ∪ a)).
  { unfold S, merge_patch. cbn. rewrite Hobj, Ha. reflexivity. }
  rewrite HS. erewrite lookup_union_Some_l by apply lookup_insert_eq.
  rewrite Hround. unfold py_ne. rewrite py_eq_annotation_dicts. cbn [negb].
  apply has_net_admin_granted; [assumption|].
  intros c Hc. destruct (Hidx c Hc) as [j Hj].
  destruct (index_of_container_lookup _ _ _ Hj) as (k & Hk & Hkn).
  destruct (Hall j k Hk) as (k' & Hk' & _ & _ & Ht & _).
  destruct Ht as (sc & Hsc & Hsc'). { exists c. auto. }
  exists j, k', (granted sc). split; [|split; [|split]].
  - unfold S, merge_patch. cbn. rewrite (index_of_container_names c _ _ Hnm). assumption.
  - assumption.
  - assumption.
  - reflexivity.
Qed.

(** C7.  After a [_patch] that returned, a second [_patch] with the same
    attributes returns too, leaves the cluster as it is and makes no
    write, provided [json.loads] reads back what [json.dumps] printed for
    the annotations. *)
Theorem patch_twice self w w1 t1 :
  json_loads env (json_dumps env (annotation_dicts (network_annotations self)))
  = Some (annotation_dicts (network_annotations self)) ->
  _patch env self w = (Ok tt, w1, t1) ->
  exists t2, _patch env self w1 = (Ok tt, w1, t2) /\ writes t2 = [].
Proof.
  intros Hround H. unfold _patch in *.
  apply bind_inv_Ok in H as ([] & w0 & ta & tb & Hloop & H & ->).
  apply create_missing_Ok in Hloop as (Hsts & Hpresent & _).
  apply bind_inv_Ok in H as (patched & w0' & tc & td & Hip & H & ->).
  set (n := app_name self) in *. set (anns := network_annotations self) in *.
  set (cs := containers_requiring_net_admin_capability self) in *.
  destruct (stable_is_patched env n anns cs w0) as (Hf0 & _ & _).
  rewrite Hip in Hf0. unfold final in Hf0; cbn [fst snd] in Hf0. subst w0'.
  (* the second pass finds every attachment definition *)
  assert (Hsame : nads w1 = nads w0 /\
                  outcome (statefulset_is_patched env n anns cs w1) = Ok true \/
                  w1 = w0 /\
                  (patched = true \/ anns = [])).
  { destruct patched; cbn [negb when] in H.
    - injection H as <- <-. right. auto.
    - destruct anns as [|a0 anns'] eqn:Ea.
      + cbn in H. injection H as <- <-. right. auto.
      + left. destruct (is_patched_after_patch _ _ _ _ _ _ _ Hround H) as [Ho Hn]. auto. }
  assert (Hloop2 : exists t, for_each (network_attachment_definitions self)
                     (create_if_missing env) w1 = (Ok tt, w1, t) /\ writes t = []).
  { apply create_missing_noop. intros nad Hin. destruct (Hpresent nad Hin) as [Hfl Hs].
    split; [assumption|]. destruct Hsame as [[-> _]|[-> _]]; assumption. }
  destruct Hloop2 as (tl & Hl & Hwl).
  destruct (stable_is_patched env n anns cs w1) as (Hf1 & Hw1 & Hext1).
  destruct Hsame as [[_ Htrue]|[-> Hcase]].
  - eexists. split.
    + erewrite bind_Ok by exact Hl. cbn [outcome final calls fst snd].
      erewrite bind_Ok; cycle 1.
      { rewrite (run_eta (statefulset_is_patched env n anns cs w1)), Htrue, Hf1. reflexivity. }
      cbn. reflexivity.
    + cbn. rewrite !writes_app, Hwl, Hw1. reflexivity.
  - rewrite Hip in Hf1, Hw1. unfold final, calls in Hf1, Hw1; cbn [fst snd] in Hf1, Hw1.
    eexists. split.
    + erewrite bind_Ok by exact Hl. cbn [outcome final calls fst snd].
      erewrite bind_Ok by exact Hip.
      destruct Hcase as [->| ->]; cbn.
      * reflexivity.
      * destruct patched; reflexivity.
    + destruct Hcase as [->|Hanns].
      * cbn. rewrite !writes_app, Hwl, Hw1. reflexivity.
      * destruct patched; cbn; rewrite ?Hanns; cbn; rewrite !writes_app, Hwl, Hw1; reflexivity.
Qed.

End Idempotence.

Section MultusOrder.
Context (env : Env).

Lemma stable_reads {A} (m : M Cluster Call A) earlier : stable m -> follows earlier m.
Proof. intros H. apply respects_reads. intros w. apply (H w). Qed.

Lemma is_created_reads n w :
  List.filter is_write (calls (network_attachment_definition_is_created env n w)) = [].
Proof.
  destruct (is_created_cases env n w) as [[_ ->]|[_ (r & -> & _)]]; reflexivity.
Qed.

Lemma is_created_answer n w (b : bool) w1 t :
  network_attachment_definition_is_created env n w = (Ok b, w1, t) ->
  w1 = w /\ t = [Get res_NetworkAttachmentDefinition n b].
Proof.
  destruct (is_created_cases env n w) as [[_ ->]|[_ (r & -> & Hr)]].
  - intros [= <- <- <-]. auto.
  - intros [= -> <- <-]. destruct b; [congruence|auto].
Qed.

Lemma create_if_missing_follows earlier nad : follows earlier (create_if_missing env nad).
Proof.
  unfold create_if_missing.
  apply respects_bind; [apply respects_reads, is_created_reads|].
  intros created w w1 t Hrun. apply is_created_answer in Hrun as [-> ->].
  destruct created; cbn [negb when]; [apply respects_ret|].
  apply respects_call. intros w0.
  unfold create_network_attachment_definition, client_create.
  exists (Create nad). split.
  - destruct (api_fault _ _ _); [reflexivity|]. destruct (_ !! _); reflexivity.
  - apply (justified_by _ _ (Get res_NetworkAttachmentDefinition (metadata_name nad) false));
      [left; reflexivity|].
    cbn [tells_difference]. apply String.eqb_refl.
Qed.

Lemma delete_if_created_follows earlier nad : follows earlier (delete_if_created env nad).
Proof.
  unfold delete_if_created.
  apply respects_bind; [apply respects_reads, is_created_reads|].
  intros created w w1 t Hrun. apply is_created_answer in Hrun as [-> ->].
  destruct created; cbn [when]; [|apply respects_ret].
  apply respects_call. intros w0.
  unfold delete_network_attachment_definition, client_delete.
  exists (Delete (metadata_name nad)). split.
  - destruct (api_fault _ _ _); [reflexivity|]. destruct (_ !! _); reflexivity.
  - apply (justified_by _ _ (Get res_NetworkAttachmentDefinition (metadata_name nad) true));
      [left; reflexivity|].
    cbn [tells_difference]. apply String.eqb_refl.
Qed.

Lemma for_each_follows {A} (body : A -> M Cluster Call unit) l :
  (forall earlier a, follows earlier (body a)) ->
  forall earlier, follows earlier (for_each l body).
Proof.
  intros Hbody. induction l as [|a l IH]; intros earlier; [apply respects_ret|].
  cbn [for_each]. apply respects_bind; [apply Hbody|]. intros. apply IH.
Qed.

Lemma patch_statefulset_follows earlier n anns cs :
  follows earlier (patch_statefulset env n anns cs).
Proof.
  unfold patch_statefulset. destruct anns as [|a0 anns]; [apply respects_ret|].
  apply respects_bind; [apply stable_reads, stable_get_statefulset|].
  intros s w w1 t Hrun. apply get_statefulset_inv in Hrun as (_ & -> & ->).
  apply respects_bind.
  { unfold set_annotation. destruct (annotations s); [apply respects_ret|apply respects_raise]. }
  intros s1 w2 w3 t1 _.
  apply respects_bind; [apply stable_reads, stable_grant|].
  intros s2 w4 w5 t2 _.
  apply respects_call. intros w6. unfold client_patch.
  exists (Patch n s2). split.
  - destruct (api_fault _ _ _); [reflexivity|]. destruct (_ !! _); reflexivity.
  - apply (justified_by _ _ (Get res_StatefulSet n true)).
    + cbn [rev app]. rewrite !in_app_iff. right. right. left. reflexivity.
    + cbn [tells_difference]. apply String.eqb_refl.
Qed.

Lemma patch_follows self : follows [] (_patch env self).
Proof.
  unfold _patch.
  apply respects_bind; [apply for_each_follows; intros; apply create_if_missing_follows|].
  intros _ w w1 t _.
  apply respects_bind; [apply stable_reads, stable_is_patched|].
  intros patched w2 w3 t2 _.
  destruct patched; cbn [negb when]; [apply respects_ret|apply patch_statefulset_follows].
Qed.

Lemma on_remove_follows self : follows [] (_on_remove env self).
Proof.
  unfold _on_remove. apply for_each_follows. intros; apply delete_if_created_follows.
Qed.

(** No patch among the calls of the loop over the attachments. *)
Lemma create_if_missing_calls nad w c :
  In c (calls (create_if_missing env nad w)) ->
  match c with Patch _ _ => False | _ => True end.
Proof.
  unfold create_if_missing, bind.
  destruct (is_created_cases env (metadata_name nad) w) as [[_ ->]|[_ (r & -> & _)]].
  - cbn. intros [<-|[]]. exact I.
  - destruct r as [[]| |]; cbn [negb when calls snd].
    + intros [<-|[]]. exact I.
    + unfold create_network_attachment_definition, client_create.
      destruct (api_fault _ _ _); [|destruct (_ !! _)]; cbn;
        intros [<-|[<-|[]]]; exact I.
    + intros [<-|[]]. exact I.
    + intros [<-|[]]. exact I.
Qed.

Lemma create_missing_calls l : forall w c,
  In c (calls (for_each l (create_if_missing env) w)) ->
  match c with Patch _ _ => False | _ => True end.
Proof.
  induction l as [|nad l IH]; intros w c; [intros []|].
  cbn [for_each]. unfold bind.
  destruct (create_if_missing env nad w) as [[[[]| |] w1] t1] eqn:H1;
    try (intros Hin; apply (create_if_missing_calls nad w c); rewrite H1; exact Hin).
  destruct (for_each l (create_if_missing env) w1) as [[r w2] t2] eqn:H2.
  cbn [calls snd]. intros Hin. apply in_app_or in Hin as [Hin|Hin].
  - apply (create_if_missing_calls nad w c). rewrite H1. exact Hin.
  - apply (IH w1 c). rewrite H2. exact Hin.
Qed.

Lemma reads_hold_no_patch t n obj : writes t = [] -> ~ In (Patch n obj) t.
Proof.
  intros Hw Hin. assert (H : In (Patch n obj) (writes t)).
  { apply List.filter_In. split; [exact Hin|reflexivity]. }
  rewrite Hw in H. destruct H.
Qed.

End MultusOrder.

Section PatchAndRemoval.
Context (env : Env).

(** The run of [_patch] behind a patch among its calls. *)
Lemma patch_calls_inv self w n obj :
  In (Patch n obj) (calls (_patch env self w)) ->
  exists w1 t1 t2 r w2 t3,
    for_each (network_attachment_definitions self) (create_if_missing env) w = (Ok tt, w1, t1) /\
    statefulset_is_patched env (app_name self) (network_annotations self)
      (containers_requiring_net_admin_capability self) w1 = (Ok false, w1, t2) /\
    patch_statefulset env (app_name self) (network_annotations self)
      (containers_requiring_net_admin_capability self) w1 = (r, w2, t3) /\
    In (Patch n obj) t3 /\
    _patch env self w = (r, w2, t1 ++ t2 ++ t3).
Proof.
  unfold _patch, bind.
  destruct (for_each _ _ w) as [[[[]| |] w1] t1] eqn:H1;
    try (intros Hin; exfalso;
         apply (create_missing_calls env (network_attachment_definitions self) w (Patch n obj));
         rewrite H1; exact Hin).
  pose proof (stable_is_patched env (app_name self) (network_annotations self)
                (containers_requiring_net_admin_capability self) w1) as (Hfin & Hreads & _).
  assert (Hloop : forall t, In (Patch n obj) (t1 ++ t) -> In (Patch n obj) t).
  { intros t Hin. apply in_app_or in Hin as [Hin|Hin]; [exfalso|exact Hin].
    apply (create_missing_calls env (network_attachment_definitions self) w (Patch n obj)).
    rewrite H1. exact Hin. }
  destruct (statefulset_is_patched env _ _ _ w1) as [[[patched| |] w2] t2] eqn:H2;
    cbn [final calls outcome fst snd] in Hfin, Hreads; subst w2;
    try (cbn [calls snd]; intros Hin; exfalso;
         exact (reads_hold_no_patch _ _ _ Hreads (Hloop _ Hin))).
  destruct patched; cbn [negb when ret].
  - cbn [calls snd]. rewrite app_nil_r. intros Hin. exfalso.
    exact (reads_hold_no_patch _ _ _ Hreads (Hloop _ Hin)).
  - destruct (patch_statefulset env _ _ _ w1) as [[r w2] t3] eqn:H3.
    cbn [calls snd]. intros Hin. apply Hloop in Hin.
    apply in_app_or in Hin as [Hin|Hin];
      [exfalso; exact (reads_hold_no_patch _ _ _ Hreads Hin)|].
    exists w1, t1, t2, r, w2, t3. repeat split; try reflexivity; assumption.
Qed.

(** A patch among the calls of [_patch]: on the cluster [_patch] started
    from, [statefulset_is_patched] answers [False]. *)
Lemma patch_needs_answer self w n obj :
  In (Patch n obj) (calls (_patch env self w)) ->
  exists t,
    statefulset_is_patched env (app_name self) (network_annotations self)
      (containers_requiring_net_admin_capability self) w = (Ok false, w, t).
Proof.
  intros Hin.
  apply patch_calls_inv in Hin as (w1 & t1 & t2 & r & w2 & t3 & Hloop & Hq & _).
  apply create_missing_Ok in Hloop as (Hs & _ & _).
  pose proof (stable_is_patched env (app_name self) (network_annotations self)
                (containers_requiring_net_admin_capability self) w) as (Hfin & _ & Hsame).
  destruct (Hsame w1 (eq_sym Hs)) as [Ho Hc].
  rewrite Hq in Ho, Hc. cbn [outcome calls fst snd] in Ho, Hc.
  exists t2.
  rewrite (run_eta (statefulset_is_patched env (app_name self) (network_annotations self)
                      (containers_requiring_net_admin_capability self) w)).
  rewrite <- Ho, Hfin, <- Hc. reflexivity.
Qed.


(** C9.  When the lookup of every desired attachment raises NotFound,
    [_on_remove] returns, leaves the cluster as it is and issues no
    delete. *)
Theorem on_remove_absent self w :
  (forall nad, In nad (network_attachment_definitions self) ->
     outcome (client_get_nad env (metadata_name nad) w) = Raise (ApiError "NotFound")) ->
  exists t, _on_remove env self w = (Ok tt, w, t) /\ writes t = [] /\
            forall n, ~ In (Delete n) t.
Proof.
  intros H.
  assert (Hrun : exists t, _on_remove env self w = (Ok tt, w, t) /\ writes t = []).
  { unfold _on_remove.
    induction (network_attachment_definitions self) as [|nad rest IH].
    - exists []. split; reflexivity.
    - destruct IH as (t & Ht & Hw). { intros; apply H; right; assumption. }
      assert (Hc : network_attachment_definition_is_created env (metadata_name nad) w
                   = (Ok false, w, [Get res_NetworkAttachmentDefinition (metadata_name nad) false])).
      { specialize (H nad (or_introl eq_refl)). revert H.
        unfold network_attachment_definition_is_created, try_except, bind, client_get_nad.
        destruct (api_fault _ _ _) as [f|].
        - cbn [outcome fst]. destruct f; cbn [exception_of]; intros [= ->]. reflexivity.
        - destruct (nads w !! _); [discriminate|]. reflexivity. }
      exists (Get res_NetworkAttachmentDefinition (metadata_name nad) false :: t). split.
      + cbn [for_each]. erewrite bind_Ok; cycle 1.
        { unfold delete_if_created. erewrite bind_Ok by exact Hc. reflexivity. }
        cbn [outcome final calls fst snd when ret]. rewrite Ht. reflexivity.
      + exact Hw. }
  destruct Hrun as (t & Ht & Hw). exists t. split; [exact Ht|]. split; [exact Hw|].
  intros n Hin. assert (Hin' : In (Delete n) (writes t)).
  { apply List.filter_In. split; [exact Hin|reflexivity]. }
  rewrite Hw in Hin'. destruct Hin'.
Qed.

End PatchAndRemoval.

(** C7 on the concrete cluster. *)
Lemma patch_twice_witness :
  exists t2, _patch demo_env demo_lib patched_cluster = (Ok tt, patched_cluster, t2)
             /\ writes t2 = [].
Proof.
  apply (patch_twice demo_env demo_lib demo_cluster patched_cluster
           (calls (_patch demo_env demo_lib demo_cluster))).
  - vm_compute. reflexivity.
  - apply run_returned. vm_compute. reflexivity.
Defined.


(** C9 on the concrete cluster, which holds no attachment. *)
Lemma on_remove_absent_witness :
  exists t, _on_remove demo_env demo_lib demo_cluster = (Ok tt, demo_cluster, t)
            /\ writes t = [] /\ forall n, ~ In (Delete n) t.
Proof.
  apply (on_remove_absent demo_env demo_lib demo_cluster).
  intros nad [<-|[<-|[]]]; vm_compute; reflexivity.
Defined.


Ltac answers :=
  split; [reflexivity|];
  split; [eexists; reflexivity|];
  split; [|split; [|split; [|discriminate]]].

Lemma classic_in (l : list NetworkAttachmentDefinition) (n : string) :
  (exists nad, In nad l /\ metadata_name nad = n) \/
  (forall nad, In nad l -> metadata_name nad <> n).
Proof.
  induction l as [|nad l IH]; [right; intros ? []|].
  destruct (decide (metadata_name nad = n)) as [Heq|Hne].
  - left. exists nad. split; [left; reflexivity|exact Heq].
  - destruct IH as [(nad' & Hin & Heq)|Hnot].
    + left. exists nad'. split; [right; exact Hin|exact Heq].
    + right. intros nad' [<-|Hin]; auto.
Qed.

Section MoreOfMultus.
Context (env : Env).

(** *** The existence check *)

(** X1. network_attachment_definition_is_created never changes the cluster and
    makes exactly one lookup; it answers True exactly when the attachment
    exists and the API is reachable, False exactly when the lookup says
    NotFound, and whatever else the client raises (another ApiError, any HTTP
    status error) comes out as a KubernetesMultusError: no ApiError or
    HTTPStatusError escapes. *)
Theorem existence_check n w :
  final (network_attachment_definition_is_created env n w) = w /\
  (exists found,
     calls (network_attachment_definition_is_created env n w)
     = [Get res_NetworkAttachmentDefinition n found]) /\
  (outcome (network_attachment_definition_is_created env n w) = Ok true
   <-> present env n w) /\
  (outcome (network_attachment_definition_is_created env n w) = Ok false
   <-> (api_fault env res_NetworkAttachmentDefinition n = None /\ nads w !! n = None)
       \/ api_fault env res_NetworkAttachmentDefinition n = Some (api_error "NotFound")) /\
  (forall e, outcome (network_attachment_definition_is_created env n w) = Raise e ->
     exists msg, e = KubernetesMultusError msg) /\
  outcome (network_attachment_definition_is_created env n w) <> OutOfFuel.
Proof.
  unfold Multus.present, network_attachment_definition_is_created, try_except, bind, client_get_nad.
  destruct (api_fault env res_NetworkAttachmentDefinition n) as [[reason|code]|] eqn:Hf.
  - cbn [exception_of].
    destruct (String.eqb reason "NotFound") eqn:Hr; cbn [outcome final calls fst snd ret raise app].
    + apply String.eqb_eq in Hr as ->. answers.
      * split; [discriminate | intros [H _]; discriminate].
      * split; auto.
      * discriminate.
    + answers.
      * split; [discriminate | intros [H _]; discriminate].
      * split; [discriminate|]. intros [[H _]|[= ->]]; [discriminate|].
        rewrite String.eqb_refl in Hr. discriminate.
      * intros e [= <-]. eauto.
  - cbn [exception_of].
    destruct (Nat.eqb code 404); cbn [outcome final calls fst snd ret raise app]; answers;
      try (split; [discriminate|]); try (intros [H _]; discriminate);
      try (intros [[H _]|H]; discriminate); intros e [= <-]; eauto.
  - destruct (nads w !! n) as [o|] eqn:Ho; cbn [outcome final calls fst snd ret raise app].
    + answers.
      * split; eauto.
      * split; [discriminate|]. intros [[_ H]|H]; discriminate.
      * discriminate.
    + assert (Hnf : String.eqb "NotFound" "NotFound" = true) by reflexivity.
      rewrite Hnf. cbn [outcome final calls fst snd ret raise app]. answers.
      * split; [discriminate|]. intros [_ [o Ho']]. discriminate.
      * split; auto.
      * discriminate.
Qed.

(** The library has no loop: nothing runs out of fuel. *)
Lemma get_statefulset_terminates n w : outcome (client_get_statefulset env n w) <> OutOfFuel.
Proof.
  unfold client_get_statefulset.
  destruct (api_fault _ _ _); [|destruct (_ !! _)]; discriminate.
Qed.

Lemma get_container_index_terminates n c w :
  outcome (get_container_index_from_name env n c w) <> OutOfFuel.
Proof.
  unfold get_container_index_from_name, bind.
  pose proof (get_statefulset_terminates n w) as H.
  destruct (client_get_statefulset env n w) as [[[s| |] w0] t0];
    [|discriminate|exfalso; apply H; reflexivity].
  destruct (index_of_container c (containers s)); discriminate.
Qed.

Lemma grant_terminates n cs : forall s w,
  outcome (grant_net_admin env n cs s w) <> OutOfFuel.
Proof.
  induction cs as [|c cs IH]; intros s w; [discriminate|].
  cbn [grant_net_admin]. unfold bind.
  pose proof (get_container_index_terminates n c w) as H.
  destruct (get_container_index_from_name env n c w) as [[[i| |] w0] t0];
    [|discriminate|exfalso; apply H; reflexivity].
  unfold set_capabilities.
  destruct (containers s !! i) as [k|]; [|discriminate].
  destruct (securityContext k); [|discriminate].
  cbn [ret]. specialize (IH {| annotations := annotations s;
    containers := <[i := {| container_name := container_name k;
                           securityContext := Some {| capabilities := Some net_admin;
                                                       security_rest := security_rest s0 |};
                           container_rest := container_rest k |}]> (containers s);
    statefulset_rest := statefulset_rest s |} w0).
  destruct (grant_net_admin env n cs _ w0) as [[r w1] t1]. exact IH.
Qed.

(** *** The patch of the statefulset *)

(** What [patch_statefulset] leaves when it stops before the patch. *)
Lemma patch_statefulset_cases n a0 anns cs w :
  (exists obj, In (Patch n obj) (calls (patch_statefulset env n (a0 :: anns) cs w))) \/
  (final (patch_statefulset env n (a0 :: anns) cs w) = w /\
   writes (calls (patch_statefulset env n (a0 :: anns) cs w)) = [] /\
   exists e, outcome (patch_statefulset env n (a0 :: anns) cs w) = Raise e).
Proof.
  unfold patch_statefulset, bind.
  pose proof (stable_get_statefulset env n w) as (Hf0 & Hw0 & _).
  destruct (client_get_statefulset env n w) as [[[s| |] w0] t0] eqn:Hg;
    cbn [outcome final calls fst snd] in Hf0, Hw0; subst w0.
  2:{ right. cbn [outcome final calls fst snd]. eauto. }
  2:{ exfalso. apply (get_statefulset_terminates n w). rewrite Hg. reflexivity. }
  apply get_statefulset_inv in Hg as ([Hfault Hstored] & _ & _).
  unfold set_annotation.
  destruct (annotations s) as [a|].
  2:{ right. cbn [raise outcome final calls fst snd]. rewrite app_nil_r. eauto. }
  cbn [ret].
  match goal with |- context [grant_net_admin env n cs ?s1 w] =>
    pose proof (stable_grant env n cs s1 w) as (Hf1 & Hw1 & _);
    pose proof (grant_terminates n cs s1 w) as Hgt;
    destruct (grant_net_admin env n cs s1 w) as [[[s2| |] w1] t1] end;
    cbn [outcome final calls fst snd] in Hf1, Hw1; subst w1.
  - left. exists s2. unfold client_patch. rewrite Hfault, Hstored.
    cbn [calls snd]. rewrite !in_app_iff. right. right. right. left. reflexivity.
  - right. cbn [outcome final calls fst snd app].
    rewrite !writes_app, Hw0, Hw1. eauto.
  - exfalso. apply Hgt. reflexivity.
Qed.

(** X2. patch_statefulset with an empty list of annotations returns without
    any call. Otherwise it either issues exactly one patch, or issues no write
    and leaves the cluster as it is; when one of the named containers is not
    in the stored statefulset it is the latter, and it raises. *)
Theorem patch_all_or_nothing n anns cs w :
  (anns = [] -> patch_statefulset env n anns cs w = (Ok tt, w, [])) /\
  ((exists obj, writes (calls (patch_statefulset env n anns cs w)) = [Patch n obj]) \/
   (writes (calls (patch_statefulset env n anns cs w)) = [] /\
    final (patch_statefulset env n anns cs w) = w)) /\
  (forall stored c,
     anns <> [] ->
     reachable env n stored w ->
     In c cs -> index_of_container c (containers stored) = None ->
     writes (calls (patch_statefulset env n anns cs w)) = [] /\
     final (patch_statefulset env n anns cs w) = w /\
     exists e, outcome (patch_statefulset env n anns cs w) = Raise e).
Proof.
  split; [intros ->; reflexivity|].
  destruct anns as [|a0 anns].
  { split; [right; split; reflexivity | intros stored c H; contradiction]. }
  split.
  - destruct (patch_statefulset_cases n a0 anns cs w) as [[obj Hin]|(Hf & Hw & _)];
      [left|right; auto].
    exists obj.
    destruct (patch_statefulset env n (a0 :: anns) cs w) as [[r w2] t] eqn:Hrun.
    cbn [calls snd] in *.
    destruct (patch_statefulset_inv env _ _ _ _ _ _ _ _ _ Hrun Hin)
      as (_ & _ & _ & _ & _ & _ & _ & _ & _ & _ & Hw & _).
    exact Hw.
  - intros stored c _ [Hfault Hstored] Hc Hidx.
    destruct (patch_statefulset_cases n a0 anns cs w) as [[obj Hin]|(Hf & Hw & Hr)].
    + exfalso.
      destruct (patch_statefulset env n (a0 :: anns) cs w) as [[r w2] t] eqn:Hrun.
      cbn [calls snd] in *.
      destruct (patch_statefulset_inv env _ _ _ _ _ _ _ _ _ Hrun Hin)
        as (stored' & _ & [_ Hstored'] & _ & _ & _ & Hall & _).
      rewrite Hstored in Hstored'. injection Hstored' as <-.
      destruct (Hall c Hc) as [i Hi]. congruence.
    + auto.
Qed.

(** *** What [_patch] establishes and what it keeps *)

(** X3. When _patch returns, with a non-empty list of annotations and a
    json.loads that reads back what json.dumps printed for them, every desired
    attachment exists in the cluster and statefulset_is_patched answers True. *)
Theorem patch_establishes self w w1 t1 :
  json_loads env (json_dumps env (annotation_dicts (network_annotations self)))
  = Some (annotation_dicts (network_annotations self)) ->
  network_annotations self <> [] ->
  _patch env self w = (Ok tt, w1, t1) ->
  (forall nad, In nad (network_attachment_definitions self) ->
     present env (metadata_name nad) w1) /\
  outcome (statefulset_is_patched env (app_name self) (network_annotations self)
             (containers_requiring_net_admin_capability self) w1) = Ok true.
Proof.
  intros Hround Hanns H. unfold _patch in H.
  apply bind_inv_Ok in H as ([] & w0 & ta & tb & Hloop & H & ->).
  apply create_missing_Ok in Hloop as (_ & Hpresent & _).
  apply bind_inv_Ok in H as (patched & w2 & tc & td & Hcheck & H & ->).
  pose proof (stable_is_patched env (app_name self) (network_annotations self)
                (containers_requiring_net_admin_capability self) w0) as (Hfin & _ & _).
  rewrite Hcheck in Hfin. cbn [final fst snd] in Hfin. subst w2.
  destruct patched; cbn [negb when] in H.
  - injection H as <- <-. split; [exact Hpresent|]. rewrite Hcheck. reflexivity.
  - destruct (network_annotations self) as [|a0 anns] eqn:Ha; [contradiction|].
    destruct (is_patched_after_patch env _ _ _ _ _ _ _ Hround H) as [Hok Hnads].
    split; [|exact Hok].
    intros nad Hin. destruct (Hpresent nad Hin) as [Hf Hs].
    split; [exact Hf|]. rewrite Hnads. exact Hs.
Qed.

Lemma grows_refl self w : grows self w w.
Proof. unfold grows. repeat split; auto. Qed.

Lemma grows_trans self w1 w2 w3 : grows self w1 w2 -> grows self w2 w3 -> grows self w1 w3.
Proof.
  intros (A1 & B1 & C1) (A2 & B2 & C2). unfold grows. repeat split.
  - auto.
  - intros n o H. destruct (B2 n o H) as [H'|H']; [apply B1, H'|right; exact H'].
  - intros n Hn. rewrite C2, C1 by assumption. reflexivity.
Qed.

Lemma create_if_missing_grows self nad w :
  In nad (network_attachment_definitions self) ->
  grows self w (final (create_if_missing env nad w)).
Proof.
  intros Hin. unfold create_if_missing, bind.
  destruct (is_created_cases env (metadata_name nad) w) as [[_ ->]|[_ (r & -> & _)]].
  - apply grows_refl.
  - destruct r as [[]| |]; cbn [negb when ret final fst snd]; try apply grows_refl.
    unfold create_network_attachment_definition, client_create.
    destruct (api_fault _ _ _); [apply grows_refl|].
    destruct (nads w !! metadata_name nad) eqn:Hn; [apply grows_refl|].
    cbn [final fst snd]. unfold grows. cbn [nads statefulsets]. repeat split.
    + intros n o Ho. destruct (decide (metadata_name nad = n)) as [<-|Hne]; [congruence|].
      rewrite lookup_insert_ne by assumption. exact Ho.
    + intros n o Ho. destruct (decide (metadata_name nad = n)) as [<-|Hne].
      * rewrite lookup_insert_eq in Ho. injection Ho as <-. right. auto.
      * rewrite lookup_insert_ne in Ho by assumption. left. exact Ho.
Qed.

Lemma create_missing_grows self l : forall w,
  (forall nad, In nad l -> In nad (network_attachment_definitions self)) ->
  grows self w (final (for_each l (create_if_missing env) w)).
Proof.
  induction l as [|nad l IH]; intros w Hl; [apply grows_refl|].
  cbn [for_each]. unfold bind.
  pose proof (create_if_missing_grows self nad w (Hl nad (or_introl eq_refl))) as H1.
  destruct (create_if_missing env nad w) as [[[[]| |] w1] t1]; cbn [final fst snd] in *;
    try exact H1.
  specialize (IH w1 (fun nad' H => Hl nad' (or_intror H))).
  destruct (for_each l (create_if_missing env) w1) as [[r w2] t2]. cbn [final fst snd] in *.
  exact (grows_trans _ _ _ _ H1 IH).
Qed.

Lemma patch_statefulset_grows self anns cs w :
  grows self w (final (patch_statefulset env (app_name self) anns cs w)).
Proof.
  destruct anns as [|a0 anns]; [apply grows_refl|].
  destruct (patch_statefulset_cases (app_name self) a0 anns cs w) as [[obj Hin]|(-> & _)];
    [|apply grows_refl].
  destruct (patch_statefulset env (app_name self) (a0 :: anns) cs w) as [[r w2] t] eqn:Hrun.
  cbn [calls final fst snd] in *.
  destruct (patch_statefulset_inv env _ _ _ _ _ _ _ _ _ Hrun Hin)
    as (stored & _ & _ & _ & _ & _ & _ & _ & _ & _ & _ & ->).
  unfold grows. cbn [nads statefulsets]. repeat split; auto.
  intros n Hn. apply lookup_insert_ne. congruence.
Qed.

(** X4. However _patch ends, every attachment that existed is still there
    unchanged (an existing attachment is never overwritten, even if its
    document differs from the desired one, and never deleted), every
    attachment that appeared is one of the desired ones under its own name,
    and no statefulset other than the application's is touched. *)
Theorem patch_keeps_cluster self w :
  grows self w (final (_patch env self w)).
Proof.
  unfold _patch, bind.
  pose proof (create_missing_grows self (network_attachment_definitions self) w
                (fun _ H => H)) as H1.
  destruct (for_each _ _ w) as [[[[]| |] w1] t1]; cbn [final fst snd] in *; try exact H1.
  pose proof (stable_is_patched env (app_name self) (network_annotations self)
                (containers_requiring_net_admin_capability self) w1) as (Hfin & _ & _).
  destruct (statefulset_is_patched env _ _ _ w1) as [[[patched| |] w2] t2];
    cbn [final fst snd] in *; subst w2; try exact H1.
  destruct patched; cbn [negb when ret]; [exact H1|].
  pose proof (patch_statefulset_grows self (network_annotations self)
                (containers_requiring_net_admin_capability self) w1) as H2.
  destruct (patch_statefulset env _ _ _ w1) as [[r w3] t3]. cbn [final fst snd] in *.
  exact (grows_trans _ _ _ _ H1 H2).
Qed.

(** *** Removal *)

Lemma delete_if_created_Ok nad w w1 t :
  api_fault env res_NetworkAttachmentDefinition (metadata_name nad)
    <> Some (api_error "NotFound") ->
  delete_if_created env nad w = (Ok tt, w1, t) ->
  nads w1 = delete (metadata_name nad) (nads w) /\ statefulsets w1 = statefulsets w.
Proof.
  intros Hfault. unfold delete_if_created, bind.
  unfold network_attachment_definition_is_created, try_except, bind, client_get_nad.
  destruct (api_fault env res_NetworkAttachmentDefinition (metadata_name nad))
    as [[reason|code]|] eqn:Hf.
  - cbn [exception_of]. destruct (String.eqb reason "NotFound") eqn:Hr.
    + apply String.eqb_eq in Hr as ->. contradiction.
    + cbn. discriminate.
  - cbn [exception_of]. destruct (Nat.eqb code 404); cbn; discriminate.
  - destruct (nads w !! metadata_name nad) as [o|] eqn:Ho.
    + cbn [ret when].
      unfold delete_network_attachment_definition, client_delete. rewrite Hf, Ho.
      intros [= <- <-]. cbn [nads statefulsets]. auto.
    + assert (Hnf : String.eqb "NotFound" "NotFound" = true) by reflexivity.
      rewrite Hnf. cbn [ret when]. intros [= <- <-].
      split; [|reflexivity]. symmetry. apply delete_id, Ho.
Qed.

(** X5. When _on_remove returns and the API does not answer the lookups with a
    spurious NotFound, none of the desired attachments is left in the cluster,
    the attachments under other names are as they were, and the statefulsets
    are untouched. *)
Theorem on_remove_removes self w w1 t :
  (forall nad, In nad (network_attachment_definitions self) ->
     api_fault env res_NetworkAttachmentDefinition (metadata_name nad)
       <> Some (api_error "NotFound")) ->
  _on_remove env self w = (Ok tt, w1, t) ->
  (forall nad, In nad (network_attachment_definitions self) ->
     nads w1 !! metadata_name nad = None) /\
  (forall n, (forall nad, In nad (network_attachment_definitions self) ->
                metadata_name nad <> n) ->
     nads w1 !! n = nads w !! n) /\
  statefulsets w1 = statefulsets w.
Proof.
  unfold _on_remove. revert w w1 t.
  induction (network_attachment_definitions self) as [|nad l IH]; intros w w1 t Hfault H.
  - injection H as <- <-. repeat split; auto. intros ? [].
  - cbn [for_each] in H.
    apply bind_inv_Ok in H as ([] & w0 & ta & tb & H1 & H2 & ->).
    apply delete_if_created_Ok in H1 as [Hn Hs]; [|apply Hfault; left; reflexivity].
    apply IH in H2 as (Hgone & Hframe & Hs2); [|intros; apply Hfault; right; assumption].
    split; [|split].
    + intros nad' [<-|Hin]; [|apply Hgone, Hin].
      destruct (classic_in l (metadata_name nad)) as [(nad2 & Hin2 & Heq)|Hnot].
      * rewrite <- Heq. apply Hgone, Hin2.
      * rewrite Hframe by (intros nad2 Hin2 Heq; apply (Hnot nad2 Hin2 Heq)).
        rewrite Hn. apply lookup_delete_eq.
    + intros n Hn'. rewrite Hframe by (intros; apply Hn'; right; assumption).
      rewrite Hn. apply lookup_delete_ne. apply Hn'. left. reflexivity.
    + congruence.
Qed.

(** *** The index of a container *)

Lemma index_of_container_first c (l : list Container) i :
  index_of_container c l = Some i ->
  forall j k, j < i -> l !! j = Some k -> container_name k <> c.
Proof.
  revert i. induction l as [|k0 l IH]; intros i H j k Hj Hk; [discriminate|].
  cbn [index_of_container] in H.
  destruct (String.eqb (container_name k0) c) eqn:E.
  - injection H as <-. lia.
  - destruct (index_of_container c l) as [i'|] eqn:Hi; [|discriminate].
    injection H as <-. destruct j as [|j].
    + cbn in Hk. injection Hk as <-. apply String.eqb_neq, E.
    + cbn in Hk. apply (IH i' eq_refl j k); [lia|exact Hk].
Qed.

Lemma index_of_container_none c (l : list Container) :
  index_of_container c l = None -> forall k, In k l -> container_name k <> c.
Proof.
  induction l as [|k0 l IH]; intros H k Hin; [destruct Hin|].
  cbn [index_of_container] in H.
  destruct (String.eqb (container_name k0) c) eqn:E; [discriminate|].
  destruct (index_of_container c l); [discriminate|].
  destruct Hin as [<-|Hin]; [apply String.eqb_neq, E | apply IH; auto].
Qed.

(** X6. For a reachable statefulset, get_container_index_from_name leaves the
    cluster as it is and returns the index of the first container with the
    given name (no container before it has that name); when no container has
    the name it raises KubernetesMultusError with the message naming the
    container. *)
Theorem container_index_first_match n stored c w :
  reachable env n stored w ->
  final (get_container_index_from_name env n c w) = w /\
  match outcome (get_container_index_from_name env n c w) with
  | Ok i =>
      (exists k, containers stored !! i = Some k /\ container_name k = c) /\
      (forall j k, j < i -> containers stored !! j = Some k -> container_name k <> c)
  | Raise e =>
      e = KubernetesMultusError ("No container named " ++ c ++ " in statefulset") /\
      (forall k, In k (containers stored) -> container_name k <> c)
  | OutOfFuel => False
  end.
Proof.
  intros Hr. unfold get_container_index_from_name.
  rewrite (bind_Ok _ _ _ _ _ _ (get_statefulset_reachable env _ _ _ Hr)).
  destruct (index_of_container c (containers stored)) as [i|] eqn:Hi;
    cbn [ret raise outcome final fst snd].
  - split; [reflexivity|]. split.
    + apply index_of_container_lookup, Hi.
    + apply index_of_container_first, Hi.
  - split; [reflexivity|]. split; [reflexivity|].
    apply index_of_container_none, Hi.
Qed.

(** *** The check of the patch *)

Lemma get_container_index_run n stored c w :
  reachable env n stored w ->
  get_container_index_from_name env n c w
  = (match index_of_container c (containers stored) with
     | Some i => Ok i
     | None => Raise (KubernetesMultusError
                        ("No container named " ++ c ++ " in statefulset"))
     end, w, [Get res_StatefulSet n true]).
Proof.
  intros Hr. unfold get_container_index_from_name.
  rewrite (bind_Ok _ _ _ _ _ _ (get_statefulset_reachable env _ _ _ Hr)).
  destruct (index_of_container c (containers stored)); reflexivity.
Qed.

Lemma has_net_admin_true n stored cs w :
  reachable env n stored w ->
  outcome (has_net_admin env n cs stored w) = Ok true ->
  forall c, In c cs ->
    exists i k sc caps l,
      index_of_container c (containers stored) = Some i /\
      containers stored !! i = Some k /\ securityContext k = Some sc /\
      capabilities sc = Some caps /\ add caps = Some l /\ "NET_ADMIN" ∈ l.
Proof.
  intros Hr. induction cs as [|c0 cs IH]; intros H c Hin; [destruct Hin|].
  cbn [has_net_admin] in H.
  pose proof (get_container_index_run n stored c0 w Hr) as Hrun.
  destruct (index_of_container c0 (containers stored)) as [i|] eqn:Hi.
  2:{ rewrite (bind_Raise _ _ _ _ _ _ Hrun) in H. discriminate. }
  rewrite (bind_Ok _ _ _ _ _ _ Hrun) in H.
  unfold outcome at 1 in H. cbn [fst] in H.
  destruct (containers stored !! i) as [k|] eqn:Hk; [|discriminate].
  destruct (securityContext k) as [sc|] eqn:Hsc; [|discriminate].
  destruct (capabilities sc) as [caps|] eqn:Hcaps; [|discriminate].
  destruct (add caps) as [l|] eqn:Hadd; [|discriminate].
  destruct (bool_decide ("NET_ADMIN" ∈ l)) eqn:Hmem; cbn [negb] in H; [|discriminate].
  destruct Hin as [<-|Hin].
  - exists i, k, sc, caps, l. repeat split; try assumption.
    exact (bool_decide_eq_true_1 _ Hmem).
  - apply IH; [|exact Hin]. exact H.
Qed.

(** X7. statefulset_is_patched answers True only if the statefulset exists,
    carries the networks annotation, its decoded value equals the desired
    annotations, and every named container exists with NET_ADMIN among its
    added capabilities. *)
Theorem is_patched_sound n anns cs w :
  outcome (statefulset_is_patched env n anns cs w) = Ok true ->
  exists stored a value existing,
    reachable env n stored w /\ annotations stored = Some a /\
    a !! networks_key = Some value /\ json_loads env value = Some existing /\
    py_eq existing (annotation_dicts anns) = true /\
    forall c, In c cs ->
      exists i k sc caps l,
        index_of_container c (containers stored) = Some i /\
        containers stored !! i = Some k /\ securityContext k = Some sc /\
        capabilities sc = Some caps /\ add caps = Some l /\ "NET_ADMIN" ∈ l.
Proof.
  unfold statefulset_is_patched. intros H.
  destruct (client_get_statefulset env n w) as [[[stored| |] w0] t0] eqn:Hg;
    try (unfold bind in H; rewrite Hg in H; discriminate).
  pose proof Hg as Hg'. apply get_statefulset_inv in Hg' as (Hr & -> & ->).
  rewrite (bind_Ok _ _ _ _ _ _ Hg) in H.
  destruct (annotations stored) as [a|] eqn:Ha; [|discriminate].
  destruct (a !! networks_key) as [value|] eqn:Hv; [|discriminate].
  destruct (json_loads env value) as [existing|] eqn:Hj; [|discriminate].
  unfold py_ne in H.
  destruct (py_eq existing (annotation_dicts anns)) eqn:Hpy; cbn [negb] in H; [|discriminate].
  exists stored, a, value, existing. repeat split; try assumption; try apply Hr.
  apply (has_net_admin_true n stored cs w Hr). exact H.
Qed.

(** X8. When the annotation already matches but the first named container has
    a security context without capabilities, statefulset_is_patched does not
    answer False: it raises AttributeError. _patch then never issues a patch,
    whatever it creates first, so the capability is never granted; and when
    every desired attachment exists already, _patch raises AttributeError too,
    leaves the cluster as it is and issues no write. *)
Theorem is_patched_raises_without_capabilities n anns c cs w stored a value existing i k sc :
  reachable env n stored w ->
  annotations stored = Some a ->
  a !! networks_key = Some value ->
  json_loads env value = Some existing ->
  py_eq existing (annotation_dicts anns) = true ->
  index_of_container c (containers stored) = Some i ->
  containers stored !! i = Some k ->
  securityContext k = Some sc ->
  capabilities sc = None ->
  outcome (statefulset_is_patched env n anns (c :: cs) w) = Raise AttributeError /\
  forall self,
    app_name self = n -> network_annotations self = anns ->
    containers_requiring_net_admin_capability self = c :: cs ->
    (forall m obj, ~ In (Patch m obj) (calls (_patch env self w))) /\
    ((forall nad, In nad (network_attachment_definitions self) ->
        present env (metadata_name nad) w) ->
     outcome (_patch env self w) = Raise AttributeError /\
     final (_patch env self w) = w /\
     writes (calls (_patch env self w)) = []).
Proof.
  intros Hr Ha Hv Hj Hpy Hi Hk Hsc Hcaps.
  assert (Hcheck : outcome (statefulset_is_patched env n anns (c :: cs) w)
                   = Raise AttributeError).
  { unfold statefulset_is_patched.
    rewrite (bind_Ok _ _ _ _ _ _ (get_statefulset_reachable env _ _ _ Hr)).
    rewrite Ha, Hv, Hj. unfold py_ne. rewrite Hpy. cbn [negb has_net_admin].
    pose proof (get_container_index_run n stored c w Hr) as Hrun. rewrite Hi in Hrun.
    rewrite (bind_Ok _ _ _ _ _ _ Hrun).
    rewrite Hk, Hsc, Hcaps. reflexivity. }
  split; [exact Hcheck|].
  intros self Hn Hanns Hcs. split.
  { intros m obj Hin. apply (patch_needs_answer env) in Hin as [t Ht].
    rewrite Hn, Hanns, Hcs in Ht. rewrite Ht in Hcheck. discriminate. }
  intros Hpresent. unfold _patch.
  destruct (create_missing_noop env (network_attachment_definitions self) w Hpresent)
    as (t & Ht & Hw).
  rewrite (bind_Ok _ _ _ _ _ _ Ht). rewrite Hn, Hanns, Hcs.
  pose proof (stable_is_patched env n anns (c :: cs) w) as (Hfin & Hreads & _).
  destruct (statefulset_is_patched env n anns (c :: cs) w) as [[r w2] t2] eqn:Hrun.
  cbn [outcome final calls fst snd] in Hcheck, Hfin, Hreads. subst r w2.
  rewrite (bind_Raise _ _ _ _ _ _ Hrun).
  cbn [outcome final calls fst snd]. rewrite writes_app, Hw, Hreads. auto.
Qed.

End MoreOfMultus.

(** X2 on concrete data. *)
Lemma patch_all_or_nothing_witness :
  writes (calls (patch_statefulset demo_env "upf" demo_annotations ["bessd"; "sidecar"]
                   demo_cluster)) = [] /\
  final (patch_statefulset demo_env "upf" demo_annotations ["bessd"; "sidecar"] demo_cluster)
  = demo_cluster /\
  exists e, outcome (patch_statefulset demo_env "upf" demo_annotations ["bessd"; "sidecar"]
                       demo_cluster) = Raise e.
Proof.
  apply (proj2 (proj2 (patch_all_or_nothing demo_env "upf" demo_annotations
                         ["bessd"; "sidecar"] demo_cluster)) demo_statefulset "sidecar").
  - discriminate.
  - split; reflexivity.
  - right. left. reflexivity.
  - reflexivity.
Defined.

(** X3 on concrete data. *)
Lemma patch_establishes_witness :
  (forall nad, In nad (network_attachment_definitions demo_lib) ->
     present demo_env (metadata_name nad) patched_cluster) /\
  outcome (statefulset_is_patched demo_env (app_name demo_lib) (network_annotations demo_lib)
             (containers_requiring_net_admin_capability demo_lib) patched_cluster) = Ok true.
Proof.
  apply (patch_establishes demo_env demo_lib demo_cluster patched_cluster
           (calls (_patch demo_env demo_lib demo_cluster))).
  - vm_compute. reflexivity.
  - discriminate.
  - apply run_returned. vm_compute. reflexivity.
Defined.

(** X5 on concrete data. *)
Lemma on_remove_removes_witness :
  (forall nad, In nad (network_attachment_definitions demo_lib) ->
     nads (final (_on_remove demo_env demo_lib stocked_cluster)) !! metadata_name nad = None) /\
  (forall n, (forall nad, In nad (network_attachment_definitions demo_lib) ->
                metadata_name nad <> n) ->
     nads (final (_on_remove demo_env demo_lib stocked_cluster)) !! n
     = nads stocked_cluster !! n) /\
  statefulsets (final (_on_remove demo_env demo_lib stocked_cluster))
  = statefulsets stocked_cluster.
Proof.
  apply (on_remove_removes demo_env demo_lib stocked_cluster _
           (calls (_on_remove demo_env demo_lib stocked_cluster))).
  - intros nad _. discriminate.
  - apply run_returned. vm_compute. reflexivity.
Defined.

(** X6 on concrete data. *)
Lemma container_index_witness :
  final (get_container_index_from_name demo_env "upf" "bessd" demo_cluster) = demo_cluster /\
  match outcome (get_container_index_from_name demo_env "upf" "bessd" demo_cluster) with
  | Ok i =>
      (exists k, containers demo_statefulset !! i = Some k /\ container_name k = "bessd") /\
      (forall j k, j < i -> containers demo_statefulset !! j = Some k ->
                   container_name k <> "bessd")
  | Raise e =>
      e = KubernetesMultusError ("No container named " ++ "bessd" ++ " in statefulset") /\
      (forall k, In k (containers demo_statefulset) -> container_name k <> "bessd")
  | OutOfFuel => False
  end.
Proof.
  apply (container_index_first_match demo_env "upf" demo_statefulset "bessd" demo_cluster).
  split; reflexivity.
Defined.

(** X7 on concrete data. *)
Lemma is_patched_sound_witness :
  exists stored a value existing,
    reachable demo_env "upf" stored patched_cluster /\ annotations stored = Some a /\
    a !! networks_key = Some value /\ json_loads demo_env value = Some existing /\
    py_eq existing (annotation_dicts demo_annotations) = true /\
    forall c, In c ["bessd"] ->
      exists i k sc caps l,
        index_of_container c (containers stored) = Some i /\
        containers stored !! i = Some k /\ securityContext k = Some sc /\
        capabilities sc = Some caps /\ add caps = Some l /\ "NET_ADMIN" ∈ l.
Proof.
  apply (is_patched_sound demo_env "upf" demo_annotations ["bessd"] patched_cluster).
  vm_compute. reflexivity.
Defined.

(** X8 on concrete data. *)
Lemma is_patched_raises_witness :
  outcome (statefulset_is_patched demo_env "upf" demo_annotations ["bessd"] annotated_cluster)
  = Raise AttributeError /\
  outcome (_patch demo_env bare_lib annotated_cluster) = Raise AttributeError /\
  final (_patch demo_env bare_lib annotated_cluster) = annotated_cluster /\
  writes (calls (_patch demo_env bare_lib annotated_cluster)) = [].
Proof.
  destruct (is_patched_raises_without_capabilities demo_env "upf" demo_annotations
              "bessd" [] annotated_cluster annotated_statefulset
              {[ networks_key := print_json (annotation_dicts demo_annotations) ]}
              (print_json (annotation_dicts demo_annotations))
              (annotation_dicts demo_annotations) 0 (demo_container "bessd" None)
              {| capabilities := None;
                 security_rest := JObj [("privileged", JBool false)] |})
    as [Hcheck Hpatch]; try (vm_compute; reflexivity).
  - split; reflexivity.
  - split; [exact Hcheck|].
    apply (Hpatch bare_lib); try reflexivity. intros nad [].
Defined.

End MultusTheory.

(** * charm.py: properties *)

Module CharmTheory.
Import Charm.

Arguments split : simpl never.

Section Bootstrap.
Context (env : Env).

Local Abbreviation after_bootstrap := (Charm.after_bootstrap env).

Lemma exec_fault_run argv w :
  exec_fault env argv (clock w) = true ->
  container_exec env argv w
  = (Raise ExecError, advance (exec_duration env argv (clock w)) w, [Exec argv false]).
Proof. intros H. unfold container_exec. rewrite H. reflexivity. Qed.

Lemma exec_effect_run argv w k :
  exec_fault env argv (clock w) = false ->
  command_effect argv (bessd w) = Some k ->
  container_exec env argv w
  = (Ok tt, set_container bessd_container k (advance (exec_duration env argv (clock w)) w),
     [Exec argv true]).
Proof. intros H Hk. unfold container_exec. rewrite H. cbn. rewrite Hk. reflexivity. Qed.

Lemma bessctl_effect k : command_effect bessctl_argv k = Some k.
Proof. reflexivity. Qed.

Lemma once_marker w :
  path_exists marker_path (bessd w) = true ->
  configure_bess_once env w = (Ok tt, w, [Exists bessd_container marker_path true]).
Proof.
  intros H. unfold configure_bess_once, _is_bessctl_executed, container_exists, bind.
  cbn [container_of]. rewrite H. reflexivity.
Qed.

Lemma once_fault w :
  path_exists marker_path (bessd w) = false ->
  exec_fault env bessctl_argv (clock w) = true ->
  configure_bess_once env w
  = (Raise ExecError, advance (exec_duration env bessctl_argv (clock w)) w,
     [Exists bessd_container marker_path false; Exec bessctl_argv false]).
Proof.
  intros H Hf. unfold configure_bess_once, _is_bessctl_executed, container_exists.
  unfold bind at 1. cbn [container_of]. rewrite H. cbn [negb].
  unfold _exec_command_in_bessd_workload.
  erewrite bind_Raise by (apply exec_fault_run, Hf). reflexivity.
Qed.

Lemma once_success w :
  path_exists marker_path (bessd w) = false ->
  exec_fault env bessctl_argv (clock w) = false ->
  configure_bess_once env w
  = (Ok tt, after_bootstrap w,
     [Exists bessd_container marker_path false; Exec bessctl_argv true;
      Push bessd_container marker_path marker_message]).
Proof.
  intros H Hf. unfold configure_bess_once, _is_bessctl_executed, container_exists.
  unfold bind at 1. cbn [container_of]. rewrite H. cbn [negb].
  unfold _exec_command_in_bessd_workload.
  erewrite bind_Ok by (apply exec_effect_run; [exact Hf|apply bessctl_effect]).
  reflexivity.
Qed.

Lemma loop_step fuel t0 w :
  bess_configuration_loop env (S fuel) t0 w =
  if Nat.leb (clock w - t0) timeout then
    if path_exists marker_path (bessd w) then
      (Ok tt, w, [Exists bessd_container marker_path true])
    else if exec_fault env bessctl_argv (clock w) then
      let w1 := advance 2 (advance (exec_duration env bessctl_argv (clock w)) w) in
      (outcome (bess_configuration_loop env fuel t0 w1),
       final (bess_configuration_loop env fuel t0 w1),
       [Exists bessd_container marker_path false; Exec bessctl_argv false]
       ++ calls (bess_configuration_loop env fuel t0 w1))
    else
      (Ok tt, after_bootstrap w,
       [Exists bessd_container marker_path false; Exec bessctl_argv true;
        Push bessd_container marker_path marker_message])
  else (Raise timed_out, w, []).
Proof.
  cbn [bess_configuration_loop]. unfold bind at 1, time_time, gets.
  destruct (Nat.leb (clock w - t0) timeout); [|reflexivity].
  unfold try_except.
  destruct (path_exists marker_path (bessd w)) eqn:Hm.
  - rewrite once_marker by assumption. reflexivity.
  - destruct (exec_fault env bessctl_argv (clock w)) eqn:Hf.
    + rewrite once_fault by assumption.
      unfold bind, time_sleep, modify.
      destruct (bess_configuration_loop env fuel t0 _) as [[r w2] t2]. reflexivity.
    + rewrite once_success by assumption. reflexivity.
Qed.

(** With enough fuel the loop never stops for want of fuel. *)
Lemma loop_total fuel : forall t0 w,
  t0 <= clock w -> timeout + 2 - (clock w - t0) < 2 * fuel ->
  outcome (bess_configuration_loop env fuel t0 w) <> OutOfFuel.
Proof.
  induction fuel as [|fuel IH]; intros t0 w Ht Hfuel; [lia|].
  rewrite loop_step.
  destruct (Nat.leb (clock w - t0) timeout) eqn:Hle; [|discriminate].
  destruct (path_exists _ _); [discriminate|].
  destruct (exec_fault _ _ _); [|discriminate].
  cbn zeta. unfold outcome at 1. cbn [fst]. apply IH.
  - cbn [clock advance]. lia.
  - apply Nat.leb_le in Hle. unfold timeout in *. cbn [clock advance]. lia.
Qed.

(** A marker is pushed only right after the command succeeded, and then the
    runner returns. *)
Lemma loop_push fuel : forall t0 w c p s,
  In (Push c p s) (calls (bess_configuration_loop env fuel t0 w)) ->
  exists pre,
    calls (bess_configuration_loop env fuel t0 w)
    = pre ++ [Exec bessctl_argv true; Push bessd_container marker_path marker_message] /\
    Push c p s = Push bessd_container marker_path marker_message /\
    outcome (bess_configuration_loop env fuel t0 w) = Ok tt.
Proof.
  induction fuel as [|fuel IH]; intros t0 w c p s Hin; [destruct Hin|].
  rewrite loop_step in *.
  destruct (Nat.leb (clock w - t0) timeout); [|destruct Hin].
  destruct (path_exists _ _).
  { destruct Hin as [?|[]]; discriminate. }
  destruct (exec_fault _ _ _).
  - cbn zeta in *. unfold calls at 1 in Hin. cbn [snd] in Hin.
    destruct Hin as [?|[?|Hin]]; try discriminate.
    destruct (IH _ _ _ _ _ Hin) as (pre & Hpre & Heq & Hout).
    unfold calls at 1, outcome at 1. cbn [fst snd]. rewrite Hpre.
    eexists (_ :: _ :: pre). split; [reflexivity|]. split; assumption.
  - unfold calls in *. cbn [snd] in *.
    destruct Hin as [?|[?|[Heq|[]]]]; try discriminate.
    exists [Exists bessd_container marker_path false]. split; [reflexivity|].
    split; [symmetry; assumption|reflexivity].
Qed.

(** When the command fails every time, the loop ends in the timeout. *)
Lemma loop_always_failing fuel : forall t0 w,
  (forall t, exec_fault env bessctl_argv t = true) ->
  path_exists marker_path (bessd w) = false ->
  t0 <= clock w -> timeout + 2 - (clock w - t0) < 2 * fuel ->
  exists w' t,
    bess_configuration_loop env fuel t0 w = (Raise timed_out, w', t) /\
    timeout < clock w' - t0 /\ bessd w' = bessd w /\
    forall c p s, ~ In (Push c p s) t.
Proof.
  induction fuel as [|fuel IH]; intros t0 w Hfail Hm Ht Hfuel; [lia|].
  rewrite loop_step, Hm, Hfail.
  destruct (Nat.leb (clock w - t0) timeout) eqn:Hle.
  - cbn zeta.
    set (w1 := advance 2 (advance (exec_duration env bessctl_argv (clock w)) w)).
    destruct (IH t0 w1 Hfail) as (w' & t & Hrun & Hclock & Hbessd & Hpush).
    + exact Hm.
    + unfold w1. cbn [clock advance]. lia.
    + apply Nat.leb_le in Hle. unfold timeout in *. unfold w1. cbn [clock advance]. lia.
    + rewrite Hrun. exists w', (Exists bessd_container marker_path false :: Exec bessctl_argv false :: t).
      split; [reflexivity|]. split; [assumption|]. split; [assumption|].
      intros c p s [?|[?|Hin]]; try discriminate. exact (Hpush _ _ _ Hin).
  - apply Nat.leb_gt in Hle. exists w, []. split; [reflexivity|].
    split; [assumption|]. split; [reflexivity|]. intros ? ? ? [].
Qed.

(** C5.  [_run_bess_configuration]: with the marker present the command
    is not run; when every run of the command is cut short, the runner
    raises the timeout error once more than 300 have elapsed and leaves the
    container as it was, without a marker; a marker is written only right
    after a run of the command that succeeded; and the loop always ends. *)
Theorem bootstrap_runner w :
  (path_exists marker_path (bessd w) = true ->
   _run_bess_configuration env w = (Ok tt, w, [Exists bessd_container marker_path true])) /\
  (path_exists marker_path (bessd w) = false ->
   (forall t, exec_fault env bessctl_argv t = true) ->
   exists w' t,
     _run_bess_configuration env w = (Raise timed_out, w', t) /\
     timeout < clock w' - clock w /\ bessd w' = bessd w /\
     forall c p s, ~ In (Push c p s) t) /\
  (forall c p s,
     In (Push c p s) (calls (_run_bess_configuration env w)) ->
     exists pre,
       calls (_run_bess_configuration env w)
       = pre ++ [Exec bessctl_argv true; Push bessd_container marker_path marker_message] /\
       Push c p s = Push bessd_container marker_path marker_message /\
       outcome (_run_bess_configuration env w) = Ok tt) /\
  outcome (_run_bess_configuration env w) <> OutOfFuel.
Proof.
  assert (Hrun : _run_bess_configuration env w
                 = bess_configuration_loop env loop_fuel (clock w) w).
  { unfold _run_bess_configuration, bind, time_time, gets.
    destruct (bess_configuration_loop env loop_fuel (clock w) w) as [[r w'] t]. reflexivity. }
  rewrite Hrun. split; [|split; [|split]].
  - intros Hm. change loop_fuel with (S 151). rewrite loop_step, Hm.
    rewrite Nat.sub_diag. reflexivity.
  - intros Hm Hfail. apply loop_always_failing; try assumption; [lia|].
    rewrite Nat.sub_diag. unfold timeout, loop_fuel. cbn. lia.
  - intros c p s. apply loop_push.
  - apply loop_total; [lia|]. rewrite Nat.sub_diag. unfold timeout, loop_fuel. cbn. lia.
Qed.

End Bootstrap.

Section Settling.
Context (env : Env).

Lemma interventions_app t1 t2 : interventions (t1 ++ t2) = interventions t1 ++ interventions t2.
Proof. apply List.filter_app. Qed.

Lemma writes_of_app t1 t2 : writes (t1 ++ t2) = writes t1 ++ writes t2.
Proof. apply List.filter_app. Qed.

Lemma at_clock_id w : at_clock (clock w) (bessd w) w = w.
Proof. destruct w. reflexivity. Qed.

Lemma with_iptables_id k : with_iptables (iptables k) k = k.
Proof. destruct k. reflexivity. Qed.

Lemma with_plan_services_id k : with_plan_services (plan_services k) k = k.
Proof. destruct k. reflexivity. Qed.

Lemma default_route_effect config k :
  command_effect (split (default_route_command config)) k
  = Some (with_routes ({[installed_route (default_route_command config)]} ∪ routes k) k).
Proof. reflexivity. Qed.

Lemma ran_route_effect config k :
  command_effect (split (ran_route_command config)) k
  = Some (with_routes ({[installed_route (ran_route_command config)]} ∪ routes k) k).
Proof. reflexivity. Qed.

Lemma check_argv :
  split iptables_check_command = "iptables-legacy" :: "--check" :: icmp_rule.
Proof. vm_compute. reflexivity. Qed.

Lemma insert_argv :
  split iptables_insert_command = "iptables-legacy" :: "-I" :: icmp_rule.
Proof. vm_compute. reflexivity. Qed.

Lemma check_effect k :
  command_effect (split iptables_check_command) k
  = if bool_decide (icmp_rule ∈ iptables k) then Some k else None.
Proof. rewrite check_argv. reflexivity. Qed.

Lemma insert_effect k :
  command_effect (split iptables_insert_command) k
  = Some (with_iptables (icmp_rule :: iptables k) k).
Proof. rewrite insert_argv. reflexivity. Qed.

Lemma exec_ok argv w k :
  (forall t, exec_fault env argv t = false) ->
  command_effect argv (bessd w) = Some k ->
  exists c, container_exec env argv w = (Ok tt, at_clock c k w, [Exec argv true]).
Proof.
  intros Hf Hk. eexists. rewrite (exec_effect_run env argv w k (Hf _) Hk). reflexivity.
Qed.

Lemma exec_failed argv w :
  (forall t, exec_fault env argv t = false) ->
  command_effect argv (bessd w) = None ->
  exists c, container_exec env argv w
            = (Raise ExecError, at_clock c (bessd w) w, [Exec argv false]).
Proof.
  intros Hf Hk. eexists. unfold container_exec. rewrite Hf. cbn [bessd advance].
  rewrite Hk. reflexivity.
Qed.

Lemma default_route_run config w :
  commands_succeed env config ->
  exists c,
    _create_default_route env config w
    = (Ok tt,
       at_clock c (with_routes ({[installed_route (default_route_command config)]}
                                ∪ routes (bessd w)) (bessd w)) w,
       [Exec (split (default_route_command config)) true]).
Proof.
  intros Hok. unfold _create_default_route, _exec_command_in_bessd_workload.
  exact (exec_ok _ w _ (fun t => proj1 (Hok t)) (default_route_effect config _)).
Qed.

Lemma ran_route_run config w :
  commands_succeed env config ->
  exists c,
    _create_ran_route env config w
    = (Ok tt,
       at_clock c (with_routes ({[installed_route (ran_route_command config)]}
                                ∪ routes (bessd w)) (bessd w)) w,
       [Exec (split (ran_route_command config)) true]).
Proof.
  intros Hok. unfold _create_ran_route, _exec_command_in_bessd_workload.
  exact (exec_ok _ w _ (fun t => proj1 (proj2 (Hok t))) (ran_route_effect config _)).
Qed.

Lemma iptables_run config w :
  commands_succeed env config ->
  exists c,
    reconcile_ip_tables_rule env w
    = (Ok tt, at_clock c (with_rule (bessd w)) w,
       Exec (split iptables_check_command) (bool_decide (icmp_rule ∈ iptables (bessd w)))
       :: (if bool_decide (icmp_rule ∈ iptables (bessd w)) then []
           else [Exec (split iptables_insert_command) true])).
Proof.
  intros Hok. unfold reconcile_ip_tables_rule, _ip_tables_rule_exists, _create_ip_tables_rule,
    _exec_command_in_bessd_workload, with_rule.
  pose proof (check_effect (bessd w)) as Hc.
  destruct (bool_decide (icmp_rule ∈ iptables (bessd w))) eqn:Hrule.
  - destruct (exec_ok _ w _ (fun t => proj1 (proj2 (proj2 (Hok t)))) Hc) as [c1 H1].
    exists c1. erewrite bind_Ok; cycle 1.
    { unfold try_except. erewrite bind_Ok by exact H1. reflexivity. }
    rewrite with_iptables_id. reflexivity.
  - destruct (exec_failed _ w (fun t => proj1 (proj2 (proj2 (Hok t)))) Hc) as [c1 H1].
    destruct (exec_ok _ (at_clock c1 (bessd w) w) _
                (fun t => proj2 (proj2 (proj2 (Hok t)))) (insert_effect _)) as [c2 H2].
    exists c2. erewrite bind_Ok; cycle 1.
    { unfold try_except. erewrite bind_Raise by exact H1. reflexivity. }
    cbn [when negb outcome final calls fst snd app]. rewrite H2. reflexivity.
Qed.

Lemma layer_run config restart w :
  reconcile_pebble_layer config restart w
  = (Ok (restart
         || bool_decide (plan_services (bessd w) ≠ services (_bessd_pebble_layer config))),
     at_clock (clock w) (with_layer config (bessd w)) w,
     GetPlan bessd_container (plan_services (bessd w))
     :: (if bool_decide (plan_services (bessd w) ≠ services (_bessd_pebble_layer config))
         then [AddLayer bessd_container "bessd" (_bessd_pebble_layer config)]
         else [])).
Proof.
  unfold reconcile_pebble_layer, container_get_plan, container_add_layer, with_layer.
  unfold bind at 1. cbn [container_of].
  destruct (bool_decide (plan_services (bessd w) ≠ _)).
  - rewrite orb_true_r. reflexivity.
  - rewrite orb_false_r, with_plan_services_id, at_clock_id. reflexivity.
Qed.

(** Lines 576-584 when no command is cut short. *)
Lemma settle_run config (flags : bool * bool) w :
  commands_succeed env config ->
  exists c,
    (bind (_create_default_route env config) (fun _ =>
     bind (_create_ran_route env config) (fun _ =>
     bind (reconcile_ip_tables_rule env) (fun _ =>
     bind (reconcile_pebble_layer config (fst flags)) (fun restart =>
     ret (restart, snd flags)))))) w
    = (Ok (fst flags
           || bool_decide (plan_services (bessd w) ≠ services (_bessd_pebble_layer config)),
           snd flags),
       at_clock c (settled config (bessd w)) w,
       settling_calls config (bessd w)).
Proof.
  intros Hok.
  destruct (default_route_run config w Hok) as [c1 H1].
  erewrite bind_Ok by exact H1. cbn [outcome final calls fst snd].
  match goal with |- context [bind (_create_ran_route env config) _ ?w1] =>
    destruct (ran_route_run config w1 Hok) as [c2 H2] end.
  erewrite bind_Ok by exact H2. cbn [outcome final calls fst snd].
  match goal with |- context [bind (reconcile_ip_tables_rule env) _ ?w2] =>
    destruct (iptables_run config w2 Hok) as [c3 H3] end.
  erewrite bind_Ok by exact H3. cbn [outcome final calls fst snd].
  erewrite bind_Ok by apply layer_run.
  cbn [outcome final calls fst snd ret].
  exists c3. rewrite app_nil_r. reflexivity.
Qed.

End Settling.

Section FileStage.
Context (env : Env).

Lemma path_exists_false path k :
  path_exists path k = false -> files k !! path = None /\ path ∉ directories k.
Proof.
  unfold path_exists. intros H. apply orb_false_elim in H as [H1 H2].
  apply bool_decide_eq_false in H1, H2. split; [|assumption].
  destruct (files k !! path); [|reflexivity]. exfalso. apply H1. eauto.
Qed.

Lemma path_exists_file path k content :
  files k !! path = Some content -> path_exists path k = true.
Proof.
  intros H. unfold path_exists. apply orb_true_intro. left.
  apply bool_decide_eq_true. eauto.
Qed.

Lemma dict_get_member key v members :
  List.NoDup (map fst members) -> In (key, v) members -> dict_get key members = v.
Proof.
  induction members as [|[k u] rest IH]; intros Hkeys Hin; [destruct Hin|].
  cbn [map fst] in Hkeys. apply List.NoDup_cons_iff in Hkeys as [Hk Hrest].
  cbn [dict_get]. destruct (String.eqb k key) eqn:He.
  - apply String.eqb_eq in He. subst k.
    destruct Hin as [Hin|Hin]; [congruence|].
    exfalso. apply Hk. apply (in_map fst) in Hin. exact Hin.
  - apply String.eqb_neq in He.
    destruct Hin as [Hin|Hin]; [congruence|]. apply IH; assumption.
Qed.

Lemma dict_get_absent key members :
  (forall v, ~ In (key, v) members) -> dict_get key members = JNull.
Proof.
  induction members as [|[k u] rest IH]; intros Hno; [reflexivity|].
  cbn [dict_get]. destruct (String.eqb k key) eqn:He.
  - apply String.eqb_eq in He. subst k. exfalso. apply (Hno u). left. reflexivity.
  - apply IH. intros v Hin. apply (Hno v). right. exact Hin.
Qed.

Lemma dict_get_cases (key : string) (members : list (string * JSON)) :
  (exists v, In (key, v) members) \/ (forall v, ~ In (key, v) members).
Proof.
  induction members as [|[k u] rest IH]; [right; intros v []|].
  destruct (String.eqb k key) eqn:He.
  - apply String.eqb_eq in He. subst k. left. exists u. left. reflexivity.
  - apply String.eqb_neq in He. destruct IH as [[v Hv]|Hno].
    + left. exists v. right. exact Hv.
    + right. intros v [Hin|Hin]; [congruence|exact (Hno v Hin)].
Qed.

(** Python's [!=] between what a dictionary binds to [hwcksum] and a flag. *)
Lemma hwcksum_differs members (flag : bool) :
  List.NoDup (map fst members) ->
  py_ne (dict_get "hwcksum" members) (JBool flag) = true <->
  ~ (In ("hwcksum", JBool flag) members \/ In ("hwcksum", JInt (Z.b2z flag)) members).
Proof.
  intros Hkeys. unfold py_ne.
  destruct (dict_get_cases "hwcksum" members) as [[v Hv]|Hno].
  - rewrite (dict_get_member _ _ _ Hkeys Hv). split.
    + intros Hne [Hin|Hin];
        pose proof (dict_get_member _ _ _ Hkeys Hin) as H1;
        rewrite (dict_get_member _ _ _ Hkeys Hv) in H1; subst v;
        cbn [py_eq] in Hne.
      * rewrite Bool.eqb_reflx in Hne. discriminate.
      * rewrite Z.eqb_refl in Hne. discriminate.
    + intros Hnot. destruct v as [|b|n|x|l|m]; cbn [py_eq]; try reflexivity.
      * destruct (Bool.eqb b flag) eqn:He; [|reflexivity].
        apply Bool.eqb_prop in He. subst b. exfalso. apply Hnot. left. exact Hv.
      * destruct (Z.eqb n (Z.b2z flag)) eqn:He; [|reflexivity].
        apply Z.eqb_eq in He. subst n. exfalso. apply Hnot. right. exact Hv.
  - rewrite (dict_get_absent _ _ Hno). cbn [py_eq negb]. split; [|reflexivity].
    intros _ [Hin|Hin]; exact (Hno _ Hin).
Qed.

Lemma hwcksum_absent config w :
  files (bessd w) !! config_file_path = None ->
  _hwcksum_config_matches_pod_config env config w
  = (Ok true, w, [Pull bessd_container config_file_path None]).
Proof.
  intros H. unfold _hwcksum_config_matches_pod_config, try_except, container_pull, bind.
  cbn [container_of]. rewrite H. reflexivity.
Qed.

Lemma hwcksum_present config w doc members :
  files (bessd w) !! config_file_path = Some doc ->
  json_loads env doc = Some (JObj members) ->
  _hwcksum_config_matches_pod_config env config w
  = (Ok (py_ne (dict_get "hwcksum" members) (JBool (enable_hw_checksum config))), w,
     [Pull bessd_container config_file_path (Some doc)]).
Proof.
  intros H Hj. unfold _hwcksum_config_matches_pod_config, try_except, container_pull, bind.
  cbn [container_of]. rewrite H, Hj. reflexivity.
Qed.

Lemma file_absent config content w :
  path_exists config_file_path (bessd w) = false ->
  reconcile_config_file env config content w
  = (Ok (true, true), at_clock (clock w) (with_config content (bessd w)) w,
     [Exists bessd_container config_file_path false;
      Pull bessd_container config_file_path None;
      Push bessd_container config_file_path content]).
Proof.
  intros H. destruct (path_exists_false _ _ H) as [Hf _].
  unfold reconcile_config_file, _bessd_config_file_is_written, container_exists.
  unfold bind at 1. cbn [container_of]. rewrite H. cbn [negb].
  unfold bind at 1. cbn [ret].
  erewrite bind_Ok by (apply hwcksum_absent, Hf). reflexivity.
Qed.

Lemma file_unchanged config content w :
  files (bessd w) !! config_file_path = Some content ->
  reconcile_config_file env config content w
  = (Ok (false, false), w,
     [Exists bessd_container config_file_path true;
      Pull bessd_container config_file_path (Some content)]).
Proof.
  intros H. unfold reconcile_config_file, _bessd_config_file_is_written, container_exists.
  unfold bind at 1. cbn [container_of]. rewrite (path_exists_file _ _ _ H). cbn [negb].
  unfold _bessd_config_file_content_matches, container_pull, bind. cbn [container_of].
  rewrite H, String.eqb_refl. reflexivity.
Qed.

Lemma file_changed config content w doc members :
  files (bessd w) !! config_file_path = Some doc ->
  doc <> content ->
  json_loads env doc = Some (JObj members) ->
  reconcile_config_file env config content w
  = (Ok (true, py_ne (dict_get "hwcksum" members) (JBool (enable_hw_checksum config))),
     at_clock (clock w) (with_config content (bessd w)) w,
     [Exists bessd_container config_file_path true;
      Pull bessd_container config_file_path (Some doc);
      Pull bessd_container config_file_path (Some doc);
      Push bessd_container config_file_path content]).
Proof.
  intros H Hne Hj. unfold reconcile_config_file, _bessd_config_file_is_written, container_exists.
  unfold bind at 1. cbn [container_of]. rewrite (path_exists_file _ _ _ H). cbn [negb].
  erewrite bind_Ok; cycle 1.
  { unfold _bessd_config_file_content_matches, container_pull, bind. cbn [container_of].
    rewrite H. apply String.eqb_neq in Hne. rewrite Hne. reflexivity. }
  cbn [outcome final calls fst snd negb].
  erewrite bind_Ok by (eapply hwcksum_present; eassumption). reflexivity.
Qed.

Lemma action_run flags w :
  apply_restart_or_recreate env flags w = (Ok tt, w, action_calls env flags).
Proof. destruct flags as [[|] [|]]; reflexivity. Qed.

Lemma action_interventions flags : interventions (action_calls env flags) = action_calls env flags.
Proof. destruct flags as [[|] [|]]; reflexivity. Qed.

Lemma settling_interventions config k : interventions (settling_calls config k) = [].
Proof.
  unfold settling_calls. destruct (bool_decide (icmp_rule ∈ _)), (bool_decide (plan_services k ≠ _));
    reflexivity.
Qed.

Lemma loop_interventions fuel : forall t0 w,
  interventions (calls (bess_configuration_loop env fuel t0 w)) = [].
Proof.
  induction fuel as [|fuel IH]; intros t0 w; [reflexivity|].
  rewrite loop_step.
  destruct (Nat.leb _ _); [|reflexivity].
  destruct (path_exists _ _); [reflexivity|].
  destruct (exec_fault _ _ _); [|reflexivity].
  cbn zeta. unfold calls at 1. cbn [snd]. rewrite interventions_app. rewrite IH. reflexivity.
Qed.

Lemma run_bess_is_loop w :
  _run_bess_configuration env w = bess_configuration_loop env loop_fuel (clock w) w.
Proof.
  unfold _run_bess_configuration, bind, time_time, gets.
  destruct (bess_configuration_loop env loop_fuel (clock w) w) as [[r w'] t]. reflexivity.
Qed.

Lemma run_bess_interventions w :
  interventions (calls (_run_bess_configuration env w)) = [].
Proof. rewrite run_bess_is_loop. apply loop_interventions. Qed.

(** The rest of the pass once the configuration file is dealt with. *)
Lemma state_run config w flags w0 t0 :
  commands_succeed env config ->
  reconcile_config_file env config (rendered_config env config) w = (Ok flags, w0, t0) ->
  exists c,
    reconcile_bessd_state env config w
    = (Ok (fst flags
           || bool_decide (plan_services (bessd w0) ≠ services (_bessd_pebble_layer config)),
           snd flags),
       at_clock c (settled config (bessd w0)) w0,
       t0 ++ settling_calls config (bessd w0)).
Proof.
  intros Hok Hfile. destruct (settle_run env config flags w0 Hok) as [c Hc].
  exists c. unfold reconcile_bessd_state. cbn zeta.
  erewrite bind_Ok by exact Hfile. rewrite Hc. reflexivity.
Qed.

Lemma pass_run config w flags w1 t1 :
  reconcile_bessd_state env config w = (Ok flags, w1, t1) ->
  _configure_bessd_workload env config w
  = (outcome (_run_bess_configuration env w1), final (_run_bess_configuration env w1),
     t1 ++ action_calls env flags ++ calls (_run_bess_configuration env w1)).
Proof.
  intros H. unfold _configure_bessd_workload.
  erewrite bind_Ok by exact H.
  erewrite bind_Ok by apply action_run. reflexivity.
Qed.

Lemma pass_interventions config w flags w1 t1 :
  reconcile_bessd_state env config w = (Ok flags, w1, t1) ->
  interventions t1 = [] ->
  interventions (calls (_configure_bessd_workload env config w)) = action_calls env flags.
Proof.
  intros H Ht. rewrite (pass_run _ _ _ _ _ H). unfold calls at 1. cbn [snd].
  rewrite !interventions_app, Ht, action_interventions, run_bess_interventions.
  cbn [app]. apply app_nil_r.
Qed.

End FileStage.

Section Frame.
Context (env : Env).





















(** *** What lines 556-584 never do *)

Lemma plain_ret {A} (a : A) : plain (ret a).
Proof. intros w. split; [reflexivity|discriminate]. Qed.

Lemma plain_raise {A} e : plain (@raise World Call A e).
Proof. intros w. split; [reflexivity|discriminate]. Qed.

Lemma plain_bind {A B} (m : M World Call A) (k : A -> M World Call B) :
  plain m -> (forall a, plain (k a)) -> plain (bind m k).
Proof.
  intros Hm Hk w. destruct (Hm w) as [Hi Ho]. unfold bind.
  destruct (m w) as [[[a|e|] w1] t]; cbn [outcome calls fst snd] in *.
  - destruct (Hk a w1) as [Hi2 Ho2]. destruct (k a w1) as [[r w2] t2].
    cbn [outcome calls fst snd] in *. rewrite interventions_app, Hi, Hi2.
    split; [reflexivity|exact Ho2].
  - split; [exact Hi|discriminate].
  - contradiction.
Qed.

Lemma plain_try {A} (m : M World Call A) handler :
  plain m -> (forall e h, handler e = Some h -> plain h) -> plain (try_except m handler).
Proof.
  intros Hm Hh w. destruct (Hm w) as [Hi Ho]. unfold try_except.
  destruct (m w) as [[[a|e|] w1] t]; cbn [outcome calls fst snd] in *.
  - split; [exact Hi|discriminate].
  - destruct (handler e) as [h|] eqn:He; [|split; [exact Hi|discriminate]].
    destruct (Hh e h He w1) as [Hi2 Ho2]. destruct (h w1) as [[r w2] t2].
    cbn [outcome calls fst snd] in *. rewrite interventions_app, Hi, Hi2.
    split; [reflexivity|exact Ho2].
  - contradiction.
Qed.

Lemma plain_exec argv : plain (container_exec env argv).
Proof.
  intros w. unfold container_exec.
  destruct (exec_fault env argv (clock w)); [split; [reflexivity|discriminate]|].
  destruct (command_effect argv _); split; try reflexivity; discriminate.
Qed.

Lemma plain_pull c path : plain (container_pull c path).
Proof.
  intros w. unfold container_pull.
  destruct (files (container_of c w) !! path); split; try reflexivity; discriminate.
Qed.

Lemma plain_hwcksum config : plain (_hwcksum_config_matches_pod_config env config).
Proof.
  unfold _hwcksum_config_matches_pod_config.
  apply plain_bind.
  - apply plain_try.
    + apply plain_bind; [apply plain_pull|]. intros text.
      destruct (json_loads env text); [apply plain_ret|apply plain_raise].
    + intros e h He. destruct e; try discriminate. injection He as <-. apply plain_ret.
  - intros [| | | | |members]; try apply plain_raise. apply plain_ret.
Qed.

Lemma plain_config_file config content : plain (reconcile_config_file env config content).
Proof.
  unfold reconcile_config_file.
  apply plain_bind; [intros w; split; [reflexivity|discriminate]|]. intros written.
  apply plain_bind.
  { destruct (negb written); [apply plain_ret|].
    apply plain_bind; [|intros; apply plain_ret].
    unfold _bessd_config_file_content_matches.
    apply plain_bind; [apply plain_pull|]. intros existing_content.
    destruct (negb _); apply plain_ret. }
  intros differs. destruct differs; [|apply plain_ret].
  apply plain_bind; [apply plain_hwcksum|]. intros recreate_pod.
  apply plain_bind; [intros w; split; [reflexivity|discriminate]|].
  intros; apply plain_ret.
Qed.

Lemma plain_state config : plain (reconcile_bessd_state env config).
Proof.
  unfold reconcile_bessd_state.
  apply plain_bind; [apply plain_config_file|]. intros flags.
  apply plain_bind; [apply plain_exec|]. intros _.
  apply plain_bind; [apply plain_exec|]. intros _.
  apply plain_bind.
  { unfold reconcile_ip_tables_rule.
    apply plain_bind.
    - apply plain_try.
      + apply plain_bind; [apply plain_exec|]. intros; apply plain_ret.
      + intros e h He. destruct e; try discriminate. injection He as <-. apply plain_ret.
    - intros rule_exists. destruct (negb rule_exists); cbn [when];
        [apply plain_exec|apply plain_ret]. }
  intros _.
  apply plain_bind; [|intros; apply plain_ret].
  unfold reconcile_pebble_layer.
  apply plain_bind; [intros w; split; [reflexivity|discriminate]|]. intros plan.
  destruct (bool_decide _); [|apply plain_ret].
  apply plain_bind; [intros w; split; [reflexivity|discriminate]|].
  intros; apply plain_ret.
Qed.


(** A pass, by the way lines 556-584 end. *)
Lemma pass_unfolded config w :
  _configure_bessd_workload env config w
  = match reconcile_bessd_state env config w with
    | (Ok flags, w1, t1) =>
        (outcome (_run_bess_configuration env w1), final (_run_bess_configuration env w1),
         t1 ++ action_calls env flags ++ calls (_run_bess_configuration env w1))
    | (Raise e, w1, t1) => (Raise e, w1, t1)
    | (OutOfFuel, w1, t1) => (OutOfFuel, w1, t1)
    end.
Proof.
  destruct (reconcile_bessd_state env config w) as [[[flags|e|] w1] t1] eqn:H.
  - apply (pass_run env _ _ _ _ _ H).
  - unfold _configure_bessd_workload. apply (bind_Raise _ _ _ _ _ _ H).
  - unfold _configure_bessd_workload, bind. rewrite H. reflexivity.
Qed.


(** The interventions of a pass are those its flags ask for, and there is
    none when lines 556-584 raise. *)
Lemma pass_interventions_any config w :
  interventions (calls (_configure_bessd_workload env config w))
  = match outcome (reconcile_bessd_state env config w) with
    | Ok flags => action_calls env flags
    | _ => []
    end.
Proof.
  rewrite pass_unfolded. destruct (plain_state config w) as [Hi _].
  destruct (reconcile_bessd_state env config w) as [[[flags|e|] w1] t1];
    cbn [outcome calls fst snd] in *; try exact Hi.
  rewrite !interventions_app, Hi, action_interventions, run_bess_interventions.
  apply app_nil_r.
Qed.

Lemma pass_raises config w e :
  outcome (reconcile_bessd_state env config w) = Raise e ->
  outcome (_configure_bessd_workload env config w) = Raise e.
Proof.
  rewrite pass_unfolded.
  destruct (reconcile_bessd_state env config w) as [[[flags|e'|] w1] t1];
    cbn [outcome fst]; congruence.
Qed.

(** The flags lines 556-584 return, from those of the file. *)
Lemma state_flags config w flags w0 t0 flags' w1 t1 :
  reconcile_config_file env config (rendered_config env config) w = (Ok flags, w0, t0) ->
  reconcile_bessd_state env config w = (Ok flags', w1, t1) ->
  snd flags' = snd flags /\ (fst flags = true -> fst flags' = true).
Proof.
  unfold reconcile_bessd_state. intros Hfile H.
  apply bind_inv_Ok in H as (f0 & w2 & t2 & t3 & Hfile' & H & ->).
  rewrite Hfile in Hfile'. injection Hfile' as <- <- <-.
  apply bind_inv_Ok in H as ([] & w3 & t4 & t5 & _ & H & ->).
  apply bind_inv_Ok in H as ([] & w4 & t6 & t7 & _ & H & ->).
  apply bind_inv_Ok in H as ([] & w5 & t8 & t9 & _ & H & ->).
  apply bind_inv_Ok in H as (restart & w6 & t10 & t11 & Hlayer & H & ->).
  injection H as <- <- <-. cbn [fst snd]. split; [reflexivity|].
  intros Hf. unfold reconcile_pebble_layer in Hlayer.
  apply bind_inv_Ok in Hlayer as (plan & w7 & t12 & t13 & _ & Hlayer & ->).
  destruct (bool_decide (plan ≠ services (_bessd_pebble_layer config))).
  - apply bind_inv_Ok in Hlayer as ([] & w8 & t14 & t15 & _ & Hlayer & ->).
    injection Hlayer as <- _ _. reflexivity.
  - injection Hlayer as <- _ _. exact Hf.
Qed.

Lemma restart_is_intervention c service_name t :
  In (Restart c service_name) t -> In (Restart c service_name) (interventions t).
Proof. intros H. apply List.filter_In. split; [exact H|reflexivity]. Qed.

Lemma delete_is_intervention pod t :
  In (DeletePod pod) t -> In (DeletePod pod) (interventions t).
Proof. intros H. apply List.filter_In. split; [exact H|reflexivity]. Qed.


End Frame.

Section Reconciler.
Context (env : Env).

Lemma paths_differ : marker_path <> config_file_path.
Proof. intros H. vm_compute in H. discriminate. Qed.

Lemma layer_not_empty config : (∅ : gmap string Service) ≠ services (_bessd_pebble_layer config).
Proof.
  intros H. apply (f_equal (fun m => m !! _routectl_service_name)) in H.
  cbn [services _bessd_pebble_layer] in H.
  rewrite lookup_empty, lookup_insert_eq in H. discriminate.
Qed.

Lemma route_writes config b :
  is_write (Exec (split (default_route_command config)) b) = true /\
  is_write (Exec (split (ran_route_command config)) b) = true.
Proof. split; reflexivity. Qed.

Lemma fixed_writes b :
  is_write (Exec (split iptables_check_command) b) = false /\
  is_write (Exec (split iptables_insert_command) b) = true /\
  is_write (Exec (split bessctl_command) b) = true.
Proof. rewrite check_argv, insert_argv. repeat split; reflexivity. Qed.

Lemma settling_writes config k :
  writes (settling_calls config k)
  = [Exec (split (default_route_command config)) true;
     Exec (split (ran_route_command config)) true]
    ++ (if bool_decide (icmp_rule ∈ iptables k) then []
        else [Exec (split iptables_insert_command) true])
    ++ (if bool_decide (plan_services k ≠ services (_bessd_pebble_layer config))
        then [AddLayer bessd_container "bessd" (_bessd_pebble_layer config)]
        else []).
Proof.
  unfold settling_calls.
  pose proof (route_writes config true) as [H1 H2].
  pose proof (fixed_writes (bool_decide (icmp_rule ∈ iptables k))) as (H3 & _ & _).
  pose proof (fixed_writes true) as (_ & H4 & _).
  set (a1 := split (default_route_command config)) in *.
  set (a2 := split (ran_route_command config)) in *.
  set (a3 := split iptables_check_command) in *.
  set (a4 := split iptables_insert_command) in *.
  clearbody a1 a2 a3 a4.
  unfold writes. rewrite !List.filter_app.
  cbn [List.filter].
  rewrite H1, H2, H3.
  destruct (bool_decide (icmp_rule ∈ iptables k)),
    (bool_decide (plan_services k ≠ services (_bessd_pebble_layer config))).
  all: cbn [List.filter app]; rewrite ?H4; cbn [is_write]; reflexivity.
Qed.

Lemma path_exists_settled path config k :
  path_exists path (settled config k) = path_exists path k.
Proof. reflexivity. Qed.

Lemma path_exists_with_config path content k :
  path <> config_file_path ->
  path_exists path (with_config content k) = path_exists path k.
Proof.
  intros H. unfold path_exists, with_config. cbn [files directories with_files].
  rewrite lookup_insert_ne by congruence. reflexivity.
Qed.

Lemma run_bess_marker w :
  path_exists marker_path (bessd w) = true ->
  _run_bess_configuration env w = (Ok tt, w, [Exists bessd_container marker_path true]).
Proof.
  intros Hm. rewrite run_bess_is_loop. change loop_fuel with (S 151).
  rewrite loop_step, Hm, Nat.sub_diag. reflexivity.
Qed.

Lemma run_bess_success w :
  path_exists marker_path (bessd w) = false ->
  (forall t, exec_fault env (split bessctl_command) t = false) ->
  _run_bess_configuration env w
  = (Ok tt, after_bootstrap env w,
     [Exists bessd_container marker_path false; Exec (split bessctl_command) true;
      Push bessd_container marker_path marker_message]).
Proof.
  intros Hm Hf. rewrite run_bess_is_loop. change loop_fuel with (S 151).
  rewrite loop_step, Hm, Hf, Nat.sub_diag. reflexivity.
Qed.

(** What the flags of the file make of a pass. *)
Lemma flags_decide config w flags w0 t0 :
  reconcile_config_file env config (rendered_config env config) w = (Ok flags, w0, t0) ->
  fst flags = true ->
  interventions (calls (_configure_bessd_workload env config w))
  = match outcome (reconcile_bessd_state env config w) with
    | Ok _ => action_calls env flags
    | _ => []
    end.
Proof.
  intros Hfile Hf. rewrite pass_interventions_any.
  destruct (reconcile_bessd_state env config w) as [[[flags'|e|] w1] t1] eqn:Hs;
    cbn [outcome fst]; try reflexivity.
  destruct (state_flags env _ _ _ _ _ _ _ _ Hfile Hs) as [Hsnd Hfst].
  unfold action_calls. rewrite Hsnd, (Hfst Hf), Hf. reflexivity.
Qed.

(** C10, as the code has it.  [_hwcksum_config_matches_pod_config]
    answers [True] when there is no stored document; when the stored
    document decodes to a dictionary, it answers [True] exactly when the
    dictionary does not bind [hwcksum] to the configured flag (or to the
    number Python holds equal to it).  A pass that finds no stored document
    sets both flags; it restarts no service, and it deletes the pod when
    lines 556-584 return, as they do when no command is cut short; when
    they raise, the pass has no intervention. *)
Theorem hwcksum_signal config w :
  (files (bessd w) !! config_file_path = None ->
   _hwcksum_config_matches_pod_config env config w
   = (Ok true, w, [Pull bessd_container config_file_path None])) /\
  (forall doc members,
     files (bessd w) !! config_file_path = Some doc ->
     json_loads env doc = Some (JObj members) ->
     List.NoDup (map fst members) ->
     exists answer : bool,
       _hwcksum_config_matches_pod_config env config w
       = (Ok answer, w, [Pull bessd_container config_file_path (Some doc)]) /\
       (answer = true <->
        ~ (In ("hwcksum", JBool (enable_hw_checksum config)) members \/
           In ("hwcksum", JInt (Z.b2z (enable_hw_checksum config))) members))) /\
  (path_exists config_file_path (bessd w) = false ->
   (exists w0 t0,
      reconcile_config_file env config (rendered_config env config) w
      = (Ok (true, true), w0, t0)) /\
   (forall c service_name,
      ~ In (Restart c service_name) (calls (_configure_bessd_workload env config w))) /\
   interventions (calls (_configure_bessd_workload env config w))
   = match outcome (reconcile_bessd_state env config w) with
     | Ok _ => [DeletePod (_pod_name env)]
     | _ => []
     end /\
   (commands_succeed env config ->
    exists w' t, reconcile_bessd_state env config w = (Ok (true, true), w', t))).
Proof.
  split; [apply hwcksum_absent|]. split.
  - intros doc members Hdoc Hj Hkeys.
    rewrite (hwcksum_present env config w doc members Hdoc Hj).
    eexists. split; [reflexivity|].
    apply hwcksum_differs, Hkeys.
  - intros Habsent.
    pose proof (file_absent env config (rendered_config env config) w Habsent) as Hfile.
    pose proof (flags_decide config w _ _ _ Hfile eq_refl) as Hint.
    cbn [action_calls fst snd] in Hint.
    split; [eauto|]. split; [|split; [exact Hint|]].
    + intros c service_name Hin. apply restart_is_intervention in Hin.
      rewrite Hint in Hin.
      destruct (outcome (reconcile_bessd_state env config w));
        [destruct Hin as [Hin|[]]; discriminate | destruct Hin | destruct Hin].
    + intros Hok.
      destruct (state_run env config w _ _ _ Hok Hfile) as [c Hstate].
      cbn [fst snd orb] in Hstate. eauto.
Qed.

(** C3, as the code has it.  When the stored document is the one
    rendered for the old configuration and the new configuration has the
    other checksum flag, the file stage sets both flags; the pass restarts
    no service, and it deletes the pod when lines 556-584 return, as they
    do when no command is cut short; when they raise, the pass has no
    intervention. *)
Theorem checksum_change_replaces_pod old new w :
  enable_hw_checksum new = negb (enable_hw_checksum old) ->
  files (bessd w) !! config_file_path = Some (rendered_config env old) ->
  (forall config, config = old \/ config = new ->
     exists members,
       json_loads env (rendered_config env config) = Some (JObj members) /\
       List.NoDup (map fst members) /\
       In ("hwcksum", JBool (enable_hw_checksum config)) members) ->
  (exists w0 t0,
     reconcile_config_file env new (rendered_config env new) w = (Ok (true, true), w0, t0)) /\
  (forall c service_name,
     ~ In (Restart c service_name) (calls (_configure_bessd_workload env new w))) /\
  interventions (calls (_configure_bessd_workload env new w))
  = match outcome (reconcile_bessd_state env new w) with
    | Ok _ => [DeletePod (_pod_name env)]
    | _ => []
    end /\
  (commands_succeed env new ->
   exists w' t, reconcile_bessd_state env new w = (Ok (true, true), w', t)).
Proof.
  intros Hflag Hstored Hdoc.
  destruct (Hdoc old (or_introl eq_refl)) as (mo & Hjo & Hko & Hho).
  destruct (Hdoc new (or_intror eq_refl)) as (mn & Hjn & Hkn & Hhn).
  apply (dict_get_member _ _ _ Hko) in Hho.
  apply (dict_get_member _ _ _ Hkn) in Hhn.
  assert (Hne : rendered_config env old <> rendered_config env new).
  { intros Heq. rewrite Heq, Hjn in Hjo. injection Hjo as <-.
    rewrite Hhn in Hho. injection Hho as Hho. rewrite Hflag in Hho.
    destruct (enable_hw_checksum old); discriminate. }
  pose proof (file_changed env new _ w _ _ Hstored Hne Hjo) as Hfile.
  rewrite Hho in Hfile.
  assert (Hpy : py_ne (JBool (enable_hw_checksum old)) (JBool (enable_hw_checksum new)) = true).
  { rewrite Hflag. unfold py_ne. cbn. destruct (enable_hw_checksum old); reflexivity. }
  rewrite Hpy in Hfile.
  pose proof (flags_decide new w _ _ _ Hfile eq_refl) as Hint.
  cbn [action_calls fst snd] in Hint.
  split; [eauto|]. split; [|split; [exact Hint|]].
  - intros c service_name Hin. apply restart_is_intervention in Hin.
    rewrite Hint in Hin.
    destruct (outcome (reconcile_bessd_state env new w));
      [destruct Hin as [Hin|[]]; discriminate | destruct Hin | destruct Hin].
  - intros Hok.
    destruct (state_run env new w _ _ _ Hok Hfile) as [c Hstate].
    cbn [fst snd orb] in Hstate. eauto.
Qed.

(** C4, as the code has it.  When the flag is the same and the rendered
    document differs from the stored one, the file stage sets [restart] and
    not [recreate_pod]; the pass does not delete the pod, and it restarts
    routectl, then bessd, when lines 556-584 return, as they do when no
    command is cut short; when they raise, the pass has no intervention. *)
Theorem content_change_restarts old new w :
  enable_hw_checksum new = enable_hw_checksum old ->
  files (bessd w) !! config_file_path = Some (rendered_config env old) ->
  rendered_config env new <> rendered_config env old ->
  (exists members,
     json_loads env (rendered_config env old) = Some (JObj members) /\
     List.NoDup (map fst members) /\
     In ("hwcksum", JBool (enable_hw_checksum old)) members) ->
  (exists w0 t0,
     reconcile_config_file env new (rendered_config env new) w = (Ok (true, false), w0, t0)) /\
  (forall pod, ~ In (DeletePod pod) (calls (_configure_bessd_workload env new w))) /\
  interventions (calls (_configure_bessd_workload env new w))
  = match outcome (reconcile_bessd_state env new w) with
    | Ok _ => [Restart bessd_container "routectl"; Restart bessd_container "bessd"]
    | _ => []
    end /\
  (commands_succeed env new ->
   exists w' t, reconcile_bessd_state env new w = (Ok (true, false), w', t)).
Proof.
  intros Hflag Hstored Hne (mo & Hjo & Hko & Hho).
  apply (dict_get_member _ _ _ Hko) in Hho.
  assert (Hne' : rendered_config env old <> rendered_config env new) by congruence.
  pose proof (file_changed env new _ w _ _ Hstored Hne' Hjo) as Hfile.
  rewrite Hho, Hflag in Hfile.
  assert (Hpy : forall b, py_ne (JBool b) (JBool b) = false).
  { intros []; reflexivity. }
  rewrite Hpy in Hfile.
  pose proof (flags_decide new w _ _ _ Hfile eq_refl) as Hint.
  cbn [action_calls fst snd] in Hint.
  split; [eauto|]. split; [|split; [exact Hint|]].
  - intros pod Hin. apply delete_is_intervention in Hin.
    rewrite Hint in Hin.
    destruct (outcome (reconcile_bessd_state env new w));
      [destruct Hin as [Hin|[Hin|[]]]; discriminate | destruct Hin | destruct Hin].
  - intros Hok.
    destruct (state_run env new w _ _ _ Hok Hfile) as [c Hstate].
    cbn [fst snd orb] in Hstate. eauto.
Qed.

End Reconciler.

Section TwoPasses.
Context (env : Env).

Lemma container_eta k :
  {| can_connect := can_connect k; files := files k; directories := directories k;
     plan_services := plan_services k; running := running k; routes := routes k;
     iptables := iptables k |} = k.
Proof. destruct k; reflexivity. Qed.

Lemma settled_fixed config k :
  installed_route (ran_route_command config) ∈ routes k ->
  installed_route (default_route_command config) ∈ routes k ->
  icmp_rule ∈ iptables k ->
  plan_services k = services (_bessd_pebble_layer config) ->
  settled config k = k.
Proof.
  intros Hr Hd Hi Hp.
  unfold settled, with_layer, with_rule, with_both_routes,
    with_plan_services, with_iptables, with_routes.
  cbn [plan_services iptables routes files directories can_connect running].
  rewrite (bool_decide_eq_true_2 _ Hi).
  rewrite bool_decide_eq_false_2 by (intros H; apply H; exact Hp).
  assert (Hroutes : {[installed_route (ran_route_command config)]}
           ∪ ({[installed_route (default_route_command config)]} ∪ routes k) = routes k).
  { apply set_eq. intros x. rewrite !elem_of_union, !elem_of_singleton.
    split; [intros [->|[->|?]]; assumption | intros ?; right; right; assumption]. }
  rewrite Hroutes. apply container_eta.
Qed.

Lemma writes_cons c t :
  writes (c :: t) = if is_write c then c :: writes t else writes t.
Proof. reflexivity. Qed.

(** C1, as the code has it.  From a container with no configuration
    file, no plan, no route, no firewall rule and no marker, and when no
    command is cut short, one pass of [_configure_bessd_workload] writes the
    file, runs both route commands, inserts the firewall rule, adds the
    layer, deletes the pod (it restarts no service), runs the bootstrap
    command once and writes the marker.  A second pass for the same
    configuration runs the two route commands again and writes nothing
    else; the bootstrap command is not run and the container is left as it
    was. *)
Theorem first_and_second_pass config w :
  path_exists config_file_path (bessd w) = false ->
  path_exists marker_path (bessd w) = false ->
  plan_services (bessd w) = ∅ ->
  routes (bessd w) = ∅ ->
  iptables (bessd w) = [] ->
  commands_succeed env config ->
  (forall t, exec_fault env (split bessctl_command) t = false) ->
  exists w1 t1 w2 t2,
    _configure_bessd_workload env config w = (Ok tt, w1, t1) /\
    writes t1
    = [Push bessd_container config_file_path (rendered_config env config);
       Exec (split (default_route_command config)) true;
       Exec (split (ran_route_command config)) true;
       Exec (split iptables_insert_command) true;
       AddLayer bessd_container "bessd" (_bessd_pebble_layer config);
       DeletePod (_pod_name env);
       Exec (split bessctl_command) true;
       Push bessd_container marker_path marker_message] /\
    files (bessd w1) !! config_file_path = Some (rendered_config env config) /\
    files (bessd w1) !! marker_path = Some marker_message /\
    routes (bessd w1)
    = {[installed_route (ran_route_command config)]}
      ∪ ({[installed_route (default_route_command config)]} ∪ ∅) /\
    iptables (bessd w1) = [icmp_rule] /\
    plan_services (bessd w1) = services (_bessd_pebble_layer config) /\
    _configure_bessd_workload env config w1 = (Ok tt, w2, t2) /\
    writes t2
    = [Exec (split (default_route_command config)) true;
       Exec (split (ran_route_command config)) true] /\
    (forall b, ~ In (Exec (split bessctl_command) b) t2) /\
    bessd w2 = bessd w1.
Proof.
  intros Hfile Hmarker Hplan Hroutes Hrules Hok Hbess.
  set (content := rendered_config env config).
  (* first pass *)
  pose proof (file_absent env config content w Hfile) as Hstage.
  destruct (state_run env config w _ _ _ Hok Hstage) as [c1 Hstate].
  cbn [fst snd orb] in Hstate.
  pose proof (pass_run env config w _ _ _ Hstate) as Hpass.
  match type of Hstate with _ = (_, ?w', _) => set (wa := w') in * end.
  assert (Hka : bessd wa = settled config (with_config content (bessd w))) by reflexivity.
  assert (Hma : path_exists marker_path (bessd wa) = false).
  { rewrite Hka, path_exists_settled, path_exists_with_config by apply paths_differ.
    exact Hmarker. }
  rewrite (run_bess_success env wa Hma Hbess) in Hpass.
  cbn [outcome final calls fst snd] in Hpass.
  set (w1 := after_bootstrap env wa) in *.
  assert (Hk1 : bessd w1
    = with_files (<[marker_path := marker_message]> (files (bessd wa))) (bessd wa))
    by reflexivity.
  assert (Hf1 : files (bessd w1)
    = <[marker_path := marker_message]> (<[config_file_path := content]> (files (bessd w))))
    by reflexivity.
  assert (Hi1 : iptables (bessd w1) = [icmp_rule]).
  { change (iptables (bessd w1))
      with (if bool_decide (icmp_rule ∈ iptables (bessd w)) then iptables (bessd w)
            else icmp_rule :: iptables (bessd w)).
    rewrite Hrules. reflexivity. }
  assert (Hp1 : plan_services (bessd w1) = services (_bessd_pebble_layer config)).
  { change (plan_services (bessd w1))
      with (if bool_decide (plan_services (bessd w) ≠ services (_bessd_pebble_layer config))
            then services (_bessd_pebble_layer config) ∪ plan_services (bessd w)
            else plan_services (bessd w)).
    rewrite Hplan, bool_decide_eq_true_2 by apply layer_not_empty.
    apply (right_id_L ∅ (∪)). }
  assert (Hr1 : routes (bessd w1)
    = {[installed_route (ran_route_command config)]}
      ∪ ({[installed_route (default_route_command config)]} ∪ ∅)).
  { change (routes (bessd w1))
      with ({[installed_route (ran_route_command config)]}
            ∪ ({[installed_route (default_route_command config)]} ∪ routes (bessd w))).
    rewrite Hroutes. reflexivity. }
  assert (Hc1 : files (bessd w1) !! config_file_path = Some content).
  { rewrite Hf1, lookup_insert_ne by apply paths_differ. apply lookup_insert_eq. }
  assert (Hm1 : files (bessd w1) !! marker_path = Some marker_message).
  { rewrite Hf1. apply lookup_insert_eq. }
  (* second pass *)
  pose proof (file_unchanged env config content w1 Hc1) as Hstage2.
  destruct (state_run env config w1 _ _ _ Hok Hstage2) as [c2 Hstate2].
  cbn [fst snd orb] in Hstate2.
  rewrite (bool_decide_eq_false_2 _ (fun H => H Hp1)) in Hstate2.
  pose proof (pass_run env config w1 _ _ _ Hstate2) as Hpass2.
  assert (Hfix : settled config (bessd w1) = bessd w1).
  { apply settled_fixed; [| | rewrite Hi1; apply list_elem_of_here | exact Hp1];
      rewrite Hr1, !elem_of_union, !elem_of_singleton; auto. }
  rewrite Hfix in Hstate2, Hpass2.
  match type of Hstate2 with _ = (_, ?w', _) => set (wb := w') in * end.
  assert (Hmb : path_exists marker_path (bessd wb) = true).
  { apply (path_exists_file _ _ _ Hm1). }
  rewrite (run_bess_marker env wb Hmb) in Hpass2.
  cbn [outcome final calls fst snd] in Hpass2.
  eexists _, _, _, _.
  split; [exact Hpass|]. split.
  { rewrite !writes_of_app, settling_writes.
    unfold at_clock, with_config, with_files.
    cbn [bessd iptables plan_services].
    rewrite Hrules, Hplan, (bool_decide_eq_true_2 _ (layer_not_empty config)).
    rewrite bool_decide_eq_false_2 by apply not_elem_of_nil.
    pose proof (fixed_writes true) as (_ & _ & Hb).
    set (ab := split bessctl_command) in *.
    set (a1 := split (default_route_command config)) in *.
    set (a2 := split (ran_route_command config)) in *.
    set (a4 := split iptables_insert_command) in *.
    clearbody ab a1 a2 a4.
    rewrite !writes_cons, Hb. reflexivity. }
  split; [exact Hc1|]. split; [exact Hm1|]. split; [exact Hr1|].
  split; [exact Hi1|]. split; [exact Hp1|].
  split; [exact Hpass2|]. split.
  { rewrite !writes_of_app, settling_writes.
    rewrite Hi1, (bool_decide_eq_false_2 _ (fun H => H Hp1)).
    rewrite bool_decide_eq_true_2 by apply list_elem_of_here.
    set (a1 := split (default_route_command config)) in *.
    set (a2 := split (ran_route_command config)) in *.
    clearbody a1 a2. reflexivity. }
  split; [|reflexivity].
  intros b Hin.
  assert (Hw : In (Exec (split bessctl_command) b) (writes
     ([Exists bessd_container config_file_path true;
       Pull bessd_container config_file_path (Some content)]
      ++ settling_calls config (bessd w1)))).
  { apply List.filter_In. split; [|apply fixed_writes].
    apply in_app_or in Hin as [Hin|Hin]; [exact Hin|].
    cbn [action_calls fst snd app] in Hin. destruct Hin as [Hin|[]]. discriminate. }
  rewrite writes_of_app, settling_writes in Hw.
  rewrite Hi1, (bool_decide_eq_false_2 _ (fun H => H Hp1)) in Hw.
  rewrite bool_decide_eq_true_2 in Hw by apply list_elem_of_here.
  change (writes [Exists bessd_container config_file_path true;
                  Pull bessd_container config_file_path (Some content)])
    with (@nil Call) in Hw.
  cbn [app] in Hw.
  destruct Hw as [Hw|[Hw|[]]];
    apply (f_equal (fun c => match c with Exec argv _ => head argv | _ => None end)) in Hw;
    discriminate Hw.
Qed.

End TwoPasses.

Section StatusAggregator.
Context (env : Env).

Lemma service_is_running_run c service_name w :
  service_is_running_on_container c service_name w
  = (Ok (service_running c service_name w), w, liveness_calls c service_name w).
Proof.
  unfold service_is_running_on_container, service_running, liveness_calls,
    bind, container_can_connect, try_except, container_get_service, ret.
  destruct (can_connect (container_of c w)); [|reflexivity].
  cbn [negb andb].
  destruct (running (container_of c w) !! service_name) as [r|]; reflexivity.
Qed.

Lemma service_running_with_status c service_name s w :
  service_running c service_name (with_status s w) = service_running c service_name w.
Proof. destruct c; reflexivity. Qed.

Lemma set_unit_status_run w :
  _set_unit_status w = (Ok tt, with_status (liveness_verdict w) w, aggregator_calls w).
Proof.
  unfold _set_unit_status, liveness_verdict, aggregator_calls.
  rewrite (bind_Ok _ _ _ _ _ _ (service_is_running_run _ _ w)).
  change _bessd_service_name with "bessd".
  destruct (service_running bessd_container "bessd" w); cbn [negb].
  2:{ unfold set_unit_status, modify. cbn [outcome final calls fst snd]. reflexivity. }
  rewrite (bind_Ok _ _ _ _ _ _ (service_is_running_run _ _ w)).
  change _routectl_service_name with "routectl".
  destruct (service_running bessd_container "routectl" w); cbn [negb].
  2:{ unfold set_unit_status, modify. cbn [outcome final calls fst snd]. reflexivity. }
  rewrite (bind_Ok _ _ _ _ _ _ (service_is_running_run _ _ w)).
  change _pfcp_agent_service_name with "pfcp-agent".
  destruct (service_running pfcp_agent_container "pfcp-agent" w); cbn [negb];
    unfold set_unit_status, modify; cbn [outcome final calls fst snd];
    rewrite ?app_nil_r; reflexivity.
Qed.

Lemma forallb_id_map {A} (f : A -> bool) l : forallb id (map f l) = forallb f l.
Proof. induction l as [|x l IH]; [reflexivity|]. cbn. rewrite IH. reflexivity. Qed.

Lemma comprehension_run nodes w :
  Forall is_Some nodes ->
  list_comprehension node_has_hugepages nodes w
  = (Ok (map (fun node =>
                match node with
                | Some allocatable =>
                    String.leb "2Gi" (default "0" (allocatable !! "hugepages-1Gi"))
                | None => false
                end) nodes), w, []).
Proof.
  induction 1 as [|node nodes [a ->] _ IH]; [reflexivity|].
  cbn [list_comprehension map]. unfold bind at 1. cbn [node_has_hugepages ret].
  unfold bind at 1. rewrite IH. reflexivity.
Qed.

Lemma hugepages_run w :
  nodes_answer env w ->
  _hugepages_are_available env w
  = (Ok (hugepages_enough w), w, [ListNodes (Some (nodes_allocatable w))]).
Proof.
  intros [Hf Hn]. unfold _hugepages_are_available, generator_truth. cbn [negb].
  unfold bind at 1, client_list_nodes. rewrite Hf.
  unfold bind at 1. rewrite (comprehension_run _ _ Hn). cbn [ret app].
  unfold hugepages_enough. rewrite forallb_id_map. reflexivity.
Qed.

Lemma is_cpu_compatible_run config w :
  (asks_nodes config w = true -> nodes_answer env w) ->
  _is_cpu_compatible env config w
  = match capability_reason config w with
    | Some reason => (Ok false, with_status (BlockedStatus reason) w, gate_calls config w)
    | None => (Ok true, w, gate_calls config w)
    end.
Proof.
  unfold _is_cpu_compatible, capability_reason, gate_calls, asks_nodes.
  unfold bind at 1, gets. cbn [id].
  destruct (has_extensions REQUIRED_CPU_EXTENSIONS w); cbn [negb andb];
    [|intros _; reflexivity].
  destruct (_hugepages_is_enabled config); cbn [andb]; [|intros _; reflexivity].
  destruct (_cpu_is_compatible_for_hugepages w); cbn [negb]; [|intros _; reflexivity].
  intros Hn. unfold bind at 1. rewrite (hugepages_run w (Hn eq_refl)).
  destruct (hugepages_enough w); reflexivity.
Qed.

(** The handler, gate by gate. *)
Lemma bessd_ready_run config w :
  from_charm w = config_valid config ->
  is_leader w = true ->
  (asks_nodes config w = true -> nodes_answer env w) ->
  _on_bessd_pebble_ready env w
  = match capability_reason config w with
    | Some reason => (Ok tt, with_status (BlockedStatus reason) w, gate_calls config w)
    | None =>
        if negb (multus_is_ready w) then
          (Ok tt, with_status (WaitingStatus "Waiting for Multus to be ready") w,
           gate_calls config w)
        else if negb (path_exists BESSD_CONTAINER_CONFIG_PATH (bessd w)) then
          (Ok tt, with_status (WaitingStatus "Waiting for storage to be attached") w,
           gate_calls config w ++ [Exists bessd_container BESSD_CONTAINER_CONFIG_PATH false])
        else
          let r := bind (_configure_bessd_workload env config)
                     (fun _ => _set_unit_status) w in
          (outcome r, final r,
           gate_calls config w
           ++ Exists bessd_container BESSD_CONTAINER_CONFIG_PATH true :: calls r)
    end.
Proof.
  intros Hcfg Hlead Hn. unfold _on_bessd_pebble_ready.
  unfold bind at 1. unfold gets at 1. rewrite Hcfg.
  unfold bind at 1. unfold gets at 1. rewrite Hlead. cbn [negb].
  unfold bind at 1. rewrite (is_cpu_compatible_run config w Hn).
  destruct (capability_reason config w) as [reason|];
    [unfold ret; cbn [negb app]; rewrite app_nil_r; reflexivity|].
  cbn [negb]. unfold bind at 1. unfold gets at 1.
  destruct (multus_is_ready w); cbn [negb];
    [|unfold set_unit_status, modify; cbn [app]; rewrite !app_nil_r; reflexivity].
  unfold bind at 1. unfold container_exists at 1. cbn [container_of].
  destruct (path_exists BESSD_CONTAINER_CONFIG_PATH (bessd w)); cbn [negb];
    [|unfold set_unit_status, modify; cbn [app]; reflexivity].
  destruct (bind (_configure_bessd_workload env config) _ w) as [[r w'] t].
  cbn [app outcome final calls fst snd]. reflexivity.
Qed.

Lemma gates_decided config w :
  gates_pass config w \/ ~ gates_pass config w.
Proof.
  unfold gates_pass.
  destruct (capability_reason config w); [right; intros (H & _); discriminate|].
  destruct (multus_is_ready w); [|right; intros (_ & H & _); discriminate].
  destruct (path_exists BESSD_CONTAINER_CONFIG_PATH (bessd w));
    [left; auto | right; intros (_ & _ & H); discriminate].
Qed.


End StatusAggregator.

Section OrderOfFile.
Context (env : Env).

Lemma exec_calls argv w :
  exists b : bool,
    container_exec env argv w
    = ((if b then Ok tt else Raise ExecError) : Outcome unit,
       final (container_exec env argv w), [Exec argv b]).
Proof.
  unfold container_exec.
  destruct (exec_fault env argv (clock w)); [exists false; reflexivity|].
  destruct (command_effect argv _); [exists true | exists false]; reflexivity.
Qed.

Lemma same_container_refl k : same_container k k = true.
Proof. destruct k; reflexivity. Qed.

(** *** The configuration file *)

Lemma hwcksum_reads config w :
  writes (calls (_hwcksum_config_matches_pod_config env config w)) = [].
Proof.
  unfold _hwcksum_config_matches_pod_config, bind, try_except, container_pull, ret, raise.
  cbn [container_of].
  destruct (files (bessd w) !! config_file_path) as [doc|]; [|reflexivity].
  destruct (json_loads env doc) as [[]|]; reflexivity.
Qed.

Lemma push_after_difference (x : bool) earlier config content seen :
  In seen earlier ->
  tells_difference (Push bessd_container config_file_path content) seen = true ->
  orderly x earlier
    (recreate_pod <- _hwcksum_config_matches_pod_config env config ;;
     _write_bessd_config_file content ;;;
     ret (true, recreate_pod))%eff.
Proof.
  intros Hin Hseen.
  apply respects_bind; [apply respects_reads, hwcksum_reads|].
  intros d w w1 t _.
  apply respects_bind; [|intros; apply respects_ret].
  apply respects_call. intros w2. eexists. split; [reflexivity|].
  apply (justified_by _ _ seen); [|exact Hseen].
  apply in_or_app. right. exact Hin.
Qed.

Lemma config_file_respects (x : bool) earlier config content :
  orderly x earlier (reconcile_config_file env config content).
Proof.
  unfold reconcile_config_file.
  apply respects_bind; [apply respects_reads; reflexivity|].
  intros written w w1 t Hrun.
  unfold _bessd_config_file_is_written, container_exists in Hrun.
  injection Hrun as <- <- <-. cbn [container_of rev app].
  destruct (path_exists config_file_path (bessd w)); cbn [negb].
  - apply respects_bind.
    { apply respects_bind; [apply respects_reads|intros; apply respects_ret].
      intros w0. unfold _bessd_config_file_content_matches, bind, container_pull.
      cbn [container_of].
      destruct (files (bessd w0) !! config_file_path) as [doc|]; [|reflexivity].
      destruct (negb (doc =? content)%string); reflexivity. }
    intros differs w0 w2 t0 Hrun.
    apply bind_inv_Ok in Hrun as (matches & w3 & t1 & t2 & Hm & Hr & ->).
    injection Hr as <- <- <-.
    destruct matches; cbn [negb]; [apply respects_ret|].
    unfold _bessd_config_file_content_matches in Hm.
    apply bind_inv_Ok in Hm as (doc & w4 & t3 & t4 & Hp & Hr & ->).
    unfold container_pull in Hp. cbn [container_of] in Hp.
    destruct (files (bessd w0) !! config_file_path) as [doc'|]; [|discriminate].
    injection Hp as <- <- <-.
    destruct (doc' =? content)%string eqn:Heq; cbn [negb] in Hr; [discriminate|].
    injection Hr as <- <-.
    apply (push_after_difference x _ _ _
             (Pull bessd_container config_file_path (Some doc'))).
    + rewrite app_nil_r. cbn [app rev]. left. reflexivity.
    + cbn [tells_difference same_container andb]. rewrite String.eqb_refl.
      rewrite bool_decide_eq_false_2; [reflexivity|].
      intros [= ->]. rewrite String.eqb_refl in Heq. discriminate.
  - apply respects_bind; [apply respects_ret|].
    intros differs w0 w2 t0 Hrun. injection Hrun as <- <- <-.
    apply (push_after_difference x _ _ _
             (Exists bessd_container config_file_path false)).
    + cbn [app rev]. left. reflexivity.
    + cbn [tells_difference same_container andb]. apply String.eqb_refl.
Qed.

End OrderOfFile.

Section OrderOfSettling.
Context (env : Env).

(** *** Routes, firewall rule, layer *)

Lemma route_commands config :
  is_route_command (split (default_route_command config)) = true /\
  is_route_command (split (ran_route_command config)) = true.
Proof. split; reflexivity. Qed.

Lemma exec_respects (x : bool) earlier argv :
  (forall b, justified is_write (routes_let_through x) tells_difference earlier (Exec argv b) = true) ->
  orderly x earlier (container_exec env argv).
Proof.
  intros H. apply respects_call. intros w.
  destruct (exec_calls env argv w) as [b Hb]. exists (Exec argv b).
  rewrite Hb. split; [reflexivity | apply H].
Qed.

Lemma routes_exempt earlier argv b :
  is_route_command argv = true -> justified is_write (routes_let_through true) tells_difference earlier (Exec argv b) = true.
Proof.
  intros H. apply justified_exempt. unfold routes_let_through. exact H.
Qed.

Lemma default_route_respects earlier config :
  orderly true earlier (_create_default_route env config).
Proof.
  apply exec_respects. intros b. apply routes_exempt, route_commands.
Qed.

Lemma ran_route_respects earlier config :
  orderly true earlier (_create_ran_route env config).
Proof.
  apply exec_respects. intros b. apply routes_exempt, route_commands.
Qed.

Lemma probe_tells b :
  tells_difference (Exec (split iptables_insert_command) b)
    (Exec (split iptables_check_command) false) = true.
Proof. rewrite check_argv, insert_argv. vm_compute. reflexivity. Qed.

Lemma rule_exists_inv w r w1 t :
  _ip_tables_rule_exists env w = (Ok r, w1, t) ->
  t = [Exec (split iptables_check_command) r].
Proof.
  unfold _ip_tables_rule_exists, try_except, bind, _exec_command_in_bessd_workload.
  destruct (exec_calls env (split iptables_check_command) w) as [b Hb].
  rewrite Hb. destruct b; cbn [ret]; intros [= <- <- <-]; reflexivity.
Qed.

Lemma rule_exists_reads w : writes (calls (_ip_tables_rule_exists env w)) = [].
Proof.
  unfold _ip_tables_rule_exists, try_except, bind, _exec_command_in_bessd_workload.
  destruct (exec_calls env (split iptables_check_command) w) as [b Hb].
  rewrite Hb. pose proof (fixed_writes b) as (Hw & _ & _).
  destruct b; cbn [ret calls snd app]; unfold writes; cbn [List.filter];
    rewrite Hw; reflexivity.
Qed.

Lemma ip_tables_respects (x : bool) earlier :
  orderly x earlier (reconcile_ip_tables_rule env).
Proof.
  unfold reconcile_ip_tables_rule.
  apply respects_bind; [apply respects_reads, rule_exists_reads|].
  intros r w w1 t Hrun. apply rule_exists_inv in Hrun as ->.
  destruct r; cbn [negb when]; [apply respects_ret|].
  apply exec_respects. intros b.
  apply (justified_by _ _ (Exec (split iptables_check_command) false));
    [left; reflexivity | apply probe_tells].
Qed.

Lemma pebble_layer_respects (x : bool) earlier config restart :
  orderly x earlier (reconcile_pebble_layer config restart).
Proof.
  unfold reconcile_pebble_layer.
  apply respects_bind; [apply respects_reads; reflexivity|].
  intros plan w w1 t Hrun. injection Hrun as <- <- <-. cbn [container_of rev app].
  destruct (bool_decide (plan_services (bessd w) ≠ services (_bessd_pebble_layer config)))
    eqn:Hd; [|apply respects_ret].
  apply respects_bind; [|intros; apply respects_ret].
  apply respects_call. intros w0. eexists. split; [reflexivity|].
  apply (justified_by _ _ (GetPlan bessd_container (plan_services (bessd w))));
    [left; reflexivity|].
  cbn [tells_difference same_container andb]. exact Hd.
Qed.

Lemma bessd_state_respects earlier config :
  orderly true earlier (reconcile_bessd_state env config).
Proof.
  unfold reconcile_bessd_state.
  apply respects_bind; [apply config_file_respects|]. intros flags w w1 t _.
  apply respects_bind; [apply default_route_respects|]. intros _ w2 w3 t2 _.
  apply respects_bind; [apply ran_route_respects|]. intros _ w4 w5 t3 _.
  apply respects_bind; [apply ip_tables_respects|]. intros _ w6 w7 t4 _.
  apply respects_bind; [apply pebble_layer_respects|]. intros; apply respects_ret.
Qed.

(** *** What the flags of a pass go back to *)

Lemma config_file_flags config content w flags w1 t :
  reconcile_config_file env config content w = (Ok flags, w1, t) ->
  fst flags || snd flags = true ->
  In (Push bessd_container config_file_path content) t.
Proof.
  unfold reconcile_config_file. intros H Hf.
  apply bind_inv_Ok in H as (written & w2 & t1 & t2 & _ & H & ->).
  apply bind_inv_Ok in H as (differs & w3 & t3 & t4 & _ & H & ->).
  destruct differs; [|injection H as <- <- <-; discriminate].
  apply bind_inv_Ok in H as (d & w4 & t5 & t6 & _ & H & ->).
  apply bind_inv_Ok in H as ([] & w5 & t7 & t8 & Hp & H & ->).
  unfold _write_bessd_config_file, container_push in Hp. injection Hp as <- <-.
  rewrite !in_app_iff. right. right. right. left. left. reflexivity.
Qed.

Lemma bessd_state_flags config w flags w1 t :
  reconcile_bessd_state env config w = (Ok flags, w1, t) ->
  (fst flags = true ->
   exists seen, In seen t /\
     forall name0, tells_difference (Restart bessd_container name0) seen = true) /\
  (snd flags = true ->
   exists seen, In seen t /\ forall name0, tells_difference (DeletePod name0) seen = true).
Proof.
  unfold reconcile_bessd_state. intros H.
  apply bind_inv_Ok in H as (f0 & w2 & t1 & t2 & Hfile & H & ->).
  apply bind_inv_Ok in H as ([] & w3 & t3 & t4 & _ & H & ->).
  apply bind_inv_Ok in H as ([] & w4 & t5 & t6 & _ & H & ->).
  apply bind_inv_Ok in H as ([] & w5 & t7 & t8 & _ & H & ->).
  apply bind_inv_Ok in H as (restart & w6 & t9 & t10 & Hlayer & H & ->).
  injection H as <- <- <-. cbn [fst snd]. split.
  - intros ->. unfold reconcile_pebble_layer in Hlayer.
    apply bind_inv_Ok in Hlayer as (plan & w7 & t11 & t12 & _ & Hlayer & ->).
    destruct (bool_decide (plan ≠ services (_bessd_pebble_layer config))).
    + apply bind_inv_Ok in Hlayer as ([] & w8 & t13 & t14 & Hadd & _ & ->).
      unfold container_add_layer in Hadd. injection Hadd as <- <-.
      exists (AddLayer bessd_container "bessd" (_bessd_pebble_layer config)).
      split; [|intros; reflexivity].
      rewrite !in_app_iff. do 4 right. left. right. left. left. reflexivity.
    + injection Hlayer as Hr <- <-.
      exists (Push bessd_container config_file_path (rendered_config env config)). split.
      * apply in_or_app. left.
        apply (config_file_flags _ _ _ _ _ _ Hfile). rewrite Hr. reflexivity.
      * intros; reflexivity.
  - intros Hd.
    exists (Push bessd_container config_file_path (rendered_config env config)). split.
    + apply in_or_app. left.
      apply (config_file_flags _ _ _ _ _ _ Hfile). rewrite Hd. apply orb_true_r.
    + intros. vm_compute. reflexivity.
Qed.

End OrderOfSettling.

Section OrderOfPass.
Context (env : Env).

(** *** The bootstrap runner *)

Lemma marker_tells b :
  tells_difference (Exec (split bessctl_command) b)
    (Exists bessd_container marker_path false) = true /\
  tells_difference (Push bessd_container marker_path marker_message)
    (Exists bessd_container marker_path false) = true.
Proof.
  split; [|reflexivity].
  cbn [tells_difference]. rewrite bool_decide_eq_true_2 by reflexivity. reflexivity.
Qed.

Lemma once_respects (x : bool) earlier : orderly x earlier (configure_bess_once env).
Proof.
  unfold configure_bess_once.
  apply respects_bind; [apply respects_reads; reflexivity|].
  intros executed w w1 t Hrun. injection Hrun as <- <- <-. cbn [container_of rev app].
  destruct (path_exists marker_path (bessd w)); cbn [negb]; [apply respects_ret|].
  apply respects_bind.
  - apply exec_respects. intros b.
    apply (justified_by _ _ (Exists bessd_container marker_path false));
      [left; reflexivity | apply (proj1 (marker_tells b))].
  - intros _ w2 w3 t2 _.
    apply respects_call. intros w4. eexists. split; [reflexivity|].
    apply (justified_by _ _ (Exists bessd_container marker_path false));
      [apply in_or_app; right; left; reflexivity | apply (proj2 (marker_tells true))].
Qed.

Lemma loop_respects (x : bool) fuel : forall earlier t0,
  orderly x earlier (bess_configuration_loop env fuel t0).
Proof.
  induction fuel as [|fuel IH]; intros earlier t0; [intros w; reflexivity|].
  cbn [bess_configuration_loop].
  apply respects_bind; [apply respects_silent; reflexivity|].
  intros now w w1 t Hrun. injection Hrun as <- <- <-. cbn [rev app].
  destruct (Nat.leb (clock w - t0) timeout); [|apply respects_raise].
  apply respects_try; [apply once_respects|].
  intros e w2 w3 t2 h _ He. destruct e; try discriminate. injection He as <-.
  apply respects_bind; [apply respects_silent; reflexivity|].
  intros. apply IH.
Qed.

Lemma run_bess_respects (x : bool) earlier :
  orderly x earlier (_run_bess_configuration env).
Proof.
  unfold _run_bess_configuration.
  apply respects_bind; [apply respects_silent; reflexivity|].
  intros. apply loop_respects.
Qed.

(** *** The whole pass *)

Lemma action_respects (x : bool) earlier flags :
  (fst flags = true ->
   exists seen, In seen earlier /\
     forall name0, tells_difference (Restart bessd_container name0) seen = true) ->
  (snd flags = true ->
   exists seen, In seen earlier /\
     forall name0, tells_difference (DeletePod name0) seen = true) ->
  orderly x earlier (apply_restart_or_recreate env flags).
Proof.
  destruct flags as [restart recreate_pod]. cbn [fst snd]. intros Hr Hd.
  unfold apply_restart_or_recreate.
  destruct recreate_pod.
  - destruct (Hd eq_refl) as (seen & Hin & Ht).
    apply respects_call. intros w. eexists. split; [reflexivity|].
    apply (justified_by _ _ seen Hin), Ht.
  - destruct restart; [|apply respects_ret].
    destruct (Hr eq_refl) as (seen & Hin & Ht).
    apply respects_bind.
    + apply respects_call. intros w. eexists. split; [reflexivity|].
      apply (justified_by _ _ seen Hin), Ht.
    + intros _ w w1 t _.
      apply respects_call. intros w2. eexists. split; [reflexivity|].
      apply (justified_by _ _ seen); [apply in_or_app; right; exact Hin | apply Ht].
Qed.

Lemma configure_bessd_respects config :
  orderly true [] (_configure_bessd_workload env config).
Proof.
  unfold _configure_bessd_workload.
  apply respects_bind; [apply bessd_state_respects|].
  intros flags w w1 t Hrun.
  destruct (bessd_state_flags env config w flags w1 t Hrun) as [Hr Hd].
  apply respects_bind; [|intros; apply run_bess_respects].
  apply action_respects.
  - intros H. destruct (Hr H) as (seen & Hin & Ht). exists seen. split; [|exact Ht].
    apply in_or_app. left. apply in_rev in Hin. exact Hin.
  - intros H. destruct (Hd H) as (seen & Hin & Ht). exists seen. split; [|exact Ht].
    apply in_or_app. left. apply in_rev in Hin. exact Hin.
Qed.

Lemma configure_pfcp_respects (x : bool) :
  orderly x [] _configure_pfcp_agent_workload.
Proof.
  unfold _configure_pfcp_agent_workload.
  apply respects_bind; [apply respects_reads; reflexivity|].
  intros plan w w1 t Hrun. injection Hrun as <- <- <-. cbn [container_of rev app].
  destruct (bool_decide (plan_services (pfcp_agent w) ≠ services _pfcp_agent_pebble_layer))
    eqn:Hd; [|apply respects_ret].
  apply respects_bind.
  - apply respects_call. intros w0. eexists. split; [reflexivity|].
    apply (justified_by _ _ (GetPlan pfcp_agent_container (plan_services (pfcp_agent w))));
      [left; reflexivity|].
    cbn [tells_difference same_container andb]. exact Hd.
  - intros [] w2 w3 t2. unfold container_add_layer. intros [= <- <-].
    apply respects_call. intros w4. eexists. split; [reflexivity|].
    apply (justified_by _ _ (AddLayer pfcp_agent_container "pfcp" _pfcp_agent_pebble_layer));
      [left; reflexivity | reflexivity].
Qed.

(** The route commands are issued whatever the container holds: as soon
    as the file stage returns, the first is run. *)
Lemma default_route_unconditional config w flags w0 t0 :
  reconcile_config_file env config (rendered_config env config) w = (Ok flags, w0, t0) ->
  exists b rest,
    calls (_configure_bessd_workload env config w)
    = t0 ++ Exec (split (default_route_command config)) b :: rest.
Proof.
  intros Hfile. unfold _configure_bessd_workload, reconcile_bessd_state.
  destruct (exec_calls env (split (default_route_command config)) w0) as [b Hb].
  exists b.
  match goal with |- context [bind (bind ?m ?k) ?k2 w] =>
    assert (Hstate : exists rest, calls (bind m k w)
              = t0 ++ Exec (split (default_route_command config)) b :: rest) end.
  { rewrite (bind_Ok _ _ _ _ _ _ Hfile). cbn [calls snd].
    unfold _create_default_route, _exec_command_in_bessd_workload.
    unfold bind at 1. rewrite Hb.
    destruct b.
    - match goal with |- context [calls (let (p, t2) := ?r in _)] =>
        destruct r as [[r1 w2] t2] end.
      exists t2. reflexivity.
    - exists []. reflexivity. }
  destruct Hstate as [rest Hstate].
  unfold bind at 1.
  match type of Hstate with calls ?r = _ => destruct r as [[[a| |] w1] t1] end;
    cbn [calls snd] in Hstate; subst t1.
  - match goal with |- context [let (p, t2) := ?r in _] => destruct r as [[r2 w2] t2] end.
    exists (rest ++ t2). cbn [calls snd]. rewrite <- app_assoc. reflexivity.
  - exists rest. reflexivity.
  - exists rest. reflexivity.
Qed.

End OrderOfPass.

Lemma demo_commands_succeed config : commands_succeed demo_env config.
Proof. intros t. repeat split. Qed.

(** C1 at the concrete configuration (mode normal, checksum off) and the
    fresh world. *)
Lemma first_and_second_pass_witness :
  exists w1 t1 w2 t2,
    _configure_bessd_workload demo_env demo_config fresh_world = (Ok tt, w1, t1) /\
    writes t1
    = [Push bessd_container config_file_path (rendered_config demo_env demo_config);
       Exec (split (default_route_command demo_config)) true;
       Exec (split (ran_route_command demo_config)) true;
       Exec (split iptables_insert_command) true;
       AddLayer bessd_container "bessd" (_bessd_pebble_layer demo_config);
       DeletePod (_pod_name demo_env);
       Exec (split bessctl_command) true;
       Push bessd_container marker_path marker_message] /\
    files (bessd w1) !! config_file_path = Some (rendered_config demo_env demo_config) /\
    files (bessd w1) !! marker_path = Some marker_message /\
    routes (bessd w1)
    = {[installed_route (ran_route_command demo_config)]}
      ∪ ({[installed_route (default_route_command demo_config)]} ∪ ∅) /\
    iptables (bessd w1) = [icmp_rule] /\
    plan_services (bessd w1) = services (_bessd_pebble_layer demo_config) /\
    _configure_bessd_workload demo_env demo_config w1 = (Ok tt, w2, t2) /\
    writes t2
    = [Exec (split (default_route_command demo_config)) true;
       Exec (split (ran_route_command demo_config)) true] /\
    (forall b, ~ In (Exec (split bessctl_command) b) t2) /\
    bessd w2 = bessd w1.
Proof.
  apply (first_and_second_pass demo_env demo_config fresh_world);
    solve [vm_compute; reflexivity | apply demo_commands_succeed | intros t; reflexivity].
Defined.

(** C1 as stated does not hold: the first pass deletes the pod and
    restarts no service, and the second pass still makes two writes, the
    route commands. *)
Lemma first_pass_replaces_pod :
  interventions (calls (_configure_bessd_workload demo_env demo_config fresh_world))
  = [DeletePod "upf-0"] /\
  writes (calls (_configure_bessd_workload demo_env demo_config settled_world))
  = [Exec (split (default_route_command demo_config)) true;
     Exec (split (ran_route_command demo_config)) true].
Proof. split; vm_compute; reflexivity. Qed.

(** C2 as stated does not hold: with both routes in place and nothing to
    change, a pass runs the route commands again, after no call that tells
    a difference. *)
Lemma route_commands_unguarded :
  installed_route (default_route_command demo_config) ∈ routes (bessd settled_world) /\
  installed_route (ran_route_command demo_config) ∈ routes (bessd settled_world) /\
  guarded false (calls (_configure_bessd_workload demo_env demo_config settled_world)) = false /\
  guarded true (calls (_configure_bessd_workload demo_env demo_config settled_world)) = true.
Proof.
  split; [|split; [|split]]; vm_compute; reflexivity.
Qed.

(** C3 at the settled world, with the checksum flag switched on. *)
Lemma checksum_change_witness :
  (exists w' t,
     reconcile_bessd_state demo_env (with_checksum true demo_config) settled_world
     = (Ok (true, true), w', t)) /\
  interventions (calls (_configure_bessd_workload demo_env (with_checksum true demo_config)
                          settled_world))
  = [DeletePod (_pod_name demo_env)] /\
  (forall c service_name,
     ~ In (Restart c service_name)
         (calls (_configure_bessd_workload demo_env (with_checksum true demo_config)
                   settled_world))).
Proof.
  destruct (checksum_change_replaces_pod demo_env demo_config (with_checksum true demo_config)
              settled_world) as (_ & Hrestart & Hdecided & Hreturns).
  - reflexivity.
  - vm_compute. reflexivity.
  - intros config [->| ->]; eexists; (split; [vm_compute; reflexivity|]);
      (split; [apply NoDup_ListNoDup, (bool_decide_unpack _); vm_compute; reflexivity|]);
      vm_compute; auto 10.
  - destruct (Hreturns (demo_commands_succeed _)) as (w' & t & Hstate).
    split; [eauto|]. split; [|exact Hrestart].
    rewrite Hdecided, Hstate. reflexivity.
Defined.

(** The checksum flag changes and the first route command is cut short:
    the file stage has set both flags and written the new document, the
    pass raises and deletes no pod; the next pass, in which every command
    runs through, finds the document up to date and deletes no pod
    either. *)
Lemma checksum_change_lost :
  enable_hw_checksum (with_checksum true demo_config)
  = negb (enable_hw_checksum demo_config) /\
  files (bessd settled_world) !! config_file_path
  = Some (rendered_config flaky_env demo_config) /\
  outcome (reconcile_config_file flaky_env (with_checksum true demo_config)
             (rendered_config flaky_env (with_checksum true demo_config)) settled_world)
  = Ok (true, true) /\
  outcome (_configure_bessd_workload flaky_env (with_checksum true demo_config) settled_world)
  = Raise ExecError /\
  interventions
    (calls (_configure_bessd_workload flaky_env (with_checksum true demo_config)
              settled_world)) = [] /\
  outcome (_configure_bessd_workload flaky_env (with_checksum true demo_config)
             (final (_configure_bessd_workload flaky_env (with_checksum true demo_config)
                       settled_world))) = Ok tt /\
  interventions
    (calls (_configure_bessd_workload flaky_env (with_checksum true demo_config)
              (final (_configure_bessd_workload flaky_env (with_checksum true demo_config)
                        settled_world)))) = [].
Proof. repeat split; vm_compute; reflexivity. Qed.

Lemma content_change_witness :
  (exists w' t,
     reconcile_bessd_state demo_env (with_dnn "ims" demo_config) settled_world
     = (Ok (true, false), w', t)) /\
  interventions (calls (_configure_bessd_workload demo_env (with_dnn "ims" demo_config)
                          settled_world))
  = [Restart bessd_container "routectl"; Restart bessd_container "bessd"] /\
  (forall pod,
     ~ In (DeletePod pod)
         (calls (_configure_bessd_workload demo_env (with_dnn "ims" demo_config)
                   settled_world))).
Proof.
  destruct (content_change_restarts demo_env demo_config (with_dnn "ims" demo_config)
              settled_world) as (_ & Hdelete & Hdecided & Hreturns).
  - reflexivity.
  - vm_compute. reflexivity.
  - vm_compute. discriminate.
  - eexists; (split; [vm_compute; reflexivity|]);
      (split; [apply NoDup_ListNoDup, (bool_decide_unpack _); vm_compute; reflexivity|]);
      vm_compute; auto 10.
  - destruct (Hreturns (demo_commands_succeed _)) as (w' & t & Hstate).
    split; [eauto|]. split; [|exact Hdelete].
    rewrite Hdecided, Hstate. reflexivity.
Defined.

(** The DNN changes and the first route command is cut short: the file
    stage has set [restart] and written the new document, the pass raises
    and restarts nothing; the next pass, in which every command runs
    through, finds the document up to date and restarts nothing either. *)
Lemma content_change_lost :
  enable_hw_checksum (with_dnn "ims" demo_config) = enable_hw_checksum demo_config /\
  files (bessd settled_world) !! config_file_path
  = Some (rendered_config flaky_env demo_config) /\
  outcome (reconcile_config_file flaky_env (with_dnn "ims" demo_config)
             (rendered_config flaky_env (with_dnn "ims" demo_config)) settled_world)
  = Ok (true, false) /\
  outcome (_configure_bessd_workload flaky_env (with_dnn "ims" demo_config) settled_world)
  = Raise ExecError /\
  interventions
    (calls (_configure_bessd_workload flaky_env (with_dnn "ims" demo_config)
              settled_world)) = [] /\
  outcome (_configure_bessd_workload flaky_env (with_dnn "ims" demo_config)
             (final (_configure_bessd_workload flaky_env (with_dnn "ims" demo_config)
                       settled_world))) = Ok tt /\
  interventions
    (calls (_configure_bessd_workload flaky_env (with_dnn "ims" demo_config)
              (final (_configure_bessd_workload flaky_env (with_dnn "ims" demo_config)
                        settled_world)))) = [].
Proof. repeat split; vm_compute; reflexivity. Qed.

Lemma bootstrap_runner_witness :
  exists w' t,
    _run_bess_configuration failing_env fresh_world = (Raise timed_out, w', t) /\
    timeout < clock w' - clock fresh_world /\ bessd w' = bessd fresh_world /\
    forall c p s, ~ In (Push c p s) t.
Proof.
  apply (proj1 (proj2 (bootstrap_runner failing_env fresh_world))).
  - vm_compute. reflexivity.
  - intros t. reflexivity.
Defined.

(** C10 at the fresh world: the first pass deletes the pod. *)
Lemma hwcksum_signal_witness :
  _hwcksum_config_matches_pod_config demo_env demo_config fresh_world
  = (Ok true, fresh_world, [Pull bessd_container config_file_path None]) /\
  (exists w' t,
     reconcile_bessd_state demo_env demo_config fresh_world = (Ok (true, true), w', t)) /\
  interventions (calls (_configure_bessd_workload demo_env demo_config fresh_world))
  = [DeletePod (_pod_name demo_env)].
Proof.
  destruct (hwcksum_signal demo_env demo_config fresh_world) as (Habsent & _ & Hfirst).
  destruct Hfirst as (_ & _ & Hdecided & Hreturns); [vm_compute; reflexivity|].
  destruct (Hreturns (demo_commands_succeed _)) as (w' & t & Hstate).
  split; [apply Habsent; reflexivity|]. split; [eauto|].
  rewrite Hdecided, Hstate. reflexivity.
Defined.

(** A container with no stored document, and the first route command is
    cut short: the pass raises with the document written and takes neither
    branch; the next pass, in which every command runs through, restarts
    the two services and does not delete the pod. *)
Lemma first_configuration_restarts :
  path_exists config_file_path (bessd fresh_world) = false /\
  outcome (_hwcksum_config_matches_pod_config flaky_env demo_config fresh_world) = Ok true /\
  outcome (_configure_bessd_workload flaky_env demo_config fresh_world) = Raise ExecError /\
  interventions (calls (_configure_bessd_workload flaky_env demo_config fresh_world)) = [] /\
  outcome (_configure_bessd_workload flaky_env demo_config
             (final (_configure_bessd_workload flaky_env demo_config fresh_world))) = Ok tt /\
  interventions
    (calls (_configure_bessd_workload flaky_env demo_config
              (final (_configure_bessd_workload flaky_env demo_config fresh_world))))
  = [Restart bessd_container "routectl"; Restart bessd_container "bessd"].
Proof. repeat split; vm_compute; reflexivity. Qed.




Section MoreOfCharm.
Context (env : Env).

(** *** Liveness of a service *)

(** X9. service_is_running_on_container never raises and never changes
    anything: it answers True exactly when the container can be connected to
    and the service is known and running; when the container cannot be
    connected to, the service is not even asked for. *)
Theorem service_is_running_total c service_name w :
  exists (b : bool) t,
    service_is_running_on_container c service_name w = (Ok b, w, t) /\
    (b = true <->
     can_connect (container_of c w) = true /\
     running (container_of c w) !! service_name = Some true) /\
    (can_connect (container_of c w) = false -> t = [CanConnect c false]) /\
    writes t = [].
Proof.
  rewrite service_is_running_run. eexists _, _. split; [reflexivity|].
  unfold service_running, liveness_calls.
  destruct (can_connect (container_of c w)); cbn [andb].
  - split; [|split; [discriminate|reflexivity]].
    destruct (running (container_of c w) !! service_name) as [[]|]; cbn [default];
      split; try discriminate; auto.
    + intros [_ H]; discriminate.
    + intros [_ H]; discriminate.
  - split; [|split; reflexivity].
    split; [discriminate|]. intros [H _]. discriminate.
Qed.

(** *** The firewall rule *)

(** X10. The firewall step: when the probe runs and the rule is present,
    nothing is inserted and the container is left as it is. When the probe is
    cut short for any other reason, that counts as the rule being absent: the
    rule is inserted at the head of the chain, also when it was already there,
    which duplicates it. *)
Theorem firewall_rule_probe w :
  (exec_fault env (split iptables_check_command) (clock w) = false ->
   icmp_rule ∈ iptables (bessd w) ->
   exists w1,
     reconcile_ip_tables_rule env w = (Ok tt, w1, [Exec (split iptables_check_command) true]) /\
     bessd w1 = bessd w) /\
  (exec_fault env (split iptables_check_command) (clock w) = true ->
   (forall t, exec_fault env (split iptables_insert_command) t = false) ->
   exists w1,
     reconcile_ip_tables_rule env w
     = (Ok tt, w1, [Exec (split iptables_check_command) false;
                    Exec (split iptables_insert_command) true]) /\
     iptables (bessd w1) = icmp_rule :: iptables (bessd w)).
Proof.
  split.
  - intros Hf Hin. unfold reconcile_ip_tables_rule, _ip_tables_rule_exists.
    unfold _exec_command_in_bessd_workload, bind, try_except.
    rewrite (exec_effect_run env _ w (bessd w) Hf).
    2:{ rewrite check_effect, bool_decide_eq_true_2 by exact Hin. reflexivity. }
    cbn [ret negb when]. eexists. split; [reflexivity|]. reflexivity.
  - intros Hf Hins. unfold reconcile_ip_tables_rule, _ip_tables_rule_exists.
    unfold _exec_command_in_bessd_workload, try_except.
    unfold bind at 1. unfold bind at 1.
    rewrite (exec_fault_run env _ w Hf). cbn [ret negb when app].
    unfold _create_ip_tables_rule, _exec_command_in_bessd_workload.
    erewrite exec_effect_run; [|apply Hins|apply insert_effect].
    eexists. split; [reflexivity|]. reflexivity.
Qed.

(** *** The layer of the pfcp agent *)

Lemma pfcp_run w :
  _configure_pfcp_agent_workload w
  = if bool_decide (plan_services (pfcp_agent w) ≠ services _pfcp_agent_pebble_layer) then
      (Ok tt,
       set_container pfcp_agent_container
         (with_plan_services
            (services _pfcp_agent_pebble_layer ∪ plan_services (pfcp_agent w))
            (pfcp_agent w)) w,
       [GetPlan pfcp_agent_container (plan_services (pfcp_agent w));
        AddLayer pfcp_agent_container "pfcp" _pfcp_agent_pebble_layer;
        Restart pfcp_agent_container _pfcp_agent_service_name])
    else (Ok tt, w, [GetPlan pfcp_agent_container (plan_services (pfcp_agent w))]).
Proof.
  unfold _configure_pfcp_agent_workload, bind, container_get_plan. cbn [container_of].
  destruct (bool_decide (plan_services (pfcp_agent w) ≠ services _pfcp_agent_pebble_layer));
    reflexivity.
Qed.

Lemma union_is_layer (l p : gmap string Service) : l ∪ p = l <-> within_layer p l.
Proof.
  unfold within_layer. split.
  - intros H k [v Hv]. destruct (l !! k) as [u|] eqn:Hl; [eauto|].
    exfalso. apply (f_equal (fun m => m !! k)) in H.
    rewrite lookup_union_r, Hv, Hl in H by exact Hl. discriminate.
  - intros H. apply map_eq. intros k.
    destruct (l !! k) as [u|] eqn:Hl.
    + apply lookup_union_Some_l. exact Hl.
    + rewrite lookup_union_r by exact Hl.
      destruct (p !! k) as [v|] eqn:Hp; [|reflexivity].
      destruct (H k) as [u Hu]; [eauto|]. congruence.
Qed.

(** X11. On a pfcp agent container that can be connected to,
    _configure_pfcp_agent_workload adds the layer and restarts the agent
    exactly when the services of the plan differ from those of the layer; it
    never touches the bessd container and leaves the plan of the pfcp agent as
    the layer merged over the old plan. A second call right after makes no
    write exactly when every service of the old plan is a service of the
    layer; with a service of another layer in the plan, every call adds the
    layer and restarts the agent again. *)
Theorem pfcp_layer_settles w :
  can_connect (pfcp_agent w) = true ->
  writes (calls (_configure_pfcp_agent_workload w))
  = (if bool_decide (plan_services (pfcp_agent w) ≠ services _pfcp_agent_pebble_layer)
     then [AddLayer pfcp_agent_container "pfcp" _pfcp_agent_pebble_layer;
           Restart pfcp_agent_container "pfcp-agent"]
     else []) /\
  bessd (final (_configure_pfcp_agent_workload w)) = bessd w /\
  plan_services (pfcp_agent (final (_configure_pfcp_agent_workload w)))
  = services _pfcp_agent_pebble_layer ∪ plan_services (pfcp_agent w) /\
  (writes (calls (_configure_pfcp_agent_workload
                    (final (_configure_pfcp_agent_workload w)))) = []
   <-> within_layer (plan_services (pfcp_agent w)) (services _pfcp_agent_pebble_layer)).
Proof.
  intros _.
  pose proof (pfcp_run w) as Hrun.
  destruct (bool_decide (plan_services (pfcp_agent w) ≠ services _pfcp_agent_pebble_layer))
    eqn:Hd; rewrite Hrun; cbn [outcome final calls fst snd].
  - split; [reflexivity|]. split; [reflexivity|]. split; [reflexivity|].
    rewrite pfcp_run. cbn [pfcp_agent set_container plan_services with_plan_services].
    rewrite <- union_is_layer.
    destruct (bool_decide (services _pfcp_agent_pebble_layer ∪ plan_services (pfcp_agent w)
                           ≠ services _pfcp_agent_pebble_layer)) eqn:Hd2.
    + apply bool_decide_eq_true_1 in Hd2. split; [discriminate|]. contradiction.
    + apply bool_decide_eq_false_1 in Hd2. split; [|reflexivity].
      intros _. destruct (decide (services _pfcp_agent_pebble_layer
                                   ∪ plan_services (pfcp_agent w)
                                   = services _pfcp_agent_pebble_layer)); tauto.
  - apply bool_decide_eq_false_1 in Hd.
    assert (He : plan_services (pfcp_agent w) = services _pfcp_agent_pebble_layer).
    { destruct (decide (plan_services (pfcp_agent w) = services _pfcp_agent_pebble_layer));
        tauto. }
    split; [reflexivity|]. split; [reflexivity|]. split.
    + rewrite He. symmetry. apply (idemp_L (∪)).
    + rewrite pfcp_run, bool_decide_eq_false_2 by tauto. cbn [calls snd].
      split; [intros _|reflexivity].
      rewrite He. intros k Hk. exact Hk.
Qed.

(** *** The mode and the layer of bessd *)

(** X12. The bessd layer depends on the mode: when the plan holds the layer of
    a configuration with the other mode, the layer step adds the new layer,
    answers that a restart is needed, and leaves the plan equal to the new
    layer. *)
Theorem mode_change_restarts old new restart w :
  upf_mode new <> upf_mode old ->
  plan_services (bessd w) = services (_bessd_pebble_layer old) ->
  services (_bessd_pebble_layer new) <> services (_bessd_pebble_layer old) /\
  exists w1,
    reconcile_pebble_layer new restart w
    = (Ok true, w1,
       [GetPlan bessd_container (plan_services (bessd w));
        AddLayer bessd_container "bessd" (_bessd_pebble_layer new)]) /\
    plan_services (bessd w1) = services (_bessd_pebble_layer new).
Proof.
  intros Hmode Hplan.
  assert (Hne : services (_bessd_pebble_layer new) <> services (_bessd_pebble_layer old)).
  { intros H. apply Hmode.
    apply (f_equal (fun m => command <$> m !! "bessd")) in H.
    cbn [services _bessd_pebble_layer] in H.
    change _bessd_service_name with "bessd" in H.
    change _routectl_service_name with "routectl" in H.
    rewrite !lookup_insert_ne, !lookup_singleton_eq in H by discriminate.
    unfold _generate_bessd_startup_command, _hugepages_is_enabled in H.
    destruct (upf_mode new), (upf_mode old); try reflexivity;
      vm_compute in H; discriminate. }
  split; [exact Hne|].
  rewrite layer_run, Hplan.
  rewrite bool_decide_eq_true_2 by (intros H; apply Hne; symmetry; exact H).
  rewrite orb_true_r. eexists. split; [reflexivity|].
  unfold at_clock, with_layer. cbn [bessd plan_services with_plan_services].
  rewrite Hplan, bool_decide_eq_true_2 by (intros H; apply Hne; symmetry; exact H).
  apply map_eq. intros k.
  destruct (services (_bessd_pebble_layer new) !! k) as [v|] eqn:Hk.
  - apply lookup_union_Some_l. exact Hk.
  - rewrite lookup_union_r by exact Hk.
    cbn [services _bessd_pebble_layer] in *.
    destruct (decide (k = _routectl_service_name)) as [->|Hk1].
    { rewrite lookup_insert_eq in Hk. discriminate. }
    destruct (decide (k = _bessd_service_name)) as [->|Hk2].
    { rewrite lookup_insert_ne, lookup_singleton_eq in Hk by discriminate. discriminate. }
    rewrite lookup_insert_ne, lookup_singleton_ne by congruence. reflexivity.
Qed.

(** *** The gates of the handlers *)

Lemma comprehension_cases nodes w :
  Forall is_Some nodes \/
  list_comprehension node_has_hugepages nodes w = (Raise AttributeError, w, []).
Proof.
  induction nodes as [|[a|] nodes IH]; [left; constructor| |right; reflexivity].
  destruct IH as [IH|IH]; [left; constructor; [eauto|exact IH]|].
  right. cbn [list_comprehension]. unfold bind at 1. cbn [node_has_hugepages ret].
  unfold bind at 1. rewrite IH. reflexivity.
Qed.

Lemma hugepages_fault w e :
  list_fault env = Some e ->
  _hugepages_are_available env w = (Raise e, w, [ListNodes None]).
Proof.
  intros Hf. unfold _hugepages_are_available, generator_truth. cbn [negb].
  unfold bind, client_list_nodes. rewrite Hf. reflexivity.
Qed.

Lemma hugepages_attribute w :
  list_fault env = None ->
  list_comprehension node_has_hugepages (nodes_allocatable w) w
  = (Raise AttributeError, w, []) ->
  _hugepages_are_available env w
  = (Raise AttributeError, w, [ListNodes (Some (nodes_allocatable w))]).
Proof.
  intros Hf Hn. unfold _hugepages_are_available, generator_truth. cbn [negb].
  unfold bind at 1, client_list_nodes. rewrite Hf.
  unfold bind at 1. rewrite Hn. reflexivity.
Qed.

(** The capability gate once it asks the nodes. *)
Lemma is_cpu_compatible_asks config w :
  asks_nodes config w = true ->
  _is_cpu_compatible env config w
  = match _hugepages_are_available env w with
    | (Ok available, w1, t) =>
        if negb available then
          (Ok false, with_status (BlockedStatus "Not enough HugePages available") w1, t)
        else (Ok true, w1, t)
    | (Raise e, w1, t) => (Raise e, w1, t)
    | (OutOfFuel, w1, t) => (OutOfFuel, w1, t)
    end.
Proof.
  intros Hasks. unfold asks_nodes in Hasks. apply andb_prop in Hasks as [Hasks H3].
  apply andb_prop in Hasks as [H1 H2].
  unfold _is_cpu_compatible. unfold bind at 1, gets. cbn [id]. rewrite H1, H2, H3. cbn [negb].
  unfold bind at 1.
  destruct (_hugepages_are_available env w) as [[[available|e|] w1] t]; try reflexivity.
  destruct available; cbn [negb]; unfold bind, set_unit_status, modify, ret; cbn [app];
    rewrite ?app_nil_r; reflexivity.
Qed.

(** The capability gate either has its answer from the nodes, or raises
    and leaves everything as it is. *)
Lemma is_cpu_compatible_any config w :
  (asks_nodes config w = true -> nodes_answer env w) \/
  exists e answer,
    _is_cpu_compatible env config w = (Raise e, w, [ListNodes answer]).
Proof.
  destruct (asks_nodes config w) eqn:Hasks; [|left; discriminate].
  rewrite (is_cpu_compatible_asks config w Hasks).
  destruct (list_fault env) as [e|] eqn:Hf.
  - right. exists e, None. rewrite (hugepages_fault w e Hf). reflexivity.
  - destruct (comprehension_cases (nodes_allocatable w) w) as [Hn|Hn].
    + left. intros _. split; assumption.
    + right. exists AttributeError, (Some (nodes_allocatable w)).
      rewrite (hugepages_attribute w Hf Hn). reflexivity.
Qed.

Lemma gate_calls_read config w : writes (gate_calls config w) = [].
Proof. unfold gate_calls. destruct (asks_nodes config w); reflexivity. Qed.

(** The handler when it does not get past the gates. *)
Lemma bessd_ready_stopped w :
  (forall config, from_charm w = config_valid config -> is_leader w = true ->
     (asks_nodes config w = true -> nodes_answer env w) -> ~ gates_pass config w) ->
  exists t,
    writes (calls (_on_bessd_pebble_ready env w)) = [] /\
    bessd (final (_on_bessd_pebble_ready env w)) = bessd w /\
    calls (_on_bessd_pebble_ready env w) = t.
Proof.
  intros Hstop.
  destruct (from_charm w) as [config|msg] eqn:Hcfg.
  2:{ eexists. unfold _on_bessd_pebble_ready, bind, gets. rewrite Hcfg.
      repeat split; reflexivity. }
  destruct (is_leader w) eqn:Hl.
  2:{ eexists. unfold _on_bessd_pebble_ready, bind, gets. rewrite Hcfg, Hl.
      repeat split; reflexivity. }
  destruct (is_cpu_compatible_any config w) as [Hn|(e & answer & Hraise)].
  2:{ assert (Hrun : _on_bessd_pebble_ready env w = (Raise e, w, [ListNodes answer])).
      { unfold _on_bessd_pebble_ready.
        unfold bind at 1. unfold gets at 1. rewrite Hcfg.
        unfold bind at 1. unfold gets at 1. rewrite Hl. cbn [negb].
        unfold bind at 1. rewrite Hraise. reflexivity. }
      rewrite Hrun. eexists. repeat split; reflexivity. }
  specialize (Hstop config eq_refl eq_refl Hn). unfold gates_pass in Hstop.
  rewrite (bessd_ready_run env config w Hcfg Hl Hn).
  destruct (capability_reason config w) as [reason|].
  { eexists. cbn [calls final snd fst]. rewrite gate_calls_read. repeat split; reflexivity. }
  destruct (multus_is_ready w); cbn [negb].
  2:{ eexists. cbn [calls final snd fst]. rewrite gate_calls_read. repeat split; reflexivity. }
  destruct (path_exists BESSD_CONTAINER_CONFIG_PATH (bessd w)); cbn [negb].
  { exfalso. apply Hstop. auto. }
  eexists. cbn [calls final snd fst]. rewrite writes_of_app, gate_calls_read.
  repeat split; reflexivity.
Qed.

(** X13. _on_bessd_pebble_ready writes to the workload or changes the bessd
    container only when the configuration is valid, the unit is the leader,
    the nodes have answered if the capability gate asked them, and the three
    gates (CPU capabilities, Multus ready, storage attached) pass. *)
Theorem bessd_ready_writes_only_past_the_gates w :
  writes (calls (_on_bessd_pebble_ready env w)) <> [] \/
  bessd (final (_on_bessd_pebble_ready env w)) <> bessd w ->
  exists config,
    from_charm w = config_valid config /\ is_leader w = true /\
    (asks_nodes config w = true -> nodes_answer env w) /\
    gates_pass config w.
Proof.
  intros H.
  destruct (from_charm w) as [config|msg] eqn:Hcfg.
  2:{ exfalso. destruct (bessd_ready_stopped w) as (t & Hw & Hb & _);
        [intros c Hc; rewrite Hcfg in Hc; discriminate|tauto]. }
  destruct (is_leader w) eqn:Hl.
  2:{ exfalso. destruct (bessd_ready_stopped w) as (t & Hw & Hb & _);
        [intros c _ Hc; rewrite Hl in Hc; discriminate|tauto]. }
  destruct (is_cpu_compatible_any config w) as [Hn|(e & answer & Hraise)].
  2:{ exfalso. destruct (bessd_ready_stopped w) as (t & Hw & Hb & _); [|tauto].
      intros c Hc _ Hnodes. rewrite Hcfg in Hc. injection Hc as <-.
      exfalso. rewrite (is_cpu_compatible_run env config w Hnodes) in Hraise.
      destruct (capability_reason config w); discriminate. }
  destruct (gates_decided config w) as [Hg|Hg]; [exists config; auto|].
  exfalso. destruct (bessd_ready_stopped w) as (t & Hw & Hb & _); [|tauto].
  intros c Hc _ _. rewrite Hcfg in Hc. injection Hc as <-. exact Hg.
Qed.

Lemma pfcp_ready_run config w :
  (asks_nodes config w = true -> nodes_answer env w) ->
  _on_pfcp_agent_pebble_ready env config w
  = if negb (is_leader w) then (Ok false, w, [])
    else
      match capability_reason config w with
      | Some reason =>
          (Ok false, with_status (BlockedStatus reason) w, gate_calls config w)
      | None =>
          if service_running bessd_container "bessd" w then
            (Ok false,
             with_status (liveness_verdict (final (_configure_pfcp_agent_workload w)))
               (final (_configure_pfcp_agent_workload w)),
             gate_calls config w
             ++ liveness_calls bessd_container "bessd" w
             ++ calls (_configure_pfcp_agent_workload w)
             ++ aggregator_calls (final (_configure_pfcp_agent_workload w)))
          else
            (Ok true, with_status (WaitingStatus "Waiting for bessd service to run") w,
             gate_calls config w ++ liveness_calls bessd_container "bessd" w)
      end.
Proof.
  intros Hn. unfold _on_pfcp_agent_pebble_ready.
  unfold bind at 1. unfold gets at 1.
  destruct (is_leader w); cbn [negb]; [|reflexivity].
  unfold bind at 1. rewrite (is_cpu_compatible_run env config w Hn).
  destruct (capability_reason config w) as [reason|];
    [unfold ret; cbn [negb app]; rewrite app_nil_r; reflexivity|].
  cbn [negb]. unfold bind at 1. rewrite service_is_running_run.
  change _bessd_service_name with "bessd".
  destruct (service_running bessd_container "bessd" w); cbn [negb].
  - unfold bind at 1. rewrite pfcp_run.
    destruct (bool_decide _); unfold bind at 1; rewrite set_unit_status_run;
      cbn [ret outcome final calls fst snd app]; rewrite ?app_nil_r; reflexivity.
  - unfold bind, set_unit_status, modify, ret. cbn [app]. rewrite !app_nil_r. reflexivity.
Qed.

(** X14. When the nodes answer if the capability gate asks them,
    _on_pfcp_agent_pebble_ready defers its event exactly when the unit is the
    leader, the CPU gate passes and the bessd service is not running; it then
    writes nothing and sets the status to waiting for bessd. It never touches
    the bessd container, and on a unit that is not the leader it does nothing
    at all. *)
Theorem pfcp_ready config w :
  (asks_nodes config w = true -> nodes_answer env w) ->
  (outcome (_on_pfcp_agent_pebble_ready env config w) = Ok true <->
   is_leader w = true /\ capability_reason config w = None /\
   service_running bessd_container "bessd" w = false) /\
  (outcome (_on_pfcp_agent_pebble_ready env config w) = Ok true ->
   writes (calls (_on_pfcp_agent_pebble_ready env config w)) = [] /\
   final (_on_pfcp_agent_pebble_ready env config w)
   = with_status (WaitingStatus "Waiting for bessd service to run") w) /\
  bessd (final (_on_pfcp_agent_pebble_ready env config w)) = bessd w /\
  (is_leader w = false ->
   _on_pfcp_agent_pebble_ready env config w = (Ok false, w, [])).
Proof.
  intros Hn. rewrite (pfcp_ready_run config w Hn).
  destruct (is_leader w); cbn [negb].
  2:{ cbn [outcome final calls fst snd].
      repeat split; try discriminate; auto. intros (H & _). discriminate. }
  destruct (capability_reason config w) as [reason|].
  { cbn [outcome final calls fst snd].
    repeat split; try discriminate; auto. intros (_ & H & _). discriminate. }
  destruct (service_running bessd_container "bessd" w).
  - cbn [outcome final calls fst snd].
    repeat split; try discriminate; auto.
    + intros (_ & _ & H). discriminate.
    + rewrite pfcp_run. destruct (bool_decide _); reflexivity.
  - cbn [outcome final calls fst snd].
    repeat split; try discriminate; auto.
    rewrite writes_of_app, gate_calls_read.
    unfold liveness_calls. destruct (can_connect _); reflexivity.
Qed.

(** *** The capability gate *)

(** X15. _hugepages_are_available compares the allocatable amount with 2Gi as
    text. When the listing of the nodes answers: with no node at all the
    answer is True (the test for no node is made on the generator, which is
    true whatever it yields); with a node that lacks the hugepages-1Gi entry,
    or whose amount starts with the digit 1 (such as 16Gi), the answer is
    False; when every node has an amount that starts with 2Gi the answer is
    True. A node without allocatable resources raises AttributeError, and a
    failure of the listing is raised as it is. *)
Theorem hugepages_compared_as_text w :
  (list_fault env = None -> nodes_allocatable w = [] ->
   _hugepages_are_available env w = (Ok true, w, [ListNodes (Some [])])) /\
  (nodes_answer env w ->
   exists answer : bool,
     _hugepages_are_available env w
     = (Ok answer, w, [ListNodes (Some (nodes_allocatable w))]) /\
     (forall node,
        In (Some node) (nodes_allocatable w) -> node !! "hugepages-1Gi" = None ->
        answer = false) /\
     (forall node rest,
        In (Some node) (nodes_allocatable w) ->
        node !! "hugepages-1Gi" = Some (String "1" rest) ->
        answer = false) /\
     ((forall node, In node (nodes_allocatable w) ->
         exists allocatable rest,
           node = Some allocatable /\
           allocatable !! "hugepages-1Gi" = Some ("2Gi" ++ rest)%string) ->
      answer = true)) /\
  (list_fault env = None -> In None (nodes_allocatable w) ->
   _hugepages_are_available env w
   = (Raise AttributeError, w, [ListNodes (Some (nodes_allocatable w))])) /\
  (forall e, list_fault env = Some e ->
   _hugepages_are_available env w = (Raise e, w, [ListNodes None])).
Proof.
  split; [|split; [|split]].
  - intros Hf Hn. rewrite hugepages_run by (split; [exact Hf|rewrite Hn; constructor]).
    unfold hugepages_enough. rewrite Hn. reflexivity.
  - intros Hn. rewrite (hugepages_run env w Hn). eexists. split; [reflexivity|].
    assert (Hrefused : forall node,
              In (Some node) (nodes_allocatable w) ->
              String.leb "2Gi" (default "0" (node !! "hugepages-1Gi")) = false ->
              hugepages_enough w = false).
    { intros node Hin Hleb. unfold hugepages_enough.
      destruct (forallb _ (nodes_allocatable w)) eqn:Hall; [|reflexivity].
      rewrite forallb_forall in Hall. specialize (Hall _ Hin). cbn in Hall.
      rewrite Hall in Hleb. discriminate. }
    split; [|split].
    + intros node Hin Hnone. apply (Hrefused node Hin). rewrite Hnone. reflexivity.
    + intros node rest Hin Hsome. apply (Hrefused node Hin). rewrite Hsome. reflexivity.
    + intros Hall. unfold hugepages_enough. apply forallb_forall. intros node Hin.
      destruct (Hall node Hin) as (allocatable & rest & -> & ->).
      cbn [default]. destruct rest; reflexivity.
  - intros Hf Hin.
    destruct (comprehension_cases (nodes_allocatable w) w) as [Hn|Hn].
    + exfalso. rewrite Forall_forall in Hn. destruct (Hn None) as [x Hx]; [|discriminate].
      apply list_elem_of_In. exact Hin.
    + apply hugepages_attribute; assumption.
  - intros e Hf. apply hugepages_fault, Hf.
Qed.

Lemma cpu_flags_kept flags (rest : list string) :
  (forall line, In line rest -> contains "Flags:" line = false) ->
  fold_left (fun cpu_flags cpu_info_item =>
               if contains "Flags:" cpu_info_item then tail (split cpu_info_item)
               else cpu_flags) rest flags = flags.
Proof.
  revert flags. induction rest as [|line rest IH]; intros flags H; [reflexivity|].
  cbn [fold_left]. rewrite (H line (or_introl eq_refl)).
  apply IH. intros l Hl. apply H. right. exact Hl.
Qed.

(** X16. _get_cpu_extensions answers the empty list when no line of the lscpu
    output contains Flags:, and otherwise the words of the last such line
    without the first one. *)
Theorem cpu_extensions_of_last_flags_line text :
  ((forall line, In line (lines text) -> contains "Flags:" line = false) ->
   _get_cpu_extensions text = []) /\
  (forall before line after,
     lines text = before ++ line :: after ->
     contains "Flags:" line = true ->
     (forall l, In l after -> contains "Flags:" l = false) ->
     _get_cpu_extensions text = tail (split line)).
Proof.
  unfold _get_cpu_extensions. split.
  - intros H. apply cpu_flags_kept, H.
  - intros before line after Hlines Hflag Hafter.
    rewrite Hlines, fold_left_app. cbn [fold_left]. rewrite Hflag.
    apply cpu_flags_kept, Hafter.
Qed.


(** *** The name of the pod *)

Lemma contains_slash_app a b : contains "/" (a ++ "/" ++ b) = true.
Proof.
  induction a as [|c a IH].
  - change (("" ++ "/" ++ b)%string) with (String "/" b). cbn. destruct b; reflexivity.
  - change ((String c a ++ "/" ++ b)%string) with (String c (a ++ "/" ++ b)).
    cbn [contains]. rewrite IH. apply orb_true_r.
Qed.

(** X18. The pod name is the unit name with its last slash replaced by a dash:
    a name without a slash is kept, and for a name a/b where b has no slash
    the pod name is a-b, whatever slashes a holds. *)
Theorem pod_name_replaces_last_slash :
  (forall s, contains "/" s = false -> replace_last_slash s = s) /\
  (forall a b, contains "/" b = false ->
     replace_last_slash (a ++ "/" ++ b) = (a ++ "-" ++ b)%string) /\
  (forall a b, unit_name env = (a ++ "/" ++ b)%string -> contains "/" b = false ->
     _pod_name env = (a ++ "-" ++ b)%string).
Proof.
  assert (H1 : forall s, contains "/" s = false -> replace_last_slash s = s).
  { induction s as [|c s IH]; intros H; [reflexivity|].
    cbn [contains] in H. apply orb_false_iff in H as [Hp Hs].
    cbn [replace_last_slash].
    assert (Hc : Ascii.eqb c "/" = false).
    { destruct (Ascii.eqb c "/") eqn:E; [|reflexivity].
      apply Ascii.eqb_eq in E. subst c. cbn in Hp. destruct s; discriminate. }
    rewrite Hc, (IH Hs). reflexivity. }
  assert (H2 : forall a b, contains "/" b = false ->
                replace_last_slash (a ++ "/" ++ b) = (a ++ "-" ++ b)%string).
  { intros a b Hb. induction a as [|c a IH].
    - change (("" ++ "/" ++ b)%string) with (String "/" b).
      cbn [replace_last_slash]. rewrite Hb. reflexivity.
    - change ((String c a ++ "/" ++ b)%string) with (String c (a ++ "/" ++ b)).
      cbn [replace_last_slash]. rewrite contains_slash_app, andb_false_r, IH.
      reflexivity. }
  split; [exact H1|]. split; [exact H2|].
  intros a b Hn Hb. unfold _pod_name. rewrite Hn. apply H2, Hb.
Qed.

(** *** What a pass never does *)


(** *** The command lines *)

Lemma append_empty_r (s : string) : (s ++ "")%string = s.
Proof.
  induction s as [|c s IH]; [reflexivity|].
  change ((String c s ++ "")%string) with (String c (s ++ "")). rewrite IH. reflexivity.
Qed.

Lemma append_char_assoc word c s :
  ((word ++ String c "") ++ s)%string = (word ++ String c s)%string.
Proof.
  induction word as [|d word IH]; [reflexivity|].
  change (((String d word ++ String c "") ++ s)%string)
    with (String d ((word ++ String c "") ++ s)).
  rewrite IH. reflexivity.
Qed.

Lemma graphic_not_space c : is_graphic c = true -> is_space c = false.
Proof.
  destruct c as [[] [] [] [] [] [] [] []]; intros H; try reflexivity;
    vm_compute in H; discriminate.
Qed.

Lemma split_from_token tok : forall word rest,
  graphic tok = true ->
  split_from word (tok ++ rest) = split_from (word ++ tok) rest.
Proof.
  induction tok as [|c tok IH]; intros word rest H.
  - rewrite append_empty_r. reflexivity.
  - cbn [graphic] in H. apply andb_true_iff in H as [Hc Htok].
    change ((String c tok ++ rest)%string) with (String c (tok ++ rest)).
    cbn [split_from]. rewrite (graphic_not_space c Hc).
    rewrite (IH _ _ Htok), append_char_assoc. reflexivity.
Qed.

Lemma split_token_then tok rest :
  is_token tok = true ->
  split_from "" (tok ++ String " " rest) = tok :: split_from "" rest.
Proof.
  intros H. apply andb_true_iff in H as [Hne Htok].
  rewrite (split_from_token tok "" _ Htok).
  change (("" ++ tok)%string) with tok. cbn [split_from is_space].
  apply negb_true_iff in Hne. rewrite Hne. reflexivity.
Qed.

Lemma split_token_last tok :
  is_token tok = true -> split_from "" tok = [tok].
Proof.
  intros H. apply andb_true_iff in H as [Hne Htok].
  rewrite <- (append_empty_r tok) at 1.
  rewrite (split_from_token tok "" "" Htok).
  change (("" ++ tok)%string) with tok. cbn [split_from].
  apply negb_true_iff in Hne. rewrite Hne. reflexivity.
Qed.

(** X20. The two route commands, once split into words: when the core gateway
    is a word (not empty, printable characters other than the blank) the
    default route command is ip route replace default via GATEWAY metric 110,
    and when the gNB subnet and the access gateway are words the RAN route
    command is ip route replace SUBNET via GATEWAY. *)
Theorem route_command_lines config :
  (is_token (core_gateway_ip config) = true ->
   split (default_route_command config)
   = ["ip"; "route"; "replace"; "default"; "via"; core_gateway_ip config; "metric"; "110"]) /\
  (is_token (gnb_subnet config) = true ->
   is_token (access_gateway_ip config) = true ->
   split (ran_route_command config)
   = ["ip"; "route"; "replace"; gnb_subnet config; "via"; access_gateway_ip config]).
Proof.
  split.
  - intros Hgw. unfold split, default_route_command, _get_network_gateway_ip_config.
    change (String.eqb CORE_INTERFACE_NAME ACCESS_INTERFACE_NAME) with false.
    change (String.eqb CORE_INTERFACE_NAME CORE_INTERFACE_NAME) with true.
    cbn iota.
    change (("ip route replace default via " ++ core_gateway_ip config ++ " metric 110")%string)
      with ("ip" ++ String " " ("route" ++ String " " ("replace" ++ String " "
              ("default" ++ String " " ("via" ++ String " "
                 (core_gateway_ip config ++ String " "
                    ("metric" ++ String " " "110")))))))%string.
    rewrite !split_token_then by (reflexivity || exact Hgw).
    rewrite split_token_last by reflexivity. reflexivity.
  - intros Hsub Hgw. unfold split, ran_route_command, _get_network_gateway_ip_config.
    change (String.eqb ACCESS_INTERFACE_NAME ACCESS_INTERFACE_NAME) with true.
    cbn iota.
    change (("ip route replace " ++ gnb_subnet config ++ " via " ++ access_gateway_ip config)%string)
      with ("ip" ++ String " " ("route" ++ String " " ("replace" ++ String " "
              (gnb_subnet config ++ String " " ("via" ++ String " "
                 (access_gateway_ip config))))))%string.
    rewrite !split_token_then by (reflexivity || exact Hsub).
    rewrite split_token_last by exact Hgw. reflexivity.
Qed.

End MoreOfCharm.
(** X10 on concrete data. *)
Lemma firewall_rule_probe_witness :
  exists w1,
    reconcile_ip_tables_rule probe_failing_env settled_world
    = (Ok tt, w1, [Exec (split iptables_check_command) false;
                   Exec (split iptables_insert_command) true]) /\
    iptables (bessd w1) = icmp_rule :: iptables (bessd settled_world).
Proof.
  apply (proj2 (firewall_rule_probe probe_failing_env settled_world)).
  - vm_compute. reflexivity.
  - intros t. vm_compute. reflexivity.
Defined.

(** X11 on concrete data. *)
Lemma pfcp_layer_settles_witness :
  writes (calls (_configure_pfcp_agent_workload
                   (final (_configure_pfcp_agent_workload crowded_world)))) <> [].
Proof.
  intros H.
  apply (proj2 (proj2 (proj2 (pfcp_layer_settles crowded_world eq_refl)))) in H.
  destruct (H "metrics") as [v Hv]; [vm_compute; eauto|]. vm_compute in Hv. discriminate.
Defined.

(** X12 on concrete data. *)
Lemma mode_change_witness :
  services (_bessd_pebble_layer (with_mode dpdk demo_config))
  <> services (_bessd_pebble_layer demo_config) /\
  exists w1,
    reconcile_pebble_layer (with_mode dpdk demo_config) false settled_world
    = (Ok true, w1,
       [GetPlan bessd_container (plan_services (bessd settled_world));
        AddLayer bessd_container "bessd" (_bessd_pebble_layer (with_mode dpdk demo_config))]) /\
    plan_services (bessd w1) = services (_bessd_pebble_layer (with_mode dpdk demo_config)).
Proof.
  apply (mode_change_restarts demo_config (with_mode dpdk demo_config) false settled_world).
  - discriminate.
  - vm_compute. reflexivity.
Defined.

(** X13 on concrete data. *)
Lemma bessd_ready_witness :
  exists config,
    from_charm fresh_world = config_valid config /\ is_leader fresh_world = true /\
    (asks_nodes config fresh_world = true -> nodes_answer demo_env fresh_world) /\
    gates_pass config fresh_world.
Proof.
  apply (bessd_ready_writes_only_past_the_gates demo_env fresh_world).
  left. vm_compute. discriminate.
Defined.

(** X14 on concrete data. *)
Lemma pfcp_ready_witness :
  outcome (_on_pfcp_agent_pebble_ready demo_env demo_config restarted_world) = Ok true.
Proof.
  apply (proj1 (pfcp_ready demo_env demo_config restarted_world
                  (fun _ => conj eq_refl (List.Forall_nil _)))).
  repeat split; vm_compute; reflexivity.
Defined.

End CharmTheory.

(** * Both files *)

(** C2, as the code has it.  In [_patch] and [_on_remove] every create
    and delete comes after a lookup whose answer tells it is needed, and a
    patch comes after the statefulset is read; a patch is issued only when
    [statefulset_is_patched], on the cluster [_patch] started from, answers
    [False].  In [_configure_bessd_workload] every write other than the two
    [ip route replace] commands comes after a call that tells the
    difference it removes; [_configure_pfcp_agent_workload] has no
    exception.  The route commands are guarded by nothing: once the file
    stage returns, the first is run whatever the container holds. *)
Theorem writes_follow_reads :
  (forall env self w,
     Multus.guarded (calls (Multus._patch env self w)) = true /\
     Multus.guarded (calls (Multus._on_remove env self w)) = true) /\
  (forall env self w n obj,
     In (Multus.Patch n obj) (calls (Multus._patch env self w)) ->
     exists t,
       Multus.statefulset_is_patched env (Multus.app_name self)
         (Multus.network_annotations self)
         (Multus.containers_requiring_net_admin_capability self) w
       = (Ok false, w, t)) /\
  (forall env config w,
     Charm.guarded true (calls (Charm._configure_bessd_workload env config w)) = true) /\
  (forall w,
     Charm.guarded false (calls (Charm._configure_pfcp_agent_workload w)) = true) /\
  (forall env config w flags w0 t0,
     Charm.reconcile_config_file env config (Charm.rendered_config env config) w
     = (Ok flags, w0, t0) ->
     exists b rest,
       calls (Charm._configure_bessd_workload env config w)
       = t0 ++ Charm.Exec (split (Charm.default_route_command config)) b :: rest).
Proof.
  split; [|split; [|split; [|split]]].
  - intros env self w. split; [apply MultusTheory.patch_follows | apply MultusTheory.on_remove_follows].
  - intros env self w n obj. apply MultusTheory.patch_needs_answer.
  - intros env config w. apply CharmTheory.configure_bessd_respects.
  - intros w. apply CharmTheory.configure_pfcp_respects.
  - intros env config w flags w0 t0. apply CharmTheory.default_route_unconditional.
Qed.

(** C2 on concrete data: the patch of the first reconciliation of the
    example cluster. *)
Lemma writes_follow_reads_witness :
  exists t,
    Multus.statefulset_is_patched Multus.demo_env (Multus.app_name Multus.demo_lib)
      (Multus.network_annotations Multus.demo_lib)
      (Multus.containers_requiring_net_admin_capability Multus.demo_lib) Multus.demo_cluster
    = (Ok false, Multus.demo_cluster, t).
Proof.
  apply (proj1 (proj2 writes_follow_reads) Multus.demo_env Multus.demo_lib Multus.demo_cluster
           (Multus.app_name Multus.demo_lib) Multus.demo_patch).
  vm_compute. auto 10.
Defined.
